(** * SafeHouse (Safe-Link Sandbox): the risk-scoring and verdict-fusion engine

    A shallow embedding of the analyzer module (isValidUrl, analyzeDomain,
    analyzeContent, analyzeNetworkRequests, determineRiskLevel, analyzeUrl,
    quickCheck), of ai-analyzer.js (analyzeWithAI, parseAIResponse,
    mergeAnalysisResults) and of the analyze, quick-check and batch routes
    of server.js.

    Conventions of the embedding.
    - A JavaScript string is the list of its UTF-16 code units.
    - Scores computed by the heuristic analyzers are sums of small integers,
      kept in [Z]; a score stored in a result object is a JavaScript number,
      a binary64 [float], and the fusion arithmetic is done on floats.
    - A function that may throw returns a [completion].
    - The runtime's [URL] constructor and [JSON.parse] are parameters of the
      development (the class [Runtime]), and so are its conversions between
      numbers and strings (the class [Conversions]): every theorem holds
      for whatever they compute. [JSON.parse] may return any value; the
      fusion engine tells a falsy one from a truthy one, which it reads
      through its properties.
    - A route is its handler on the value of [req.body], behind the body
      parser, the limiter and the last error handler ([serve]); a handler
      sends a response or an exception leaves it.
    - A regular expression literal is a [RegExp]; [test] decides it with
      Brzozowski derivatives and is proved correct against the usual
      inductive semantics. *)

From Stdlib Require Import String Ascii.
From Stdlib Require Import ZArith NArith List Bool Lia Permutation.
From Stdlib Require Import Floats Uint63.
Import ListNotations.

Set Implicit Arguments.
Set Warnings "-inexact-float".

Open Scope bool_scope.

(* ================================================================== *)
(** * JavaScript strings *)

Definition jsstring := list N.

(** An ASCII literal of the source as code units. *)
Fixpoint js (s : string) : jsstring :=
  match s with
  | EmptyString => []
  | String a s' => N_of_ascii a :: js s'
  end.

Fixpoint str_eqb (a b : jsstring) : bool :=
  match a, b with
  | [], [] => true
  | x :: a', y :: b' => N.eqb x y && str_eqb a' b'
  | _, _ => false
  end.

(** [s.startsWith(p)] *)
Fixpoint startsWith (p s : jsstring) : bool :=
  match p, s with
  | [], _ => true
  | x :: p', y :: s' => N.eqb x y && startsWith p' s'
  | _ :: _, [] => false
  end.

(** [s.includes(p)] *)
Fixpoint includes (p s : jsstring) : bool :=
  startsWith p s ||
  match s with
  | [] => false
  | _ :: s' => includes p s'
  end.

(** [s.indexOf(p)], as the suffix that starts with the first occurrence. *)
Fixpoint find_from (p s : jsstring) : option (jsstring * jsstring) :=
  if startsWith p s then Some ([], s)
  else match s with
       | [] => None
       | c :: s' =>
           match find_from p s' with
           | Some (pre, rest) => Some (c :: pre, rest)
           | None => None
           end
       end.

(** [s.split(sep)] for a one-unit separator: always at least one piece. *)
Fixpoint split (sep : N) (s : jsstring) : list jsstring :=
  match s with
  | [] => [[]]
  | c :: s' =>
      if N.eqb c sep then [] :: split sep s'
      else match split sep s' with
           | [] => [[c]]
           | piece :: pieces => (c :: piece) :: pieces
           end
  end.

(** [s.substring(0, n)] *)
Definition substring0 (n : nat) (s : jsstring) : jsstring := firstn n s.

(** [arr.includes(s)] on an array of strings. *)
Definition str_in (s : jsstring) (l : list jsstring) : bool :=
  existsb (str_eqb s) l.

(** Truthiness of a string: the empty string is falsy. *)
Definition nonempty (s : jsstring) : bool :=
  match s with
  | [] => false
  | _ :: _ => true
  end.

(* ================================================================== *)
(** * Exceptions *)

(** What is thrown: the TypeError of [new URL], the Error of analyzeUrl on
    a URL that is not valid, or a rejection of the browser with its
    message. *)
Inductive Error : Type :=
| InvalidURL
| InvalidUrlFormat
| Rejection (message : jsstring).

Inductive completion (A : Type) : Type :=
| Normal (a : A)
| Throw (e : Error).

Arguments Normal {A} a.
Arguments Throw {A} e.

Definition bind {A B} (c : completion A) (k : A -> completion B) : completion B :=
  match c with
  | Normal a => k a
  | Throw e => Throw e
  end.

Notation "'let*' x ':=' c 'in' k" := (bind c (fun x => k))
  (at level 10, x name, c at level 100, k at level 200).

(** [arr.map(f)] when [f] may throw: the first exception aborts the map. *)
Fixpoint mapM {A B} (f : A -> completion B) (l : list A) : completion (list B) :=
  match l with
  | [] => Normal []
  | x :: l' =>
      let* y := f x in
      let* ys := mapM f l' in
      Normal (y :: ys)
  end.

(* ================================================================== *)
(** * Regular expressions *)

Module Regex.

Inductive regex : Type :=
| Void
| Eps
| Chr (p : N -> bool)
| Seq (r1 r2 : regex)
| Alt (r1 r2 : regex)
| Star (r : regex).

Fixpoint nullable (r : regex) : bool :=
  match r with
  | Void => false
  | Eps => true
  | Chr _ => false
  | Seq r1 r2 => nullable r1 && nullable r2
  | Alt r1 r2 => nullable r1 || nullable r2
  | Star _ => true
  end.

Fixpoint deriv (c : N) (r : regex) : regex :=
  match r with
  | Void => Void
  | Eps => Void
  | Chr p => if p c then Eps else Void
  | Seq r1 r2 =>
      if nullable r1 then Alt (Seq (deriv c r1) r2) (deriv c r2)
      else Seq (deriv c r1) r2
  | Alt r1 r2 => Alt (deriv c r1) (deriv c r2)
  | Star r1 => Seq (deriv c r1) (Star r1)
  end.

Fixpoint accepts (r : regex) (s : jsstring) : bool :=
  match s with
  | [] => nullable r
  | c :: s' => accepts (deriv c r) s'
  end.

(** The language of a regular expression. *)
Inductive Matches : regex -> jsstring -> Prop :=
| MEps : Matches Eps []
| MChr p c : p c = true -> Matches (Chr p) [c]
| MSeq r1 r2 s1 s2 :
    Matches r1 s1 -> Matches r2 s2 -> Matches (Seq r1 r2) (s1 ++ s2)
| MAltL r1 r2 s : Matches r1 s -> Matches (Alt r1 r2) s
| MAltR r1 r2 s : Matches r2 s -> Matches (Alt r1 r2) s
| MStarNil r : Matches (Star r) []
| MStarApp r s1 s2 :
    Matches r s1 -> Matches (Star r) s2 -> Matches (Star r) (s1 ++ s2).

(** A regular expression literal: [^] and [$] are the two anchors, the
    body is what stands between them. *)
Record RegExp : Type := mkRegExp {
  anchored_start : bool;
  body : regex;
  anchored_end : bool
}.

Definition any : regex := Chr (fun _ => true).

Definition unanchored (anchored : bool) : regex :=
  if anchored then Eps else Star any.

(** [re.test(s)]: some substring of [s] (a prefix, a suffix, or all of it,
    according to the anchors) is in the language of the body. *)
Definition test (re : RegExp) (s : jsstring) : bool :=
  accepts
    (Seq (unanchored (anchored_start re))
         (Seq (body re) (unanchored (anchored_end re))))
    s.

(** ** Building blocks of the literals of the source *)

Definition chr (a : ascii) : regex := Chr (N.eqb (N_of_ascii a)).

Fixpoint lit (s : string) : regex :=
  match s with
  | EmptyString => Eps
  | String a s' => Seq (chr a) (lit s')
  end.

(** Canonicalisation of the [i] flag (without [u]) as far as the ASCII
    patterns of the source can tell: an ASCII letter goes to its upper-case
    form, and a unit outside ASCII never folds onto an ASCII one. *)
Definition canonicalize (c : N) : N :=
  if (97 <=? c)%N && (c <=? 122)%N then (c - 32)%N else c.

Definition chr_i (a : ascii) : regex :=
  Chr (fun c => N.eqb (canonicalize c) (canonicalize (N_of_ascii a))).

Fixpoint lit_i (s : string) : regex :=
  match s with
  | EmptyString => Eps
  | String a s' => Seq (chr_i a) (lit_i s')
  end.

Definition in_range (lo hi c : N) : bool := (lo <=? c)%N && (c <=? hi)%N.

(** [\d] *)
Definition is_digit (c : N) : bool := in_range 48 57 c.
Definition digit : regex := Chr is_digit.

(** [\s]: WhiteSpace and LineTerminator of ECMAScript. *)
Definition is_space (c : N) : bool :=
  in_range 9 13 c || N.eqb c 32 || N.eqb c 160 || N.eqb c 5760 ||
  in_range 8192 8202 c || N.eqb c 8232 || N.eqb c 8233 || N.eqb c 8239 ||
  N.eqb c 8287 || N.eqb c 12288 || N.eqb c 65279.
Definition space : regex := Chr is_space.

(** [.]: any unit but a line terminator. *)
Definition is_line_terminator (c : N) : bool :=
  N.eqb c 10 || N.eqb c 13 || N.eqb c 8232 || N.eqb c 8233.
Definition dot : regex := Chr (fun c => negb (is_line_terminator c)).

(** [r+] *)
Definition plus (r : regex) : regex := Seq r (Star r).

(** [r{n,}] *)
Fixpoint at_least (n : nat) (r : regex) : regex :=
  match n with
  | O => Star r
  | S n' => Seq r (at_least n' r)
  end.

End Regex.

Import Regex.

(* ================================================================== *)
(** * JavaScript numbers *)

(** The number of an integer (exact below 2^53). *)
Definition num_of_Z (n : Z) : float :=
  if (n <? 0)%Z then PrimFloat.opp (PrimFloat.of_uint63 (Uint63.of_Z (- n)))
  else PrimFloat.of_uint63 (Uint63.of_Z n).

Definition is_nan (x : float) : bool := negb (PrimFloat.eqb x x).

(** [Math.round]: the integer nearest to the argument, a tie going up;
    a NaN, an infinity, a zero and a number with no fractional bits are
    returned as they are, and a result that rounds a negative number to
    zero is the negative zero. *)
Definition Math_round (x : float) : float :=
  match Prim2SF x with
  | S754_finite s m e =>
      if (0 <=? e)%Z then x
      else
        let v := if s then Z.neg m else Z.pos m in
        let n := Z.shiftr (2 * v + Z.shiftl 1 (- e)) (1 - e) in
        if (n =? 0)%Z && s then (-0)%float else num_of_Z n
  | _ => x
  end.

(** [Math.max] of two numbers. *)
Definition Math_max (a b : float) : float :=
  if is_nan a || is_nan b then nan
  else if PrimFloat.ltb a b then b
  else if PrimFloat.ltb b a then a
  else match PrimFloat.classify a with
       | NZero => b
       | _ => a
       end.

(* ================================================================== *)
(** * Data model *)

(** The fields of a parsed [URL] object that the analyzers read. *)
Record URL : Type := mkURL {
  protocol : jsstring;
  hostname : jsstring;
  port : jsstring
}.

(** One finding of the AI verdict. *)
Record Finding : Type := mkFinding {
  category : jsstring;
  severity : jsstring;
  description : jsstring
}.

(** The AI verdict, with the fields of the response format that
    buildAnalysisPrompt asks for; [riskLevel] may be any string or be
    absent, and [rawResponse] is set by the fallback only. *)
Record Analysis : Type := mkAnalysis {
  ai_riskScore : float;
  ai_riskLevel : option jsstring;
  ai_summary : jsstring;
  ai_findings : list Finding;
  ai_recommendations : list jsstring;
  ai_confidence : float;
  ai_rawResponse : option jsstring
}.

(** The falsy values of JSON: [null], [false], [0] and the empty string. *)
Inductive Falsy : Type :=
| JsonNull
| JsonFalse
| JsonZero
| JsonEmptyString.

(** What [JSON.parse] returns, as far as the module tells values apart: a
    falsy value, or any other value, read through the properties that the
    fusion engine reads. A truthy value without these properties (an empty
    object, an array, a number, a string) reads as a verdict whose
    riskScore is NaN and whose riskLevel is absent. *)
Inductive Parsed : Type :=
| FalsyValue (v : Falsy)
| Verdict (ai : Analysis).

(** The runtime functions the module calls: [new URL(s)], which throws a
    TypeError ([None]) on a string that is not a URL, and [JSON.parse(s)],
    which throws a SyntaxError ([None]) on a text that is not JSON and
    otherwise gives the value of the text, whatever its shape. *)
Class Runtime : Type := mkRuntime {
  new_URL : jsstring -> option URL;
  JSON_parse : jsstring -> option Parsed
}.

(** The issue messages, one constructor per message of the source. *)
Inductive Issue : Type :=
| IpDirectAccess                  (* direct access by IP address *)
| SuspiciousDomainPattern         (* suspicious domain pattern *)
| ExcessSubdomains (n : Z)        (* too many subdomains (n) *)
| NoHttps                         (* HTTPS not used *)
| NonStandardPort (p : jsstring)  (* non-standard port (p) *)
| PhishingPhrase                  (* suspected phishing phrase found *)
| PasswordField                   (* password input field present *)
| ExternalFormAction              (* form sent to an external server *)
| ManyHiddenFields (n : Z)        (* many hidden fields (n) *)
| SuspiciousScript                (* suspicious script pattern *)
| ContentError (e : Error)        (* content analysis error: message *)
| ManyExternalDomains (n : nat)   (* requests to many external domains (n) *)
| ExternalScripts (n : nat)       (* external scripts loaded (n) *)
| LoadTimeout                     (* page load timeout *)
| NetworkError.                   (* network error *)

(** [{ score, issues }] *)
Record Signal : Type := mkSignal {
  score : Z;
  issues : list Issue
}.

Definition no_signal : Signal := mkSignal 0 [].

(** [issues.push(i); score += pts] *)
Definition push (pts : Z) (i : Issue) (acc : Signal) : Signal :=
  mkSignal (score acc + pts) (issues acc ++ [i]).

(** [return { score: Math.min(score, cap), issues }] *)
Definition capped (cap : Z) (acc : Signal) : Signal :=
  mkSignal (Z.min (score acc) cap) (issues acc).

(** [for (const pattern of patterns) if (pattern.test(text))
    { issues.push(i); score += pts; break; }] *)
Fixpoint scan (patterns : list RegExp) (pts : Z) (i : Issue)
    (text : jsstring) (acc : Signal) : Signal :=
  match patterns with
  | [] => acc
  | pattern :: rest =>
      if test pattern text then push pts i acc
      else scan rest pts i text acc
  end.

(* ================================================================== *)
(** * Constant tables of the analyzer *)

Module RISK_THRESHOLDS.

Definition SAFE : Z := 30.
Definition WARNING : Z := 70.

End RISK_THRESHOLDS.

(** [/a.*b/i] *)
Definition phrase (a b : string) : RegExp :=
  mkRegExp false (Seq (lit_i a) (Seq (Star dot) (lit_i b))) false.

Definition PHISHING_PATTERNS : list RegExp :=
  [ phrase "login" "verify";
    phrase "account" "suspend";
    phrase "urgent" "action";
    phrase "password" "expire";
    phrase "verify" "identity";
    phrase "security" "alert";
    phrase "confirm" "bank";
    phrase "update" "payment" ].

Definition MALICIOUS_SCRIPT_PATTERNS : list RegExp :=
  [ mkRegExp false (Seq (lit "eval") (Seq (Star space) (chr "("))) false;
    mkRegExp false (lit "document.write") false;
    mkRegExp false (Seq (lit "window.location") (Seq (Star space) (chr "="))) false;
    mkRegExp false (Seq (lit "innerHTML") (Seq (Star space) (chr "="))) false;
    mkRegExp false (lit "fromCharCode") false;
    mkRegExp false (Seq (lit "unescape") (Seq (Star space) (chr "("))) false;
    mkRegExp false (Alt (lit "btoa") (lit "atob")) false ].

(** [/\d{4,}/] *)
Definition long_digits : RegExp := mkRegExp false (at_least 4 digit) false.

(** [/-{2,}/] *)
Definition double_hyphen : RegExp := mkRegExp false (at_least 2 (chr "-")) false.

(** [/\.(tk|ml|ga|cf|gq)$/i] *)
Definition free_tld : RegExp :=
  mkRegExp false
    (Seq (chr_i ".")
       (Alt (lit_i "tk") (Alt (lit_i "ml") (Alt (lit_i "ga")
          (Alt (lit_i "cf") (lit_i "gq"))))))
    true.

(** The class of the fourth pattern: U+0430..U+044F and U+0410..U+042F. *)
Definition is_cyrillic (c : N) : bool :=
  in_range 1072 1103 c || in_range 1040 1071 c.

Definition cyrillic : RegExp := mkRegExp false (Chr is_cyrillic) false.

Definition SUSPICIOUS_DOMAIN_PATTERNS : list RegExp :=
  [ long_digits; double_hyphen; free_tld; cyrillic ].

(** [/^\d+\.\d+\.\d+\.\d+$/] *)
Definition ipv4_literal : RegExp :=
  mkRegExp true
    (Seq (plus digit) (Seq (chr ".")
      (Seq (plus digit) (Seq (chr ".")
        (Seq (plus digit) (Seq (chr ".") (plus digit)))))))
    true.

(* ================================================================== *)
(** * The heuristic analyzers *)

Section Analyzers.

Context {runtime : Runtime}.

(** [isValidUrl] *)
Definition isValidUrl (url : jsstring) : bool :=
  match new_URL url with
  | Some parsed => str_in (protocol parsed) [js "http:"; js "https:"]
  | None => false
  end.

(** [analyzeDomain] *)
Definition analyzeDomain (url : jsstring) : completion Signal :=
  match new_URL url with
  | None => Throw InvalidURL
  | Some parsed =>
      let domain := hostname parsed in
      let acc := no_signal in
      let acc :=
        if test ipv4_literal domain then push 25 IpDirectAccess acc else acc in
      let acc :=
        scan SUSPICIOUS_DOMAIN_PATTERNS 15 SuspiciousDomainPattern domain acc in
      let subdomains := (Z.of_nat (length (split 46 domain)) - 2)%Z in
      let acc :=
        if (3 <? subdomains)%Z then push 10 (ExcessSubdomains subdomains) acc
        else acc in
      let acc :=
        if negb (str_eqb (protocol parsed) (js "https:"))
        then push 15 NoHttps acc else acc in
      let acc :=
        if nonempty (port parsed) &&
           negb (str_in (port parsed) [js "80"; js "443"; js ""])
        then push 10 (NonStandardPort (port parsed)) acc else acc in
      Normal (capped 40 acc)
  end.

(** What the three [page.evaluate] calls of analyzeContent give: the
    visible text, the form summary and the concatenated script text; each
    call may reject. *)
Record FormInfo : Type := mkFormInfo {
  formCount : Z;
  hasPasswordField : bool;
  hiddenFieldCount : Z;
  hasExternalAction : bool
}.

Record Page : Type := mkPage {
  innerText : completion jsstring;
  formInfo : completion FormInfo;
  scripts : completion jsstring;
  (* [await page.title().catch(() => '')] and [page.url()], read for the
     AI request: the title is empty when [page.title()] rejects *)
  pageInfo : jsstring * jsstring
}.

(** The [catch] of analyzeContent: the points collected so far are kept. *)
Definition content_error (e : Error) (acc : Signal) : Signal :=
  mkSignal (score acc) (issues acc ++ [ContentError e]).

(** [analyzeContent] *)
Definition analyzeContent (page : Page) : Signal :=
  let acc := no_signal in
  capped 50
    match innerText page with
    | Throw e => content_error e acc
    | Normal pageText =>
        let acc := scan PHISHING_PATTERNS 20 PhishingPhrase pageText acc in
        match formInfo page with
        | Throw e => content_error e acc
        | Normal info =>
            let acc :=
              if hasPasswordField info then push 10 PasswordField acc
              else acc in
            let acc :=
              if hasExternalAction info then push 25 ExternalFormAction acc
              else acc in
            let acc :=
              if (5 <? hiddenFieldCount info)%Z
              then push 10 (ManyHiddenFields (hiddenFieldCount info)) acc
              else acc in
            match scripts page with
            | Throw e => content_error e acc
            | Normal text =>
                scan MALICIOUS_SCRIPT_PATTERNS 15 SuspiciousScript text acc
            end
        end
    end.

(** One record of the observed network requests. *)
Record Request : Type := mkRequest {
  req_url : jsstring;
  resourceType : jsstring;
  originalDomain : jsstring
}.

(** [set.add(x)] on a [Set] kept in insertion order. *)
Definition set_add (x : jsstring) (set : list jsstring) : list jsstring :=
  if str_in x set then set else set ++ [x].

(** The two collections the loop of analyzeNetworkRequests fills. *)
Record Collected : Type := mkCollected {
  hostnames : list jsstring;
  suspiciousRequests : list jsstring
}.

(** The body of the loop: a record whose url does not parse lands in the
    empty [catch]. *)
Definition visit (c : Collected) (req : Request) : Collected :=
  match new_URL (req_url req) with
  | None => c
  | Some url =>
      let hosts := set_add (hostname url) (hostnames c) in
      if str_eqb (resourceType req) (js "script") &&
         negb (str_eqb (hostname url) (originalDomain req))
      then mkCollected hosts (suspiciousRequests c ++ [hostname url])
      else mkCollected hosts (suspiciousRequests c)
  end.

Record NetworkSignal : Type := mkNetworkSignal {
  net_score : Z;
  net_issues : list Issue;
  externalDomains : list jsstring;
  requestCount : nat
}.

(** [analyzeNetworkRequests] *)
Definition analyzeNetworkRequests (requests : list Request) : NetworkSignal :=
  let c := fold_left visit requests (mkCollected [] []) in
  let acc := no_signal in
  let acc :=
    if (10 <? length (hostnames c))%nat
    then push 10 (ManyExternalDomains (length (hostnames c))) acc else acc in
  let acc :=
    if (0 <? length (suspiciousRequests c))%nat
    then push 10 (ExternalScripts (length (suspiciousRequests c))) acc
    else acc in
  mkNetworkSignal (Z.min (score acc) 20) (issues acc)
    (hostnames c) (length requests).

(** [determineRiskLevel] *)
Definition determineRiskLevel (score : Z) : jsstring :=
  if (score <=? RISK_THRESHOLDS.SAFE)%Z then js "safe"
  else if (score <=? RISK_THRESHOLDS.WARNING)%Z then js "warning"
  else js "danger".

(** The navigation part of analyzeUrl: the message of the error that
    [page.goto] rejected with, if it did. An empty message is falsy. *)
Record NavigationSignal : Type := mkNavigationSignal {
  nav_score : Z;
  nav_issues : list Issue;
  nav_error : option jsstring
}.

Definition classifyNavigation (navigationError : option jsstring)
    : NavigationSignal :=
  match navigationError with
  | Some message =>
      if nonempty message then
        if includes (js "timeout") message
        then mkNavigationSignal 10 [LoadTimeout] navigationError
        else if includes (js "net::ERR_") message
        then mkNavigationSignal 5 [NetworkError] navigationError
        else mkNavigationSignal 0 [] navigationError
      else mkNavigationSignal 0 [] navigationError
  | None => mkNavigationSignal 0 [] navigationError
  end.

(* ---------------------------------------------------------------- *)
(** ** ai-analyzer.js *)

Definition MODEL_NAME : jsstring := js "google/gemini-3-flash-preview".

(** The two literals of the fallback that are not ASCII, as code units:
    the description (the AI analysis result cannot be parsed) and the
    recommendation (a manual check is needed). *)
Definition unparsable_description : jsstring :=
  [65; 73; 32; 48516; 49437; 32; 44208; 44284; 47484; 32; 54028; 49905;
   54624; 32; 49688; 32; 50630; 49845; 45768; 45796; 46]%N.

Definition manual_check : jsstring :=
  [49688; 46041; 51004; 47196; 32; 54869; 51064; 51060; 32; 54596; 50836;
   54633; 45768; 45796; 46]%N.

(** The code fence that opens a JSON block, and the fence that closes it. *)
Definition fence : jsstring := [96; 96; 96]%N.
Definition json_fence : jsstring := fence ++ js "json".

(** The lazy group of the first pattern followed by its closing part: the
    shortest text after which an optional newline and the fence stand. *)
Fixpoint lazy_group (s : jsstring) : option (jsstring * jsstring) :=
  if startsWith (10%N :: fence) s then Some ([], 10%N :: fence)
  else if startsWith fence s then Some ([], fence)
  else match s with
       | [] => None
       | c :: s' =>
           match lazy_group s' with
           | Some (group, closing) => Some (c :: group, closing)
           | None => None
           end
       end.

(** The first pattern tried at the start of [s]: the match and its group.
    The optional newline after the opening fence is greedy, and is given
    back when the rest does not match. *)
Definition fenced_at (s : jsstring) : option (jsstring * jsstring) :=
  if startsWith json_fence s then
    let after := skipn (length json_fence) s in
    let without_newline :=
      match lazy_group after with
      | Some (group, closing) => Some (json_fence ++ group ++ closing, group)
      | None => None
      end in
    match after with
    | 10%N :: after' =>
        match lazy_group after' with
        | Some (group, closing) =>
            Some (json_fence ++ [10%N] ++ group ++ closing, group)
        | None => without_newline
        end
    | _ => without_newline
    end
  else None.

(** [content.match] of the fenced pattern: the leftmost start that matches. *)
Fixpoint match_fenced (s : jsstring) : option (jsstring * jsstring) :=
  match fenced_at s with
  | Some m => Some m
  | None =>
      match s with
      | [] => None
      | _ :: s' => match_fenced s'
      end
  end.

(** The longest prefix of [s] that ends with the unit [c]. *)
Fixpoint upto_last (c : N) (s : jsstring) : option jsstring :=
  match s with
  | [] => None
  | x :: s' =>
      match upto_last c s' with
      | Some p => Some (x :: p)
      | None => if N.eqb x c then Some [x] else None
      end
  end.

(** [content.match] of the brace pattern: from the leftmost opening brace
    that has a closing brace after it to the last closing brace. *)
Fixpoint match_braces (s : jsstring) : option jsstring :=
  match s with
  | [] => None
  | x :: s' =>
      if N.eqb x 123 then
        match upto_last 125 s' with
        | Some p => Some (x :: p)
        | None => match_braces s'
        end
      else match_braces s'
  end.

(** The text handed to [JSON.parse]. *)
Definition jsonStr (content : jsstring) : jsstring :=
  match match_fenced content with
  | Some (whole, group) => if nonempty group then group else whole
  | None =>
      match match_braces content with
      | Some whole => whole
      | None => content
      end
  end.

(** The object built in the [catch] of parseAIResponse. *)
Definition fallback (content : jsstring) : Analysis :=
  {| ai_riskScore := 50;
     ai_riskLevel := Some (js "warning");
     ai_summary := substring0 200 content;
     ai_findings :=
       [ mkFinding (js "suspicious") (js "medium") unparsable_description ];
     ai_recommendations := [ manual_check ];
     ai_confidence := 30;
     ai_rawResponse := Some content |}.

(** [parseAIResponse]: what [JSON.parse] returns is returned as it is,
    and the fallback is built only when [JSON.parse] throws. *)
Definition parseAIResponse (content : jsstring) : Parsed :=
  match JSON_parse (jsonStr content) with
  | Some parsed => parsed
  | None => Verdict (fallback content)
  end.

(** Why an AI result is not enabled. *)
Inductive Reason : Type :=
| KeyNotSet.                       (* the API key is not set *)

Inductive Failure : Type :=
| ApiStatus (status : Z) (errorText : jsstring)  (* API error: status - text *)
| EmptyAnswer                      (* the AI response is empty *)
| Failed (message : jsstring).     (* the message of any other error *)

(** What analyzeWithAI returns; [analysis] is absent from a result that is
    not enabled, and is whatever parseAIResponse returned in one that is. *)
Record AiResult : Type := mkAiResult {
  enabled : bool;
  model : option jsstring;
  analysis : option Parsed;
  usage : option jsstring;
  reason : option Reason;
  error : option Failure
}.

(** The service as analyzeWithAI meets it: the key of the environment and
    what the request comes back with (a rejection of [fetch] or of the
    body's decoding, a status that is not ok, or the content of the first
    choice with the usage record). *)
Inductive Answer : Type :=
| Rejected (message : jsstring)
| Status (status : Z) (errorText : jsstring)
| Body (content : option jsstring) (usage : option jsstring).

Record AiService : Type := mkAiService {
  apiKey : option jsstring;
  answer : Answer
}.

Definition not_enabled (r : option Reason) (e : option Failure) : AiResult :=
  mkAiResult false None None None r e.

(** [analyzeWithAI]; the request it sends has no part in the result, which
    is decided by what the service answers. *)
Definition analyzeWithAI (service : AiService) : AiResult :=
  match apiKey service with
  | None => not_enabled (Some KeyNotSet) None
  | Some key =>
      if negb (nonempty key) then not_enabled (Some KeyNotSet) None
      else
        match answer service with
        | Rejected message => not_enabled None (Some (Failed message))
        | Status status errorText =>
            not_enabled None (Some (ApiStatus status errorText))
        | Body None _ => not_enabled None (Some EmptyAnswer)
        | Body (Some content) usage =>
            if negb (nonempty content)
            then not_enabled None (Some EmptyAnswer)
            else mkAiResult true (Some MODEL_NAME)
                   (Some (parseAIResponse content)) usage None None
        end
  end.

(** *** Property lookup on the object literal [riskLevels] *)

(** What a lookup gives: nothing, a number that is an own property, or a
    member that every object inherits from [Object.prototype]. *)
Inductive value : Type :=
| VUndefined
| VNumber (x : float)
| VInherited (name : jsstring).

(** The properties of [Object.prototype]. *)
Definition Object_prototype : list jsstring :=
  [ js "constructor"; js "hasOwnProperty"; js "isPrototypeOf";
    js "propertyIsEnumerable"; js "toLocaleString"; js "toString";
    js "valueOf"; js "__proto__"; js "__defineGetter__";
    js "__defineSetter__"; js "__lookupGetter__"; js "__lookupSetter__" ].

(** [{ safe: 0, warning: 1, danger: 2 }] *)
Definition riskLevels : list (jsstring * float) :=
  [ (js "safe", 0%float); (js "warning", 1%float); (js "danger", 2%float) ].

Fixpoint own_property (o : list (jsstring * float)) (key : jsstring)
    : option float :=
  match o with
  | [] => None
  | (k, x) :: o' => if str_eqb k key then Some x else own_property o' key
  end.

(** [o[key]] *)
Definition get (o : list (jsstring * float)) (key : jsstring) : value :=
  match own_property o key with
  | Some x => VNumber x
  | None => if str_in key Object_prototype then VInherited key else VUndefined
  end.

(** The property key of a level that may be absent. *)
Definition property_key (level : option jsstring) : jsstring :=
  match level with
  | Some s => s
  | None => js "undefined"
  end.

Definition truthy (v : value) : bool :=
  match v with
  | VUndefined => false
  | VNumber x => negb (is_nan x) && negb (PrimFloat.eqb x 0)
  | VInherited _ => true
  end.

(** [v || 0] *)
Definition or_zero (v : value) : value :=
  if truthy v then v else VNumber 0.

(** [ToNumber]: a function or an object of [Object.prototype] has no
    numeric value. *)
Definition ToNumber (v : value) : float :=
  match v with
  | VNumber x => x
  | VUndefined => nan
  | VInherited _ => nan
  end.

(** [v === x] for a number [x] *)
Definition strict_equals (v : value) (x : float) : bool :=
  match v with
  | VNumber y => PrimFloat.eqb y x
  | _ => false
  end.

(** [Object.keys(o)] *)
Definition Object_keys (o : list (jsstring * float)) : list jsstring :=
  map fst o.

(** *** Results *)

Record Details : Type := mkDetails {
  domain : Signal;
  content : Signal;
  network : NetworkSignal;
  navigation : NavigationSignal
}.

(** The [aiAnalysis] of a merged result. *)
Record AiSummary : Type := mkAiSummary {
  sum_enabled : bool;
  sum_model : option jsstring;
  sum_score : float;
  sum_level : option jsstring;
  sum_summary : jsstring;
  sum_findings : list Finding;
  sum_recommendations : list jsstring;
  sum_confidence : float
}.

(** The [aiAnalysis] field: the AI result as it came when it did not take
    part, the projection of the verdict when it did. *)
Inductive AiAnalysis : Type :=
| NotMerged (aiResult : AiResult)
| Merged (summary : AiSummary).

(** The result of an analysis: the heuristic result, and the final one. *)
Record AnalysisResult : Type := mkAnalysisResult {
  url : jsstring;
  riskScore : float;
  riskLevel : option jsstring;
  screenshot : option jsstring;
  details : Details;
  analysisTime : Z;
  analyzedAt : jsstring;
  aiAnalysis : option AiAnalysis
}.

(** [{ ...r, riskScore, riskLevel, aiAnalysis }] *)
Definition with_fusion (r : AnalysisResult) (s : float)
    (l : option jsstring) (a : AiAnalysis) : AnalysisResult :=
  mkAnalysisResult (url r) s l (screenshot r) (details r) (analysisTime r)
    (analyzedAt r) (Some a).

(** The [analysis] of an AI result when it is truthy:
    [!aiResult.analysis] holds of an absent and of a falsy one. *)
Definition truthy_analysis (aiResult : AiResult) : option Analysis :=
  match analysis aiResult with
  | Some (Verdict ai) => Some ai
  | Some (FalsyValue _) => None
  | None => None
  end.

(** [mergeAnalysisResults] *)
Definition mergeAnalysisResults (heuristicResult : AnalysisResult)
    (aiResult : AiResult) : AnalysisResult :=
  match (if enabled aiResult then truthy_analysis aiResult else None) with
  | None =>
      with_fusion heuristicResult (riskScore heuristicResult)
        (riskLevel heuristicResult) (NotMerged aiResult)
  | Some ai =>
      let combinedScore :=
        Math_round
          (riskScore heuristicResult * 0.4 + ai_riskScore ai * 0.6)%float in
      let heuristicLevel :=
        or_zero (get riskLevels (property_key (riskLevel heuristicResult))) in
      let aiLevel :=
        or_zero (get riskLevels (property_key (ai_riskLevel ai))) in
      let finalLevel := Math_max (ToNumber heuristicLevel) (ToNumber aiLevel) in
      let combinedRiskLevel :=
        find (fun key => strict_equals (get riskLevels key) finalLevel)
          (Object_keys riskLevels) in
      with_fusion heuristicResult combinedScore combinedRiskLevel
        (Merged
           (mkAiSummary true (model aiResult) (ai_riskScore ai)
              (ai_riskLevel ai) (ai_summary ai) (ai_findings ai)
              (ai_recommendations ai) (ai_confidence ai)))
  end.

(* ---------------------------------------------------------------- *)
(** ** analyzeUrl and quickCheck *)

Record Options : Type := mkOptions {
  timeout : option float;
  takeScreenshot : option bool;
  useAI : option bool
}.

(** [x !== false] for an option that may be absent. *)
Definition not_false (x : option bool) : bool :=
  match x with
  | Some false => false
  | _ => true
  end.

(** What one run of the sandbox gives analyzeUrl: the page (a rejection of
    the launch or of the page set-up propagates), the message of the
    navigation error if [page.goto] rejected, the url and resource type of
    each observed request, the screenshot when it could be taken, the
    elapsed time and the time stamp, the AI service, and the error that
    [browser.close()] rejects with in the [finally], if the browser was
    launched and its closing rejects. *)
Record Sandbox : Type := mkSandbox {
  launched : completion Page;
  navigationError : option jsstring;
  observed : list (jsstring * jsstring);
  captured : option jsstring;
  elapsed : Z;
  timestamp : jsstring;
  service : AiService;
  closing : option Error
}.

(** The requests that the handler of [page.on('request')] records. *)
Definition recorded (w : Sandbox) (originalDomain : jsstring) : list Request :=
  map (fun r => mkRequest (fst r) (snd r) originalDomain) (observed w).

(** The analysis part of analyzeUrl, from the collection of the requests
    to the object [heuristicResult], on the page that was opened. *)
Definition heuristicResult (w : Sandbox) (page : Page) (url : jsstring)
    (options : Options) : completion AnalysisResult :=
  let* originalDomain :=
    match new_URL url with
    | Some parsed => Normal (hostname parsed)
    | None => Throw InvalidURL
    end in
  let networkRequests := recorded w originalDomain in
  let* domainAnalysis := analyzeDomain url in
  let contentAnalysis := analyzeContent page in
  let networkAnalysis := analyzeNetworkRequests networkRequests in
  let navigationAnalysis := classifyNavigation (navigationError w) in
  let totalScore :=
    Z.min
      (score domainAnalysis + score contentAnalysis +
       net_score networkAnalysis + nav_score navigationAnalysis)
      100 in
  let screenshot :=
    if not_false (takeScreenshot options) then captured w else None in
  Normal
    (mkAnalysisResult url (num_of_Z totalScore)
       (Some (determineRiskLevel totalScore)) screenshot
       (mkDetails domainAnalysis contentAnalysis networkAnalysis
          navigationAnalysis)
       (elapsed w) (timestamp w) None).

(** The last part of analyzeUrl: the AI analysis, when it is asked for.
    The request is built from the url, the screenshot, [pageInfo page] and
    the heuristic result, none of which can throw here, and analyzeWithAI
    catches what its own request throws: the [catch] of this step is never
    entered. *)
Definition withAI (w : Sandbox) (page : Page) (options : Options)
    (heuristicResult : AnalysisResult) : AnalysisResult :=
  if not_false (useAI options) then
    let aiResult := analyzeWithAI (service w) in
    if enabled aiResult
    then mergeAnalysisResults heuristicResult aiResult
    else heuristicResult
  else heuristicResult.

(** [try { ... } finally { if (browser) await browser.close(); }]: a
    rejection of the closing replaces what the block returned or threw. *)
Definition finally {A} (block : completion A) (closing : option Error)
    : completion A :=
  match closing with
  | Some e => Throw e
  | None => block
  end.

(** [analyzeUrl] *)
Definition analyzeUrl (w : Sandbox) (url : jsstring) (options : Options)
    : completion AnalysisResult :=
  if negb (isValidUrl url) then Throw InvalidUrlFormat
  else
    finally
      (let* page := launched w in
       let* heuristicResult := heuristicResult w page url options in
       Normal (withAI w page options heuristicResult))
      (closing w).

(** The three messages of quickCheck. *)
Inductive QuickMessage : Type :=
| InvalidFormat     (* the URL format is not valid *)
| RiskFound         (* the domain analysis found risk factors *)
| Passed.           (* the domain analysis passed *)

Record QuickCheckResult : Type := mkQuickCheckResult {
  qc_url : jsstring;
  qc_valid : bool;
  qc_riskScore : Z;
  qc_riskLevel : jsstring;
  qc_issues : option (list Issue);
  qc_message : QuickMessage
}.

(** [quickCheck] *)
Definition quickCheck (url : jsstring) : completion QuickCheckResult :=
  if negb (isValidUrl url) then
    Normal (mkQuickCheckResult url false 0 (js "unknown") None InvalidFormat)
  else
    let* domainAnalysis := analyzeDomain url in
    let riskScore := score domainAnalysis in
    Normal
      (mkQuickCheckResult url true riskScore (determineRiskLevel riskScore)
         (Some (issues domainAnalysis))
         (if (0 <? length (issues domainAnalysis))%nat then RiskFound
          else Passed)).

(* ---------------------------------------------------------------- *)
(** ** server.js: POST /api/batch-check *)

Record BatchSummary : Type := mkBatchSummary {
  safe : nat;
  warning : nat;
  danger : nat;
  invalid : nat
}.

Record BatchData : Type := mkBatchData {
  total : nat;
  results : list QuickCheckResult;
  summary : BatchSummary
}.

(** [results.filter(r => r.riskLevel === level).length] *)
Definition count_level (level : string) (results : list QuickCheckResult) : nat :=
  length (filter (fun r => str_eqb (qc_riskLevel r) (js level)) results).

(** The [summary] object of the route. *)
Definition tally (results : list QuickCheckResult) : BatchSummary :=
  mkBatchSummary
    (count_level "safe" results)
    (count_level "warning" results)
    (count_level "danger" results)
    (length (filter (fun r => negb (qc_valid r)) results)).

(** The [try] block of the route: the checks and their tally. *)
Definition batchCheck (urls : list jsstring) : completion BatchData :=
  let* results := mapM quickCheck urls in
  Normal (mkBatchData (length urls) results (tally results)).

(** What the route answers: the data with status 200, or an error. *)
Inductive Response : Type :=
| Success (data : BatchData)
| ErrorResponse (status : Z) (code : jsstring).

(** The handler of the route on a body whose [urls] are strings ([None]
    when the body has no array of urls). The route on any body, with
    entries of any type and behind the body parser, the limiter and the
    error handler, is [serve_batch] below, which is proved to agree with
    this one on such bodies. *)
Definition post_batch_check (urls : option (list jsstring)) : Response :=
  match urls with
  | None => ErrorResponse 400 (js "MISSING_URLS")
  | Some urls =>
      if (10 <? length urls)%nat then ErrorResponse 400 (js "TOO_MANY_URLS")
      else
        match batchCheck urls with
        | Normal data => Success data
        | Throw _ => ErrorResponse 500 (js "BATCH_CHECK_ERROR")
        end
  end.

(** The result of quickCheck, which is shown below never to throw. *)
Definition quickCheck_result (url : jsstring) : QuickCheckResult :=
  match quickCheck url with
  | Normal q => q
  | Throw _ => mkQuickCheckResult url false 0 (js "unknown") None InvalidFormat
  end.

End Analyzers.

(* ================================================================== *)
(** * The rules in the words of the specification *)

Module Spec.

(** The three risk levels and their order, safe < warning < danger. *)
Inductive Level : Type :=
| Safe
| Warning
| Danger.

Definition level_name (l : Level) : jsstring :=
  match l with
  | Safe => js "safe"
  | Warning => js "warning"
  | Danger => js "danger"
  end.

Definition rank (l : Level) : nat :=
  match l with
  | Safe => 0
  | Warning => 1
  | Danger => 2
  end.

Definition more_severe (a b : Level) : Level :=
  if (rank a <? rank b)%nat then b else a.

(** The severity that a level string stands for when it is looked up as a
    key: a string that is not the name of a level counts as safe. *)
Definition severity (level : option jsstring) : Level :=
  match level with
  | Some s =>
      if str_eqb s (js "warning") then Warning
      else if str_eqb s (js "danger") then Danger
      else Safe
  | None => Safe
  end.


(** A non-empty run of decimal digits. *)
Definition digits (s : jsstring) : Prop :=
  s <> [] /\ forallb is_digit s = true.

(** A bare IPv4 literal: four runs of digits separated by dots. *)
Definition DottedQuad (host : jsstring) : Prop :=
  exists a b c d,
    digits a /\ digits b /\ digits c /\ digits d /\
    host = a ++ js "." ++ b ++ js "." ++ c ++ js "." ++ d.

(** [n] or more consecutive units of the class [p]. *)
Definition HasRun (p : N -> bool) (n : nat) (host : jsstring) : Prop :=
  exists pre run post,
    host = pre ++ run ++ post /\ (n <= length run)%nat /\
    forallb p run = true.

Definition is_hyphen (c : N) : bool := N.eqb 45 c.

Definition to_lower (c : N) : N :=
  if in_range 65 90 c then (c + 32)%N else c.

Definition FREE_TLDS : list jsstring :=
  [ js "tk"; js "ml"; js "ga"; js "cf"; js "gq" ].

(** The host ends with a dot and a free top-level domain, in any case. *)
Definition EndsWithFreeTld (host : jsstring) : Prop :=
  exists pre tld,
    host = pre ++ js "." ++ tld /\ In (map to_lower tld) FREE_TLDS.

(** The host holds a Cyrillic letter, U+0410 to U+044F. *)
Definition HasCyrillic (host : jsstring) : Prop :=
  exists c, In c host /\ (1040 <= c <= 1103)%N.

Definition SuspiciousHost (host : jsstring) : Prop :=
  HasRun is_digit 4 host \/ HasRun is_hyphen 2 host \/
  EndsWithFreeTld host \/ HasCyrillic host.

(** The number of labels of a host: one more than its dots. *)
Definition labels (host : jsstring) : Z :=
  1 + Z.of_nat (length (filter (N.eqb 46) host)).

(** A rule awards its points when it is triggered, and nothing otherwise. *)
Inductive awards (P : Prop) (n : Z) : Z -> Prop :=
| awarded : P -> awards P n n
| withheld : ~ P -> awards P n 0.

(** The score of the Domain Analyzer: the sum of the points of the
    triggered rules, capped at 40. *)
Definition DomainScore (u : URL) (total : Z) : Prop :=
  exists ip pattern depth scheme explicit_port,
    awards (DottedQuad (hostname u)) 25 ip /\
    awards (SuspiciousHost (hostname u)) 15 pattern /\
    awards (3 < labels (hostname u) - 2)%Z 10 depth /\
    awards (protocol u <> js "https:") 15 scheme /\
    awards (port u <> [] /\ port u <> js "80" /\ port u <> js "443")
      10 explicit_port /\
    total = Z.min (ip + pattern + depth + scheme + explicit_port) 40.

End Spec.

(** The points of a rule whose trigger has been decided. *)
Definition pts (triggered : bool) (n : Z) : Z := if triggered then n else 0%Z.

(** The triggers of the five rules of analyzeDomain, as the code tests
    them. *)
Definition ip_rule (u : URL) : bool := test ipv4_literal (hostname u).
Definition pattern_rule (u : URL) : bool :=
  existsb (fun pattern => test pattern (hostname u)) SUSPICIOUS_DOMAIN_PATTERNS.
Definition depth_rule (u : URL) : bool :=
  (3 <? Z.of_nat (length (split 46 (hostname u))) - 2)%Z.
Definition scheme_rule (u : URL) : bool :=
  negb (str_eqb (protocol u) (js "https:")).
Definition port_rule (u : URL) : bool :=
  nonempty (port u) && negb (str_in (port u) [js "80"; js "443"; js ""]).

(** The integer nearest to 0.4 h + 0.6 a, a tie going up. *)
Definition nearest_blend (h a : Z) : Z := ((4 * h + 6 * a + 5) / 10)%Z.

(** The scores 0, 1, ..., 100. *)
Definition score_range : list Z := map Z.of_nat (seq 0 101).

(** The fused score of the code, on two integer scores. *)
Definition blend (h a : Z) : float :=
  Math_round (num_of_Z h * 0.4 + num_of_Z a * 0.6)%float.

(** Whether the code's fused score is the nearest integer on every pair of
    scores of the range. *)
Definition blend_table_agrees : bool :=
  forallb
    (fun h =>
       forallb
         (fun a => PrimFloat.Leibniz.eqb (blend h a) (num_of_Z (nearest_blend h a)))
         score_range)
    score_range.

(* ================================================================== *)
(** * A runtime for the examples *)

Module Sample.

(** The units of a plain host name: lower-case letters, digits, the hyphen
    and the dot. *)
Definition host_unit (c : N) : bool :=
  in_range 97 122 c || is_digit c || N.eqb c 45 || N.eqb c 46.

(** The longest prefix whose units satisfy [p], and the rest. *)
Fixpoint span (p : N -> bool) (s : jsstring) : jsstring * jsstring :=
  match s with
  | [] => ([], [])
  | c :: s' =>
      if p c then let (a, b) := span p s' in (c :: a, b) else ([], s)
  end.

(** [new URL] on the absolute URLs of the plain shape
    scheme://host[:port][/...], with a lower-case scheme and host; the
    default port of http and https is dropped, as the URL standard does.
    Any other string is refused. *)
Definition new_URL (s : jsstring) : option URL :=
  match find_from (js "://") s with
  | None => None
  | Some (scheme, rest) =>
      if nonempty scheme && forallb (in_range 97 122) scheme then
        let (host, rest1) := span host_unit (skipn 3 rest) in
        let (port, rest2) :=
          match rest1 with
          | 58%N :: t => span is_digit t
          | _ => ([], rest1)
          end in
        if nonempty host &&
           match rest2 with
           | [] => true
           | c :: _ => N.eqb c 47
           end
        then
          let default :=
            (str_eqb scheme (js "http") && str_eqb port (js "80")) ||
            (str_eqb scheme (js "https") && str_eqb port (js "443")) in
          Some (mkURL (scheme ++ js ":") host (if default then [] else port))
        else None
      else None
  end.

(** [s] without the prefix [p], when it starts with it. *)
Definition strip_prefix (p s : jsstring) : option jsstring :=
  if startsWith p s then Some (skipn (length p) s) else None.

(** The value of a run of decimal digits. *)
Definition digits_value (ds : jsstring) : Z :=
  fold_left (fun acc d => (10 * acc + (Z.of_N d - 48))%Z) ds 0%Z.

(** A JSON integer has no leading zero. *)
Definition json_integer (ds : jsstring) : bool :=
  match ds with
  | [] => false
  | [_] => true
  | d :: _ => negb (N.eqb d 48)
  end.

Definition quoted (name : string) : jsstring := [34%N] ++ js name ++ [34%N].

(** A value with none of the properties that the fusion engine reads:
    every one of them reads as undefined. *)
Definition no_properties : Analysis := mkAnalysis nan None [] [] [] nan None.

(** [JSON.parse] on the texts [null] and [{}] and on the texts of one
    shape, an object with an integer riskScore below 2^53 and a riskLevel
    of lower-case letters and nothing else, written without blanks; the
    fields that such a text leaves out are read as empty. Any other text
    is refused with a SyntaxError, which is what [JSON.parse] does on the
    texts of the examples that are not of these shapes. *)
Definition JSON_parse (s : jsstring) : option Parsed :=
  if str_eqb s (js "null") then Some (FalsyValue JsonNull)
  else if str_eqb s (js "{}") then Some (Verdict no_properties)
  else
  match strip_prefix (js "{" ++ quoted "riskScore" ++ js ":") s with
  | None => None
  | Some s1 =>
      let (ds, s2) := span is_digit s1 in
      if json_integer ds && (length ds <=? 15)%nat then
        match strip_prefix (js "," ++ quoted "riskLevel" ++ js ":" ++ [34%N]) s2 with
        | None => None
        | Some s3 =>
            let (level, s4) := span (in_range 97 122) s3 in
            if str_eqb s4 ([34%N] ++ js "}")
            then Some (Verdict
                         (mkAnalysis (num_of_Z (digits_value ds)) (Some level)
                            [] [] [] nan None))
            else None
        end
      else None
  end.

Definition runtime : Runtime := mkRuntime new_URL JSON_parse.

(** A page with a short text, no form and no script. *)
Definition page : Page :=
  mkPage (Normal (js "Welcome")) (Normal (mkFormInfo 0 false 0 false))
    (Normal []) (js "Example", js "https://example.com/").

(** A run of the sandbox in which the page loads, and an AI service whose
    API key is not set. *)
Definition sandbox : Sandbox :=
  mkSandbox (Normal page) None
    [ (js "https://example.com/", js "document") ] None 1200
    (js "2025-01-01T00:00:00.000Z")
    (mkAiService None (Rejected [])) None.

Definition options : Options := mkOptions None None None.

(** An address with a bare IPv4 host and no https, and the heuristic
    result of its analysis in this run. *)
Definition address : jsstring := js "http://192.0.2.10/".

Definition heuristic_of_address : AnalysisResult :=
  match @heuristicResult runtime sandbox page address options with
  | Normal h => h
  | Throw _ =>
      mkAnalysisResult address 0 None None
        (mkDetails no_signal no_signal (mkNetworkSignal 0 [] [] 0)
           (mkNavigationSignal 0 [] None))
        0 [] None
  end.

(** A batch of three strings, the second of which is not a URL. *)
Definition batch : list jsstring :=
  [ js "https://example.com/"; js "not a url"; address ].

(** Two observed requests: a script from another host, and a record whose
    url does not parse. *)
Definition script_request : Request :=
  mkRequest (js "https://cdn.example.net/app.js") (js "script")
    (js "example.com").

Definition broken_request : Request :=
  mkRequest (js "not a url") (js "script") (js "example.com").

(** An answer of the AI that is no JSON text, an answer with a fenced JSON
    object, and an answer whose object is cut short. *)
Definition refusal : jsstring := js "I cannot help with that request.".

Definition fenced_answer : jsstring :=
  js "Here is my analysis:" ++ [10%N] ++ json_fence ++ [10%N] ++
  js "{" ++ quoted "riskScore" ++ js ":90," ++ quoted "riskLevel" ++ js ":" ++
  quoted "danger" ++ js "}" ++ [10%N] ++ fence.

Definition truncated_answer : jsstring :=
  js "{" ++ quoted "riskScore" ++ js ":90," ++ quoted "riskLevel" ++ js ":" ++
  [34%N] ++ js "dang".

(** The run of the sandbox again, with an API key and an AI service that
    gives the fenced answer. *)
Definition sandbox_with_ai : Sandbox :=
  mkSandbox (Normal page) None
    [ (js "https://example.com/", js "document") ] None 1200
    (js "2025-01-01T00:00:00.000Z")
    (mkAiService (Some (js "sk-key")) (Body (Some fenced_answer) None)) None.

(** The same run with an AI service that gives a chosen answer. *)
Definition sandbox_answering (answer : jsstring) : Sandbox :=
  mkSandbox (Normal page) None
    [ (js "https://example.com/", js "document") ] None 1200
    (js "2025-01-01T00:00:00.000Z")
    (mkAiService (Some (js "sk-key")) (Body (Some answer) None)) None.

(** A run in which every analyzer finds something: the address with the
    bare IPv4 host, a page that asks for a login with a password field in
    a form that posts to another host, a script from another host among
    the requests, and a navigation that timed out. *)
Definition busy_page : Page :=
  mkPage (Normal (js "Please LOGIN here to verify your account"))
    (Normal (mkFormInfo 1 true 0 true)) (Normal [])
    (js "Sign in", js "http://192.0.2.10/").

Definition busy_sandbox : Sandbox :=
  mkSandbox (Normal busy_page)
    (Some (js "Navigation timeout of 30000 ms exceeded"))
    [ (js "http://192.0.2.10/", js "document");
      (js "https://cdn.example.net/app.js", js "script") ]
    None 30500 (js "2025-01-01T00:00:00.000Z")
    (mkAiService None (Rejected [])) None.

Definition busy_result : AnalysisResult :=
  match @heuristicResult runtime busy_sandbox busy_page address options with
  | Normal h => h
  | Throw _ =>
      mkAnalysisResult address 0 None None
        (mkDetails no_signal no_signal (mkNetworkSignal 0 [] [] 0)
           (mkNavigationSignal 0 [] None))
        0 [] None
  end.

(** A heuristic result of score 20, safe, and an AI verdict of score 90,
    danger. *)
Definition heuristic : AnalysisResult :=
  mkAnalysisResult (js "https://example.com/") 20 (Some (js "safe")) None
    (mkDetails (mkSignal 0 []) (mkSignal 20 [PhishingPhrase])
       (mkNetworkSignal 0 [] [] 0) (mkNavigationSignal 0 [] None))
    1200 (js "2025-01-01T00:00:00.000Z") None.

Definition verdict : Analysis :=
  mkAnalysis 90 (Some (js "danger")) (js "phishing page") [] [] 80 None.

Definition ai_result : AiResult :=
  mkAiResult true (Some MODEL_NAME) (Some (Verdict verdict)) None None None.

(** A heuristic result of level danger, and an AI verdict whose level is a
    string that names a member of [Object.prototype]. *)
Definition alarming : AnalysisResult :=
  mkAnalysisResult (js "http://192.0.2.10/") 80 (Some (js "danger")) None
    (mkDetails (mkSignal 40 [IpDirectAccess; NoHttps]) (mkSignal 40 [])
       (mkNetworkSignal 0 [] [] 0) (mkNavigationSignal 0 [] None))
    1200 (js "2025-01-01T00:00:00.000Z") None.

Definition odd_verdict : Analysis :=
  mkAnalysis 10 (Some (js "constructor")) (js "looks fine") [] [] 80 None.

Definition odd_ai_result : AiResult :=
  mkAiResult true (Some MODEL_NAME) (Some (Verdict odd_verdict)) None None None.

End Sample.

(* ================================================================== *)
(** * server.js: the three POST routes *)

(** ** The values of a request body *)

Set Warnings "-register-all".

(** A JSON value, as [express.json()] leaves it in [req.body]. *)
Inductive Json : Type :=
| JNull
| JBool (b : bool)
| JNumber (x : float)
| JString (s : jsstring)
| JArray (items : list Json)
| JObject (members : list (jsstring * Json)).

(** [ToBoolean] *)
Definition ToBoolean (v : Json) : bool :=
  match v with
  | JNull => false
  | JBool b => b
  | JNumber x => negb (is_nan x) && negb (PrimFloat.eqb x 0)
  | JString s => nonempty s
  | JArray _ => true
  | JObject _ => true
  end.

(** The own property [key] of an object, given as the list of its
    members in the order of the text: a later member of the same name
    wins, as in [JSON.parse]. *)
Fixpoint own_member (members : list (jsstring * Json)) (key : jsstring)
    : option Json :=
  match members with
  | [] => None
  | (k, v) :: members' =>
      match own_member members' key with
      | Some later => Some later
      | None => if str_eqb k key then Some v else None
      end
  end.

(** [v.key] for the keys that the routes read (url, options, urls, timeout,
    takeScreenshot): an object gives its own property, and every other
    value, like an object without the property, gives undefined, since
    neither the wrappers of the primitives nor [Array.prototype] nor
    [Object.prototype] have a property of one of these names. *)
Definition property (key : string) (v : Json) : option Json :=
  match v with
  | JObject members => own_member members (js key)
  | _ => None
  end.

(** The conversions of the runtime between numbers and strings:
    [Number::toString] and [StringToNumber]. *)
Class Conversions : Type := mkConversions {
  Number_toString : float -> jsstring;
  StringToNumber : jsstring -> float
}.

Section Coercions.

Context {conversions : Conversions}.

(** [ToString]: an array is joined with commas, a null element giving the
    empty string, and an object is "[object Object]". *)
Fixpoint ToString (v : Json) : jsstring :=
  match v with
  | JNull => js "null"
  | JBool b => if b then js "true" else js "false"
  | JNumber x => Number_toString x
  | JString s => s
  | JArray items =>
      (fix join (l : list Json) : jsstring :=
         match l with
         | [] => []
         | x :: l' =>
             let element :=
               match x with
               | JNull => []
               | _ => ToString x
               end in
             match l' with
             | [] => element
             | _ :: _ => element ++ js "," ++ join l'
             end
         end) items
  | JObject _ => js "[object Object]"
  end.

(** [ToNumber] *)
Definition ToNumber_json (v : Json) : float :=
  match v with
  | JNull => 0
  | JBool b => if b then 1 else 0
  | JNumber x => x
  | JString s => StringToNumber s
  | JArray _ => StringToNumber (ToString v)
  | JObject _ => nan
  end.

End Coercions.

(** [Math.min] of two numbers. *)
Definition Math_min (a b : float) : float :=
  if is_nan a || is_nan b then nan
  else if PrimFloat.ltb a b then a
  else if PrimFloat.ltb b a then b
  else match PrimFloat.classify a with
       | NZero => a
       | _ => b
       end.

(** ** What a route answers *)

Definition ANALYSIS_TIMEOUT : float := 30000.

(** The message of the Error that analyzeUrl throws on a URL that is not
    valid (the URL format is not valid), and the part of it that the route
    looks for, as code units. *)
Definition invalid_url_message : jsstring :=
  [50976; 54952; 54616; 51648; 32; 50506; 51008; 32; 85; 82; 76; 32; 54805;
   49885; 51077; 45768; 45796; 46]%N.

Definition invalid_url_marker : jsstring :=
  [50976; 54952; 54616; 51648; 32; 50506; 51008; 32; 85; 82; 76]%N.

(** [error.message] *)
Definition message (e : Error) : jsstring :=
  match e with
  | InvalidURL => js "Invalid URL"
  | InvalidUrlFormat => invalid_url_message
  | Rejection m => m
  end.

(** A response: the data with status 200, or an error with its status and
    code. *)
Inductive Reply (A : Type) : Type :=
| Replied (data : A)
| Refused (status : Z) (code : jsstring).

Arguments Replied {A} data.
Arguments Refused {A} status code.

(** What running a handler comes to: it sends a response, or an exception
    leaves it before it has sent one. *)
Inductive Outcome (A : Type) : Type :=
| Sends (reply : Reply A)
| Escapes.

Arguments Sends {A} reply.
Arguments Escapes {A}.

(** One entry of a batch: the entry as it came, which the result echoes as
    its [url], and the other fields of the result; [qc_url] is the string
    that [new URL] read. *)
Record EntryResult : Type := mkEntryResult {
  entry : Json;
  outcome : QuickCheckResult
}.

(** The data of the batch route. *)
Record BatchReport : Type := mkBatchReport {
  report_total : nat;
  report_results : list EntryResult;
  report_summary : BatchSummary
}.

(** How a request comes to a route: [express.json()] rejects its body
    (text that is not JSON, a body over 1mb) and passes the error on; or
    the limiter of /api/ has counted more than 30 requests in the minute;
    or the handler is called, with [req.body] undefined ([None]) or the
    value that was parsed. *)
Inductive Arrival : Type :=
| BodyRejected
| OverLimit
| Reaches (body : option Json).

Section Routes.

Context {runtime : Runtime} {conversions : Conversions}.

(** [Math.min(options.timeout || ANALYSIS_TIMEOUT, ANALYSIS_TIMEOUT)] *)
Definition capped_timeout (options : Json) : float :=
  let requested :=
    match property "timeout" options with
    | Some v => if ToBoolean v then v else JNumber ANALYSIS_TIMEOUT
    | None => JNumber ANALYSIS_TIMEOUT
    end in
  Math_min (ToNumber_json requested) ANALYSIS_TIMEOUT.

(** [v !== false] *)
Definition is_not_false (v : option Json) : bool :=
  match v with
  | Some (JBool false) => false
  | _ => true
  end.

(** The options that the analyze route hands to analyzeUrl: the capped
    timeout and the screenshot flag, and nothing else. *)
Definition forwarded (options : Json) : Options :=
  mkOptions (Some (capped_timeout options))
    (Some (is_not_false (property "takeScreenshot" options))) None.

(** The [catch] of the analyze route. *)
Definition analyze_error (e : Error) : Reply AnalysisResult :=
  if includes invalid_url_marker (message e)
  then Refused 400 (js "INVALID_URL")
  else if includes (js "timeout") (message e) ||
          includes (js "Timeout") (message e)
  then Refused 504 (js "ANALYSIS_TIMEOUT")
  else Refused 500 (js "ANALYSIS_ERROR").

(** The handler of POST /api/analyze, on [req.body] and the run of the
    sandbox that the analysis meets. Destructuring an undefined or null
    body throws, and so does reading [options.timeout] when options is
    null: both happen outside the [try]. *)
Definition post_analyze (w : Sandbox) (body : option Json)
    : Outcome AnalysisResult :=
  match body with
  | None => Escapes
  | Some JNull => Escapes
  | Some body =>
      let options :=
        match property "options" body with
        | Some options => options
        | None => JObject []
        end in
      match property "url" body with
      | None => Sends (Refused 400 (js "MISSING_URL"))
      | Some url =>
          if negb (ToBoolean url) then Sends (Refused 400 (js "MISSING_URL"))
          else
            match url with
            | JString url =>
                if (2048 <? length url)%nat
                then Sends (Refused 400 (js "URL_TOO_LONG"))
                else
                  match options with
                  | JNull => Escapes
                  | _ =>
                      match analyzeUrl w url (forwarded options) with
                      | Normal result => Sends (Replied result)
                      | Throw e => Sends (analyze_error e)
                      end
                  end
            | _ => Sends (Refused 400 (js "INVALID_URL_TYPE"))
            end
      end
  end.

(** The handler of POST /api/quick-check. *)
Definition post_quick_check (body : option Json) : Outcome QuickCheckResult :=
  match body with
  | None => Escapes
  | Some JNull => Escapes
  | Some body =>
      match property "url" body with
      | None => Sends (Refused 400 (js "MISSING_URL"))
      | Some url =>
          if negb (ToBoolean url) then Sends (Refused 400 (js "MISSING_URL"))
          else
            match url with
            | JString url =>
                match quickCheck url with
                | Normal result => Sends (Replied result)
                | Throw _ => Sends (Refused 500 (js "CHECK_ERROR"))
                end
            | _ => Sends (Refused 400 (js "INVALID_URL_TYPE"))
            end
      end
  end.

(** [quickCheck(url)] on an entry of any type: [new URL] reads the entry
    as a string, and the result echoes the entry itself. *)
Definition quickCheck_entry (url : Json) : completion EntryResult :=
  let* result := quickCheck (ToString url) in
  Normal (mkEntryResult url result).

(** The result of the batch for one entry, quickCheck never throwing. *)
Definition entry_result (url : Json) : EntryResult :=
  mkEntryResult url (quickCheck_result (ToString url)).

(** The handler of POST /api/batch-check. *)
Definition post_batch (body : option Json) : Outcome BatchReport :=
  match body with
  | None => Escapes
  | Some JNull => Escapes
  | Some body =>
      match property "urls" body with
      | Some (JArray urls) =>
          if (10 <? length urls)%nat
          then Sends (Refused 400 (js "TOO_MANY_URLS"))
          else
            match mapM quickCheck_entry urls with
            | Normal results =>
                Sends
                  (Replied
                     (mkBatchReport (length urls) results
                        (tally (map outcome results))))
            | Throw _ => Sends (Refused 500 (js "BATCH_CHECK_ERROR"))
            end
      | _ => Sends (Refused 400 (js "MISSING_URLS"))
      end
  end.

(** The server on a request to one of the routes. An error that
    [express.json()] passes on goes to the last error handler, which
    answers 500; the limiter answers 429; an exception that leaves a
    handler which is not async is caught by Express and goes to the same
    error handler, whereas the promise of an async handler rejects:
    [Escapes] stands for that, and what becomes of the rejection is
    decided by Express, not by this code. *)
Definition serve {A} (async : bool) (handler : option Json -> Outcome A)
    (arrival : Arrival) : Outcome A :=
  match arrival with
  | BodyRejected => Sends (Refused 500 (js "INTERNAL_SERVER_ERROR"))
  | OverLimit => Sends (Refused 429 (js "RATE_LIMIT_EXCEEDED"))
  | Reaches body =>
      match handler body with
      | Sends reply => Sends reply
      | Escapes =>
          if async then Escapes
          else Sends (Refused 500 (js "INTERNAL_SERVER_ERROR"))
      end
  end.

Definition serve_analyze (w : Sandbox) : Arrival -> Outcome AnalysisResult :=
  serve true (post_analyze w).

Definition serve_quick_check : Arrival -> Outcome QuickCheckResult :=
  serve false post_quick_check.

Definition serve_batch : Arrival -> Outcome BatchReport :=
  serve true post_batch.

(** ** Readings of the analyzers used in the statements below *)

(** The host names of the requests whose url parses, in order. *)
Definition parsed_hosts (requests : list Request) : list jsstring :=
  flat_map
    (fun req =>
       match new_URL (req_url req) with
       | Some u => [hostname u]
       | None => []
       end)
    requests.

(** Whether a request is a script from a host other than the page's. *)
Definition external_script (req : Request) : bool :=
  match new_URL (req_url req) with
  | Some u =>
      str_eqb (resourceType req) (js "script") &&
      negb (str_eqb (hostname u) (originalDomain req))
  | None => false
  end.

End Routes.

(** The body [{ "url": url }] of a request, and [{ "urls": [...] }] with
    strings. *)
Definition url_body (url : jsstring) : Json :=
  JObject [ (js "url", JString url) ].

Definition urls_body (urls : list jsstring) : Json :=
  JObject [ (js "urls", JArray (map JString urls)) ].

(** A unit of an IPv4 literal: a digit or the dot. *)
Definition quad_unit (c : N) : bool := is_digit c || N.eqb c 46.

(** The triggers of the two pattern rules of analyzeContent. *)
Definition phishing_rule (text : jsstring) : bool :=
  existsb (fun pattern => test pattern text) PHISHING_PATTERNS.

Definition script_rule (text : jsstring) : bool :=
  existsb (fun pattern => test pattern text) MALICIOUS_SCRIPT_PATTERNS.

(** The text holds the word [a] and, later on the same line, the word [b],
    in any case. *)
Definition HasPhrase (a b : string) (text : jsstring) : Prop :=
  exists pre x mid y post,
    text = pre ++ x ++ mid ++ y ++ post /\
    map Spec.to_lower x = js a /\
    map Spec.to_lower y = js b /\
    forallb (fun c => negb (is_line_terminator c)) mid = true.

(** The pairs of words of PHISHING_PATTERNS. *)
Definition PHISHING_PHRASES : list (string * string) :=
  [ ("login", "verify"); ("account", "suspend"); ("urgent", "action");
    ("password", "expire"); ("verify", "identity"); ("security", "alert");
    ("confirm", "bank"); ("update", "payment") ]%string.

(** [s] is a contiguous part of [t]. *)
Definition Infix (s t : jsstring) : Prop :=
  exists pre post, t = pre ++ s ++ post.

(** A page fails at least where another one does: each [page.evaluate]
    gives what it gives there, up to the first one that rejects. *)
Definition fails_earlier (q p : Page) : Prop :=
  (exists e, innerText q = Throw e) \/
  (innerText q = innerText p /\
   ((exists e, formInfo q = Throw e) \/
    (formInfo q = formInfo p /\
     ((exists e, scripts q = Throw e) \/ scripts q = scripts p)))).


(* ================================================================== *)
(** * Further examples *)

Module Cases.

Import Sample.

(** The login page of the busy run when its forms cannot be read. *)
Definition formless_page : Page :=
  mkPage (Normal (js "Please LOGIN here to verify your account"))
    (Throw (Rejection (js "Execution context was destroyed")))
    (Normal []) (js "Sign in", js "http://192.0.2.10/").

(** A run in which the browser cannot be started, and one in which the
    page opens and the browser does not close. *)
Definition no_browser : Sandbox :=
  mkSandbox (Throw (Rejection (js "Failed to launch the browser process")))
    None [] None 0 [] (mkAiService None (Rejected [])) None.

Definition stuck_browser : Sandbox :=
  mkSandbox (Normal page) None [] None 0 []
    (mkAiService None (Rejected []))
    (Some (Rejection (js "Protocol error: Target closed"))).

(** The requests of the examples in two orders. *)
Definition requests : list Request :=
  [ script_request; broken_request;
    mkRequest (js "https://example.com/") (js "document") (js "example.com") ].

Definition reordered : list Request :=
  [ broken_request;
    mkRequest (js "https://example.com/") (js "document") (js "example.com");
    script_request ].

(** An AI verdict whose level is none of the three names. *)
Definition critical_verdict : Analysis :=
  mkAnalysis 95 (Some (js "critical")) (js "credential theft") [] [] 90 None.

Definition critical_result : AiResult :=
  mkAiResult true (Some MODEL_NAME) (Some (Verdict critical_verdict)) None
    None None.

(** The JSON text of the fenced answer, and what stands between its
    braces. *)
Definition verdict_text : jsstring :=
  js "{" ++ quoted "riskScore" ++ js ":90," ++ quoted "riskLevel" ++ js ":" ++
  quoted "danger" ++ js "}".

Definition inner_text : jsstring :=
  quoted "riskScore" ++ js ":90," ++ quoted "riskLevel" ++ js ":" ++
  quoted "danger".

(** The result of analyzeUrl in the run with the AI service. *)
Definition fused_result : AnalysisResult :=
  match @analyzeUrl runtime sandbox_with_ai (js "https://example.com/")
          options with
  | Normal r => r
  | Throw _ => heuristic
  end.

(** The value of a float that is an integer. *)
Definition integer_of (x : float) : option Z :=
  match Prim2SF x with
  | S754_zero _ => Some 0%Z
  | S754_finite s m e =>
      let magnitude :=
        if (0 <=? e)%Z then Some (Z.shiftl (Z.pos m) e)
        else if (Z.land (Z.pos m) (Z.ones (- e)) =? 0)%Z
             then Some (Z.shiftr (Z.pos m) (- e))
             else None in
      match magnitude with
      | Some n => Some (if s then (- n)%Z else n)
      | None => None
      end
  | _ => None
  end.

(** The decimal digits of a natural number, the last one first. *)
Fixpoint reversed_digits (fuel : nat) (n : Z) : jsstring :=
  match fuel with
  | O => []
  | S fuel' =>
      Z.to_N (48 + n mod 10) ::
      (if (n <? 10)%Z then [] else reversed_digits fuel' (n / 10))
  end.

Definition decimal (n : Z) : jsstring :=
  if (n <? 0)%Z then js "-" ++ rev (reversed_digits 20 (- n))
  else rev (reversed_digits 20 n).

(** The conversions on the values of the examples: [Number::toString] on
    NaN and on the integers below 2^53, [StringToNumber] on the empty
    string and on the decimal integers of at most 15 digits. The examples
    use them on no other value; there [StringToNumber] says NaN, as it
    does on a text that is no number. *)
Definition conversions : Conversions :=
  mkConversions
    (fun x =>
       match integer_of x with
       | Some n => decimal n
       | None => js "NaN"
       end)
    (fun s =>
       match s with
       | [] => 0%float
       | _ =>
           if forallb is_digit s && (length s <=? 15)%nat
           then num_of_Z (digits_value s)
           else nan
       end).





(** A batch with a string, a number, an array that holds one address, and
    a null. *)
Definition mixed_batch : Json :=
  JObject
    [ (js "urls",
       JArray [ JString address; JNumber 123; JArray [JString address];
                JNull ]) ].

End Cases.
(* ================================================================== *)
(** * Correctness of the regular expression matcher *)

Module RegexFacts.

Lemma nullable_Matches (r : regex) : nullable r = true <-> Matches r [].
Proof.
  split.
  - induction r; simpl; intro H; try discriminate.
    + constructor.
    + apply andb_prop in H as [H1 H2].
      change (@nil N) with (@nil N ++ []). constructor; auto.
    + apply orb_prop in H as [H | H]; [apply MAltL | apply MAltR]; auto.
    + constructor.
  - intro H. remember (@nil N) as s eqn:E.
    induction H; simpl; auto; try discriminate.
    + apply app_eq_nil in E as [E1 E2].
      rewrite IHMatches1, IHMatches2; auto.
    + rewrite IHMatches; auto.
    + rewrite IHMatches, orb_true_r; auto.
Qed.

Lemma deriv_sound (c : N) (r : regex) :
  forall s, Matches (deriv c r) s -> Matches r (c :: s).
Proof.
  induction r; simpl; intros s H.
  - inversion H.
  - inversion H.
  - destruct (p c) eqn:Hp; inversion H; subst. now constructor.
  - destruct (nullable r1) eqn:Hn.
    + inversion H as [ | | | ? ? ? H1 | ? ? ? H1 | | ]; subst.
      * inversion H1; subst.
        change (c :: s1 ++ s2) with ((c :: s1) ++ s2).
        constructor; auto.
      * change (c :: s) with ([] ++ c :: s).
        constructor; auto. now apply nullable_Matches.
    + inversion H; subst.
      change (c :: s1 ++ s2) with ((c :: s1) ++ s2).
      constructor; auto.
  - inversion H; subst; [apply MAltL | apply MAltR]; auto.
  - inversion H; subst.
    change (c :: s1 ++ s2) with ((c :: s1) ++ s2).
    constructor; auto.
Qed.

Lemma deriv_complete (c : N) (r : regex) :
  forall s, Matches r (c :: s) -> Matches (deriv c r) s.
Proof.
  intros s H. remember (c :: s) as t eqn:E. revert s E.
  induction H; intros s' E; simpl; try discriminate.
  - injection E as -> <-. rewrite H. constructor.
  - destruct s1 as [ | x s1'].
    + simpl in E. subst s2.
      assert (Hn : nullable r1 = true) by now apply nullable_Matches.
      rewrite Hn. apply MAltR. auto.
    + simpl in E. injection E as -> <-.
      destruct (nullable r1).
      * apply MAltL. constructor; auto.
      * constructor; auto.
  - apply MAltL; auto.
  - apply MAltR; auto.
  - destruct s1 as [ | x s1'].
    + simpl in E. apply IHMatches2 in E. exact E.
    + simpl in E. injection E as -> <-. constructor; auto.
Qed.

Lemma accepts_Matches (s : jsstring) :
  forall r, accepts r s = true <-> Matches r s.
Proof.
  induction s as [ | c s IH]; intro r; simpl.
  - apply nullable_Matches.
  - rewrite IH. split; [apply deriv_sound | apply deriv_complete].
Qed.

Lemma Matches_any_star (s : jsstring) : Matches (Star any) s.
Proof.
  induction s as [ | c s IH].
  - constructor.
  - change (c :: s) with ([c] ++ s). constructor; auto. now constructor.
Qed.

Lemma Matches_unanchored (b : bool) (s : jsstring) :
  Matches (unanchored b) s <-> (b = true -> s = []).
Proof.
  destruct b; simpl.
  - split.
    + intros H _. now inversion H.
    + intros H. rewrite H by reflexivity. constructor.
  - split; [discriminate | intros _; apply Matches_any_star].
Qed.

(** [test] finds a substring in the language of the body, placed as the
    anchors say. *)
Lemma test_spec (re : RegExp) (s : jsstring) :
  test re s = true <->
  exists pre m post,
    s = pre ++ m ++ post /\ Matches (body re) m /\
    (anchored_start re = true -> pre = []) /\
    (anchored_end re = true -> post = []).
Proof.
  unfold test. rewrite accepts_Matches. split.
  - intro H. inversion H as [ | | ? ? pre rest Hpre Hrest | | | | ]; subst.
    inversion Hrest as [ | | ? ? m post Hm Hpost | | | | ]; subst.
    exists pre, m, post. repeat split; auto.
    + now apply Matches_unanchored.
    + now apply Matches_unanchored.
  - intros (pre & m & post & -> & Hm & Hpre & Hpost).
    constructor; [ | constructor; auto]; now apply Matches_unanchored.
Qed.

End RegexFacts.

(** ** The language of the building blocks *)

Module PatternFacts.

Import RegexFacts.

Lemma Matches_Seq (r1 r2 : regex) (s : jsstring) :
  Matches (Seq r1 r2) s <->
  exists s1 s2, s = s1 ++ s2 /\ Matches r1 s1 /\ Matches r2 s2.
Proof.
  split.
  - intro H. inversion H; subst. eauto.
  - intros (s1 & s2 & -> & H1 & H2). now constructor.
Qed.

Lemma Matches_Alt (r1 r2 : regex) (s : jsstring) :
  Matches (Alt r1 r2) s <-> Matches r1 s \/ Matches r2 s.
Proof.
  split.
  - intro H. inversion H; subst; auto.
  - intros [H | H]; [apply MAltL | apply MAltR]; auto.
Qed.

Lemma Matches_Eps (s : jsstring) : Matches Eps s <-> s = [].
Proof.
  split.
  - intro H. now inversion H.
  - intros ->. constructor.
Qed.

Lemma Matches_Chr (p : N -> bool) (s : jsstring) :
  Matches (Chr p) s <-> exists c, s = [c] /\ p c = true.
Proof.
  split.
  - intro H. inversion H; subst. eauto.
  - intros (c & -> & Hc). now constructor.
Qed.

Lemma Matches_star_class (p : N -> bool) (s : jsstring) :
  Matches (Star (Chr p)) s <-> forallb p s = true.
Proof.
  split.
  - intro H. remember (Star (Chr p)) as r eqn:E.
    induction H; try discriminate; auto.
    injection E as ->.
    rewrite forallb_app, IHMatches2 by reflexivity.
    inversion H; subst. simpl.
    match goal with Hc : p _ = true |- _ => now rewrite Hc end.
  - induction s as [ | c s IH]; simpl; intro H.
    + constructor.
    + apply andb_prop in H as [Hc Hs].
      change (c :: s) with ([c] ++ s). constructor; auto. now constructor.
Qed.

Lemma Matches_plus_class (p : N -> bool) (s : jsstring) :
  Matches (plus (Chr p)) s <-> s <> [] /\ forallb p s = true.
Proof.
  unfold plus. rewrite Matches_Seq. split.
  - intros (s1 & s2 & -> & H1 & H2).
    apply Matches_Chr in H1 as (c & -> & Hc).
    apply Matches_star_class in H2. simpl. rewrite Hc, H2.
    split; [discriminate | reflexivity].
  - intros [Hne H]. destruct s as [ | c s]; [congruence | ].
    simpl in H. apply andb_prop in H as [Hc Hs].
    exists [c], s. repeat split.
    + now constructor.
    + now apply Matches_star_class.
Qed.

Lemma Matches_at_least (p : N -> bool) (n : nat) :
  forall s,
    Matches (at_least n (Chr p)) s <->
    (n <= length s)%nat /\ forallb p s = true.
Proof.
  induction n as [ | n IH]; intro s; simpl.
  - rewrite Matches_star_class. split; [intro; split; [lia | auto] | tauto].
  - rewrite Matches_Seq. split.
    + intros (s1 & s2 & -> & H1 & H2).
      apply Matches_Chr in H1 as (c & -> & Hc).
      apply IH in H2 as [Hlen Hall]. simpl. rewrite Hc, Hall.
      split; [lia | reflexivity].
    + intros [Hlen Hall]. destruct s as [ | c s]; [simpl in Hlen; lia | ].
      simpl in Hlen, Hall. apply andb_prop in Hall as [Hc Hs].
      exists [c], s. repeat split.
      * now constructor.
      * apply IH. split; [lia | auto].
Qed.

Lemma Matches_lit (a : string) :
  forall s, Matches (lit a) s <-> s = js a.
Proof.
  induction a as [ | x a IH]; intro s; simpl.
  - apply Matches_Eps.
  - rewrite Matches_Seq. split.
    + intros (s1 & s2 & -> & H1 & H2).
      apply Matches_Chr in H1 as (c & -> & Hc).
      apply N.eqb_eq in Hc. apply IH in H2. subst. reflexivity.
    + intros ->. exists [N_of_ascii x], (js a). repeat split.
      * constructor. apply N.eqb_refl.
      * now apply IH.
Qed.

Lemma Matches_lit_i (a : string) :
  forall s,
    Matches (lit_i a) s <-> map canonicalize s = map canonicalize (js a).
Proof.
  induction a as [ | x a IH]; intro s; simpl.
  - rewrite Matches_Eps. split.
    + intros ->. reflexivity.
    + destruct s; [reflexivity | discriminate].
  - rewrite Matches_Seq. split.
    + intros (s1 & s2 & -> & H1 & H2).
      apply Matches_Chr in H1 as (c & -> & Hc).
      apply N.eqb_eq in Hc. apply IH in H2. simpl. now rewrite Hc, H2.
    + intro H. destruct s as [ | c s]; [discriminate | ].
      simpl in H. injection H as Hc Hs.
      exists [c], s. repeat split.
      * constructor. now apply N.eqb_eq.
      * now apply IH.
Qed.

End PatternFacts.

(* ================================================================== *)
(** * The patterns of the Domain Analyzer, read as the rules *)

Module HostFacts.

Import RegexFacts PatternFacts.

Lemma str_eqb_eq (a : jsstring) : forall b, str_eqb a b = true <-> a = b.
Proof.
  induction a as [ | x a IH]; intros [ | y b]; simpl;
    try (split; [discriminate | discriminate]); try tauto.
  rewrite andb_true_iff, N.eqb_eq, IH. split.
  - intros [-> ->]. reflexivity.
  - intro H. injection H as -> ->. auto.
Qed.

Lemma str_eqb_refl (a : jsstring) : str_eqb a a = true.
Proof. now apply str_eqb_eq. Qed.

Lemma str_eqb_neq (a b : jsstring) : str_eqb a b = false <-> a <> b.
Proof.
  rewrite <- str_eqb_eq. destruct (str_eqb a b); split; congruence.
Qed.

Lemma str_in_In (s : jsstring) (l : list jsstring) :
  str_in s l = true <-> In s l.
Proof.
  unfold str_in. rewrite existsb_exists. split.
  - intros (x & Hx & He). apply str_eqb_eq in He. now subst.
  - intro H. exists s. split; [auto | apply str_eqb_refl].
Qed.

Lemma Matches_chr (a : ascii) (s : jsstring) :
  Matches (chr a) s <-> s = [N_of_ascii a].
Proof.
  unfold chr. rewrite Matches_Chr. split.
  - intros (c & -> & Hc). apply N.eqb_eq in Hc. now subst.
  - intros ->. exists (N_of_ascii a). split; [auto | apply N.eqb_refl].
Qed.

Lemma ipv4_literal_spec (host : jsstring) :
  test ipv4_literal host = true <-> Spec.DottedQuad host.
Proof.
  rewrite test_spec. unfold Spec.DottedQuad, Spec.digits. simpl. split.
  - intros (pre & m & post & -> & Hm & Hpre & Hpost).
    rewrite (Hpre eq_refl), (Hpost eq_refl), app_nil_r. simpl.
    unfold digit in Hm.
    apply Matches_Seq in Hm as (a & r1 & -> & Ha & Hm).
    apply Matches_Seq in Hm as (d1 & r2 & -> & Hd1 & Hm).
    apply Matches_Seq in Hm as (b & r3 & -> & Hb & Hm).
    apply Matches_Seq in Hm as (d2 & r4 & -> & Hd2 & Hm).
    apply Matches_Seq in Hm as (c & r5 & -> & Hc & Hm).
    apply Matches_Seq in Hm as (d3 & d & -> & Hd3 & Hd).
    apply Matches_chr in Hd1, Hd2, Hd3. subst d1 d2 d3.
    apply Matches_plus_class in Ha, Hb, Hc, Hd.
    exists a, b, c, d. repeat split; try tauto.
  - intros (a & b & c & d & Ha & Hb & Hc & Hd & ->).
    exists [], (a ++ js "." ++ b ++ js "." ++ c ++ js "." ++ d), [].
    rewrite app_nil_r. repeat split; auto.
    unfold digit.
    repeat (apply MSeq;
            [ first [ now apply Matches_plus_class | now apply Matches_chr ] | ]).
    now apply Matches_plus_class.
Qed.

Lemma long_digits_spec (host : jsstring) :
  test long_digits host = true <-> Spec.HasRun is_digit 4 host.
Proof.
  rewrite test_spec. unfold Spec.HasRun.
  cbn [long_digits double_hyphen body anchored_start anchored_end]. split.
  - intros (pre & m & post & -> & Hm & _ & _).
    apply Matches_at_least in Hm. exists pre, m, post. tauto.
  - intros (pre & m & post & -> & Hlen & Hall).
    exists pre, m, post. repeat split; try discriminate.
    apply Matches_at_least. auto.
Qed.

Lemma double_hyphen_spec (host : jsstring) :
  test double_hyphen host = true <-> Spec.HasRun Spec.is_hyphen 2 host.
Proof.
  rewrite test_spec. unfold Spec.HasRun.
  cbn [long_digits double_hyphen body anchored_start anchored_end]. split.
  - intros (pre & m & post & -> & Hm & _ & _).
    apply Matches_at_least in Hm. exists pre, m, post. tauto.
  - intros (pre & m & post & -> & Hlen & Hall).
    exists pre, m, post. repeat split; try discriminate.
    apply Matches_at_least. auto.
Qed.

(** Folding to upper case and folding to lower case identify the same
    units. *)
Lemma canonicalize_to_lower (x y : N) :
  canonicalize x = canonicalize y <-> Spec.to_lower x = Spec.to_lower y.
Proof.
  unfold canonicalize, Spec.to_lower, in_range.
  destruct (N.leb_spec 97 x), (N.leb_spec x 122), (N.leb_spec 97 y),
    (N.leb_spec y 122), (N.leb_spec 65 x), (N.leb_spec x 90),
    (N.leb_spec 65 y), (N.leb_spec y 90); simpl; lia.
Qed.

Lemma map_canonicalize_to_lower (s : jsstring) :
  forall t,
    map canonicalize s = map canonicalize t <->
    map Spec.to_lower s = map Spec.to_lower t.
Proof.
  induction s as [ | x s IH]; intros [ | y t]; simpl;
    try (split; [discriminate | discriminate]); try tauto.
  split; intro H; injection H as Hx Hs;
    apply canonicalize_to_lower in Hx; apply IH in Hs; congruence.
Qed.

Lemma Matches_lit_i_lower (a : string) (s : jsstring) :
  map Spec.to_lower (js a) = js a ->
  (Matches (lit_i a) s <-> map Spec.to_lower s = js a).
Proof.
  intro Ha. rewrite Matches_lit_i, map_canonicalize_to_lower, Ha. tauto.
Qed.

Lemma free_tld_spec (host : jsstring) :
  test free_tld host = true <-> Spec.EndsWithFreeTld host.
Proof.
  rewrite test_spec. unfold Spec.EndsWithFreeTld, Spec.FREE_TLDS, free_tld.
  cbn [body anchored_start anchored_end In]. split.
  - intros (pre & m & post & -> & Hm & _ & Hpost).
    rewrite (Hpost eq_refl), app_nil_r.
    apply Matches_Seq in Hm as (d & tld & -> & Hd & Htld).
    apply Matches_Chr in Hd as (c & -> & Hc).
    apply N.eqb_eq in Hc.
    assert (c = 46%N) as ->.
    { revert Hc. unfold canonicalize. cbn [N_of_ascii N_of_digits].
      destruct (N.leb_spec 97 c), (N.leb_spec c 122); simpl; lia. }
    exists pre, tld. split; [reflexivity | ].
    repeat rewrite Matches_Alt in Htld.
    repeat rewrite Matches_lit_i_lower in Htld by reflexivity.
    intuition congruence.
  - intros (pre & tld & -> & Hin).
    exists pre, (js "." ++ tld), []. rewrite app_nil_r.
    repeat split; try discriminate.
    apply Matches_Seq. exists (js "."), tld. repeat split.
    + apply Matches_Chr. exists 46%N. split; reflexivity.
    + repeat rewrite Matches_Alt.
      repeat rewrite Matches_lit_i_lower by reflexivity.
      intuition congruence.
Qed.

Lemma is_cyrillic_range (c : N) :
  is_cyrillic c = true <-> (1040 <= c <= 1103)%N.
Proof.
  unfold is_cyrillic, in_range.
  destruct (N.leb_spec 1072 c), (N.leb_spec c 1103), (N.leb_spec 1040 c),
    (N.leb_spec c 1071); simpl; split; try lia; try discriminate; auto.
Qed.

Lemma cyrillic_spec (host : jsstring) :
  test cyrillic host = true <-> Spec.HasCyrillic host.
Proof.
  rewrite test_spec. unfold Spec.HasCyrillic. simpl. split.
  - intros (pre & m & post & -> & Hm & _ & _).
    apply Matches_Chr in Hm as (c & -> & Hc).
    exists c. split.
    + apply in_or_app. right. now left.
    + now apply is_cyrillic_range.
  - intros (c & Hin & Hc).
    apply in_split in Hin as (pre & post & ->).
    exists pre, [c], post. repeat split; try discriminate.
    constructor. now apply is_cyrillic_range.
Qed.

Lemma suspicious_spec (host : jsstring) :
  existsb (fun pattern => test pattern host) SUSPICIOUS_DOMAIN_PATTERNS = true
  <-> Spec.SuspiciousHost host.
Proof.
  unfold SUSPICIOUS_DOMAIN_PATTERNS, Spec.SuspiciousHost. simpl.
  rewrite !orb_true_iff, long_digits_spec, double_hyphen_spec,
    free_tld_spec, cyrillic_spec.
  intuition discriminate.
Qed.

(** The loop with its [break] awards the points once, whatever the number
    of patterns that match. *)
Lemma scan_once (patterns : list RegExp) (pts : Z) (i : Issue)
    (text : jsstring) (acc : Signal) :
  scan patterns pts i text acc =
  if existsb (fun pattern => test pattern text) patterns
  then push pts i acc else acc.
Proof.
  induction patterns as [ | p ps IH]; simpl; [reflexivity | ].
  destruct (test p text); simpl; auto.
Qed.

Lemma split_length (host : jsstring) :
  Z.of_nat (length (split 46 host)) = Spec.labels host.
Proof.
  unfold Spec.labels.
  assert (H : length (split 46 host) = S (length (filter (N.eqb 46) host))).
  { induction host as [ | c host IH]; [reflexivity | ].
    cbn [split filter]. rewrite (N.eqb_sym 46 c).
    destruct (N.eqb c 46); cbn [length].
    - now rewrite IH.
    - destruct (split 46 host); cbn [length] in *; congruence. }
  rewrite H. lia.
Qed.

End HostFacts.

(* ================================================================== *)
(** * The heuristic analyzers: scores, caps and thresholds *)

Section Heuristics.

Context {runtime : Runtime}.

Import HostFacts.

Open Scope Z_scope.

Lemma awards_pts (P : Prop) (b : bool) (n : Z) :
  (b = true <-> P) -> Spec.awards P n (pts b n).
Proof.
  intro H. destruct b; simpl.
  - apply Spec.awarded. now apply H.
  - apply Spec.withheld. intro HP. apply H in HP. discriminate.
Qed.

Lemma score_scan (patterns : list RegExp) (n : Z) (i : Issue)
    (text : jsstring) (acc : Signal) :
  score (scan patterns n i text acc) =
  score acc + pts (existsb (fun pattern => test pattern text) patterns) n.
Proof.
  rewrite scan_once. destruct (existsb _ patterns); simpl; lia.
Qed.

Lemma analyzeDomain_score (url : jsstring) (parsed : URL) :
  new_URL url = Some parsed ->
  exists s,
    analyzeDomain url = Normal s /\
    score s =
      Z.min (pts (ip_rule parsed) 25 + pts (pattern_rule parsed) 15 +
             pts (depth_rule parsed) 10 + pts (scheme_rule parsed) 15 +
             pts (port_rule parsed) 10) 40.
Proof.
  intro Hurl. unfold analyzeDomain. rewrite Hurl.
  eexists. split; [reflexivity | ].
  unfold capped. cbn [score].
  fold (ip_rule parsed) (depth_rule parsed) (scheme_rule parsed)
    (port_rule parsed).
  f_equal.
  destruct (port_rule parsed), (scheme_rule parsed), (depth_rule parsed);
    unfold push; cbn [score]; rewrite score_scan; fold (pattern_rule parsed);
    destruct (ip_rule parsed); cbn [score pts no_signal]; lia.
Qed.

Lemma isValidUrl_parsed (url : jsstring) :
  isValidUrl url = true ->
  exists parsed,
    new_URL url = Some parsed /\
    (protocol parsed = js "http:" \/ protocol parsed = js "https:").
Proof.
  unfold isValidUrl. destruct (new_URL url) as [parsed | ]; [ | discriminate].
  intro H. exists parsed. split; [reflexivity | ].
  apply str_in_In in H. simpl in H. intuition.
Qed.

Lemma port_rule_spec (u : URL) :
  port_rule u = true <->
  port u <> [] /\ port u <> js "80" /\ port u <> js "443".
Proof.
  unfold port_rule. rewrite andb_true_iff, negb_true_iff.
  rewrite <- not_true_iff_false, str_in_In. simpl.
  destruct (port u) as [ | c p]; simpl.
  - intuition congruence.
  - intuition congruence.
Qed.

(** C4. For every valid URL the score of the Domain Analyzer is the
    minimum of 40 and the sum of the points of the triggered rules: a bare
    IPv4 host 25; one of the suspicious host patterns (four or more
    consecutive digits, two or more consecutive hyphens, a free top-level
    domain in any case, a Cyrillic letter) 15, once; a subdomain depth
    (labels minus 2) above 3, 10; a scheme other than https 15; an explicit
    port other than 80 and 443, 10. In particular the URL
    https://192.0.2.10/login, parsed as the URL standard parses it, scores
    exactly 25 and is safe. *)
Theorem C4_domain_score_is_capped_sum_of_rules :
  (forall url,
     isValidUrl url = true ->
     exists parsed s,
       new_URL url = Some parsed /\
       analyzeDomain url = Normal s /\
       Spec.DomainScore parsed (score s)) /\
  (new_URL (js "https://192.0.2.10/login") =
     Some (mkURL (js "https:") (js "192.0.2.10") (js "")) ->
   exists s,
     analyzeDomain (js "https://192.0.2.10/login") = Normal s /\
     score s = 25 /\
     issues s = [IpDirectAccess] /\
     determineRiskLevel (score s) = js "safe").
Proof.
  split.
  - intros url Hvalid.
    destruct (isValidUrl_parsed url Hvalid) as (parsed & Hurl & _).
    destruct (analyzeDomain_score url Hurl) as (s & Hs & Hscore).
    exists parsed, s. repeat split; auto.
    exists (pts (ip_rule parsed) 25), (pts (pattern_rule parsed) 15),
      (pts (depth_rule parsed) 10), (pts (scheme_rule parsed) 15),
      (pts (port_rule parsed) 10).
    repeat split; auto; apply awards_pts.
    + apply ipv4_literal_spec.
    + apply suspicious_spec.
    + unfold depth_rule. rewrite split_length. apply Z.ltb_lt.
    + unfold scheme_rule. rewrite negb_true_iff. apply str_eqb_neq.
    + apply port_rule_spec.
  - intro Hurl. unfold analyzeDomain. rewrite Hurl.
    eexists. split; [reflexivity | ]. vm_compute. auto.
Qed.

Lemma determineRiskLevel_cases (s : Z) :
  (s <= 30 /\ determineRiskLevel s = js "safe") \/
  (31 <= s <= 70 /\ determineRiskLevel s = js "warning") \/
  (71 <= s /\ determineRiskLevel s = js "danger").
Proof.
  unfold determineRiskLevel, RISK_THRESHOLDS.SAFE, RISK_THRESHOLDS.WARNING.
  destruct (Z.leb_spec s 30); [left; split; [lia | reflexivity] | ].
  destruct (Z.leb_spec s 70); [right; left | right; right];
    (split; [lia | reflexivity]).
Qed.

Lemma heuristicResult_inv (w : Sandbox) (page : Page) (u : jsstring)
    (options : Options) (h : AnalysisResult) :
  heuristicResult w page u options = Normal h ->
  exists d requests,
    analyzeDomain u = Normal d /\
    details h =
      mkDetails d (analyzeContent page) (analyzeNetworkRequests requests)
        (classifyNavigation (navigationError w)) /\
    riskScore h =
      num_of_Z
        (Z.min
           (score d + score (analyzeContent page) +
            net_score (analyzeNetworkRequests requests) +
            nav_score (classifyNavigation (navigationError w))) 100) /\
    riskLevel h =
      Some
        (determineRiskLevel
           (Z.min
              (score d + score (analyzeContent page) +
               net_score (analyzeNetworkRequests requests) +
               nav_score (classifyNavigation (navigationError w))) 100)) /\
    url h = u /\ aiAnalysis h = None.
Proof.
  unfold heuristicResult. destruct (new_URL u) as [parsed | ]; simpl;
    [ | discriminate].
  destruct (analyzeDomain u) as [d | e]; simpl; [ | discriminate].
  intro H. injection H as <-. simpl. eauto 10.
Qed.

(** The heuristic result, field by field, from what analyzeUrl was given:
    each analyzer on its own input. *)
Lemma heuristicResult_explicit (w : Sandbox) (page : Page) (u : jsstring)
    (options : Options) (h : AnalysisResult) :
  heuristicResult w page u options = Normal h ->
  exists parsed d,
    new_URL u = Some parsed /\
    analyzeDomain u = Normal d /\
    h =
    mkAnalysisResult u
      (num_of_Z
         (Z.min
            (score d + score (analyzeContent page) +
             net_score (analyzeNetworkRequests (recorded w (hostname parsed))) +
             nav_score (classifyNavigation (navigationError w))) 100))
      (Some
         (determineRiskLevel
            (Z.min
               (score d + score (analyzeContent page) +
                net_score
                  (analyzeNetworkRequests (recorded w (hostname parsed))) +
                nav_score (classifyNavigation (navigationError w))) 100)))
      (if not_false (takeScreenshot options) then captured w else None)
      (mkDetails d (analyzeContent page)
         (analyzeNetworkRequests (recorded w (hostname parsed)))
         (classifyNavigation (navigationError w)))
      (elapsed w) (timestamp w) None.
Proof.
  unfold heuristicResult. destruct (new_URL u) as [parsed | ]; cbn [bind];
    [ | discriminate].
  destruct (analyzeDomain u) as [d | e]; cbn [bind]; [ | discriminate].
  intro H. injection H as <-. exists parsed, d. auto.
Qed.

(** The AI step leaves the url and the details of the heuristic result as
    they are. *)
Lemma withAI_url_details (w : Sandbox) (page : Page) (options : Options)
    (h : AnalysisResult) :
  url (withAI w page options h) = url h /\
  details (withAI w page options h) = details h /\
  screenshot (withAI w page options h) = screenshot h.
Proof.
  unfold withAI.
  destruct (not_false (useAI options)); [ | auto].
  destruct (enabled (analyzeWithAI (service w))) eqn:He; [ | auto].
  unfold mergeAnalysisResults. rewrite He.
  destruct (truthy_analysis (analyzeWithAI (service w))); auto.
Qed.

(** A result of analyzeUrl comes from a valid URL, a page, the heuristic
    result and the AI step, and from a browser that closes. *)
Lemma analyzeUrl_inv (w : Sandbox) (u : jsstring) (options : Options)
    (r : AnalysisResult) :
  analyzeUrl w u options = Normal r ->
  isValidUrl u = true /\ closing w = None /\
  exists page h,
    launched w = Normal page /\
    heuristicResult w page u options = Normal h /\
    r = withAI w page options h.
Proof.
  unfold analyzeUrl, finally.
  destruct (isValidUrl u); cbn [negb]; [ | discriminate].
  destruct (closing w); [discriminate | ].
  destruct (launched w) as [page | e]; cbn [bind]; [ | discriminate].
  destruct (heuristicResult w page u options) as [h | e] eqn:Hh; cbn [bind];
    [ | discriminate].
  intro H. injection H as <-. repeat split. exists page, h. auto.
Qed.

Lemma quickCheck_total (u : jsstring) :
  exists q,
    quickCheck u = Normal q /\ qc_url q = u /\ qc_valid q = isValidUrl u /\
    (isValidUrl u = false ->
     q = mkQuickCheckResult u false 0 (js "unknown") None InvalidFormat) /\
    (isValidUrl u = true ->
     exists d,
       analyzeDomain u = Normal d /\ qc_riskScore q = score d /\
       qc_riskLevel q = determineRiskLevel (score d) /\
       qc_issues q = Some (issues d)).
Proof.
  unfold quickCheck. destruct (isValidUrl u) eqn:Hvalid; simpl.
  - destruct (isValidUrl_parsed u Hvalid) as (parsed & Hurl & _).
    destruct (analyzeDomain_score u Hurl) as (d & Hd & _).
    rewrite Hd. simpl. eexists. repeat split; try discriminate.
    intros _. exists d. repeat split.
  - eexists. repeat split; try discriminate.
Qed.

Lemma analyzeContent_bounds (page : Page) :
  0 <= score (analyzeContent page) <= 50.
Proof.
  unfold analyzeContent, capped, content_error, push. cbn [score].
  destruct (innerText page) as [text | e]; cbn [score no_signal]; [ | lia].
  destruct (formInfo page) as [info | e]; cbn [score].
  - destruct (hasPasswordField info), (hasExternalAction info),
      (5 <? hiddenFieldCount info);
      (destruct (scripts page) as [script | e]; cbn [score];
       repeat rewrite score_scan; cbn [score no_signal]; unfold pts;
       repeat match goal with
              | |- context [if ?b then _ else _] => destruct b
              end; lia).
  - rewrite score_scan. cbn [score no_signal]. unfold pts.
    destruct (existsb _ _); lia.
Qed.

Lemma analyzeNetworkRequests_bounds (requests : list Request) :
  0 <= net_score (analyzeNetworkRequests requests) <= 20.
Proof.
  unfold analyzeNetworkRequests, push. cbn [net_score].
  destruct (Nat.ltb 10 _), (Nat.ltb 0 _); cbn [score no_signal]; lia.
Qed.

Lemma classifyNavigation_bounds (e : option jsstring) :
  0 <= nav_score (classifyNavigation e) <= 10.
Proof.
  unfold classifyNavigation. destruct e as [m | ]; [ | simpl; lia].
  destruct (nonempty m), (includes (js "timeout") m),
    (includes (js "net::ERR_") m); simpl; lia.
Qed.

Lemma analyzeDomain_bounds (u : jsstring) (d : Signal) :
  analyzeDomain u = Normal d -> 0 <= score d <= 40.
Proof.
  unfold analyzeDomain. destruct (new_URL u) as [parsed | ] eqn:Hurl;
    [ | discriminate].
  intro H. destruct (analyzeDomain_score u Hurl) as (s & Hs & Hscore).
  unfold analyzeDomain in Hs. rewrite Hurl in Hs. rewrite Hs in H.
  injection H as <-. rewrite Hscore.
  unfold pts.
  destruct (ip_rule parsed), (pattern_rule parsed), (depth_rule parsed),
    (scheme_rule parsed), (port_rule parsed); lia.
Qed.


(** C5. No analyzer exceeds its cap (Domain 40, Content 50, Network 20,
    Navigation 10) on any input, and the heuristic result of analyzeUrl
    stores the score of each analyzer on what analyzeUrl was given (the
    URL, the page, the recorded requests, the navigation error) and has as
    riskScore the minimum of 100 and the sum of these four scores, so it
    lies between 0 and 100. *)
Theorem C5_analyzer_caps_and_aggregate :
  (forall u d, analyzeDomain u = Normal d -> 0 <= score d <= 40) /\
  (forall page, 0 <= score (analyzeContent page) <= 50) /\
  (forall requests, 0 <= net_score (analyzeNetworkRequests requests) <= 20) /\
  (forall e, 0 <= nav_score (classifyNavigation e) <= 10) /\
  (forall w page u options h,
     heuristicResult w page u options = Normal h ->
     exists parsed domainAnalysis,
       new_URL u = Some parsed /\
       analyzeDomain u = Normal domainAnalysis /\
       domain (details h) = domainAnalysis /\
       content (details h) = analyzeContent page /\
       network (details h) =
         analyzeNetworkRequests (recorded w (hostname parsed)) /\
       navigation (details h) = classifyNavigation (navigationError w) /\
       let total :=
         Z.min
           (score domainAnalysis + score (analyzeContent page) +
            net_score (analyzeNetworkRequests (recorded w (hostname parsed))) +
            nav_score (classifyNavigation (navigationError w))) 100 in
       riskScore h = num_of_Z total /\
       0 <= total <= 100 /\
       0 <= score (domain (details h)) <= 40 /\
       0 <= score (content (details h)) <= 50 /\
       0 <= net_score (network (details h)) <= 20 /\
       0 <= nav_score (navigation (details h)) <= 10) /\
  (forall w u options r,
     analyzeUrl w u options = Normal r ->
     exists page parsed domainAnalysis,
       launched w = Normal page /\
       new_URL u = Some parsed /\
       analyzeDomain u = Normal domainAnalysis /\
       details r =
         mkDetails domainAnalysis (analyzeContent page)
           (analyzeNetworkRequests (recorded w (hostname parsed)))
           (classifyNavigation (navigationError w))).
Proof.
  split; [exact analyzeDomain_bounds | ].
  split; [exact analyzeContent_bounds | ].
  split; [exact analyzeNetworkRequests_bounds | ].
  split; [exact classifyNavigation_bounds | ].
  split.
  - intros w page u options h Hh.
    apply heuristicResult_explicit in Hh as (parsed & d & Hurl & Hd & ->).
    exists parsed, d. cbn zeta.
    cbn [details riskScore domain content network navigation].
    pose proof (analyzeDomain_bounds u Hd).
    pose proof (analyzeContent_bounds page).
    pose proof (analyzeNetworkRequests_bounds (recorded w (hostname parsed))).
    pose proof (classifyNavigation_bounds (navigationError w)).
    split; [exact Hurl | ]. split; [exact Hd | ].
    split; [reflexivity | ]. split; [reflexivity | ].
    split; [reflexivity | ]. split; [reflexivity | ].
    split; [reflexivity | ]. split; [lia | ].
    split; [lia | ]. split; [lia | ]. split; lia.
  - intros w u options r Hr.
    apply analyzeUrl_inv in Hr as (_ & _ & page & h & Hpage & Hh & ->).
    apply heuristicResult_explicit in Hh as (parsed & d & Hurl & Hd & ->).
    exists page, parsed, d.
    split; [exact Hpage | ]. split; [exact Hurl | ]. split; [exact Hd | ].
    destruct (withAI_url_details w page options
                (mkAnalysisResult u
                   (num_of_Z
                      (Z.min
                         (score d + score (analyzeContent page) +
                          net_score
                            (analyzeNetworkRequests
                               (recorded w (hostname parsed))) +
                          nav_score (classifyNavigation (navigationError w)))
                         100))
                   (Some
                      (determineRiskLevel
                         (Z.min
                            (score d + score (analyzeContent page) +
                             net_score
                               (analyzeNetworkRequests
                                  (recorded w (hostname parsed))) +
                             nav_score
                               (classifyNavigation (navigationError w)))
                            100)))
                   (if not_false (takeScreenshot options)
                    then captured w else None)
                   (mkDetails d (analyzeContent page)
                      (analyzeNetworkRequests (recorded w (hostname parsed)))
                      (classifyNavigation (navigationError w)))
                   (elapsed w) (timestamp w) None))
      as (_ & Hdet & _).
    rewrite Hdet. reflexivity.
Qed.

(** C6. For every valid URL the quick check gives the score of the Domain
    Analyzer and the level that determineRiskLevel gives that score, and
    the full path stores the same score for its domain component. *)
Theorem C6_quick_check_agrees_with_full_path :
  forall u,
    isValidUrl u = true ->
    exists q d,
      quickCheck u = Normal q /\
      analyzeDomain u = Normal d /\
      qc_valid q = true /\
      qc_riskScore q = score d /\
      qc_riskLevel q = determineRiskLevel (score d) /\
      (forall w page options h,
         heuristicResult w page u options = Normal h ->
         score (domain (details h)) = qc_riskScore q /\
         determineRiskLevel (score (domain (details h))) = qc_riskLevel q) /\
      (forall w options r,
         analyzeUrl w u options = Normal r ->
         score (domain (details r)) = qc_riskScore q /\
         determineRiskLevel (score (domain (details r))) = qc_riskLevel q).
Proof.
  intros u Hvalid.
  destruct (quickCheck_total u) as (q & Hq & _ & Hv & _ & Hok).
  destruct (Hok Hvalid) as (d & Hd & Hs & Hl & _).
  assert (Hfull : forall w page options h,
             heuristicResult w page u options = Normal h ->
             score (domain (details h)) = qc_riskScore q /\
             determineRiskLevel (score (domain (details h))) = qc_riskLevel q).
  { intros w page options h Hh.
    apply heuristicResult_inv in Hh as (d' & requests & Hd' & Hdetails & _).
    rewrite Hd in Hd'. injection Hd' as <-.
    rewrite Hdetails. cbn [domain]. rewrite Hs, Hl. auto. }
  exists q, d.
  split; [exact Hq | ]. split; [exact Hd | ]. split; [congruence | ].
  split; [exact Hs | ]. split; [exact Hl | ]. split; [exact Hfull | ].
  intros w options r Hr.
  apply analyzeUrl_inv in Hr as (_ & _ & page & h & _ & Hh & ->).
  destruct (withAI_url_details w page options h) as (_ & Hdet & _).
  rewrite Hdet. apply (Hfull w page options h Hh).
Qed.
(* ---------------------------------------------------------------- *)
(** ** The batch route *)

Open Scope nat_scope.

Lemma quickCheck_result_eq (u : jsstring) :
  quickCheck u = Normal (quickCheck_result u).
Proof.
  unfold quickCheck_result.
  destruct (quickCheck_total u) as (q & Hq & _). now rewrite Hq.
Qed.

Lemma quickCheck_result_invalid (u : jsstring) :
  isValidUrl u = false ->
  quickCheck_result u =
  mkQuickCheckResult u false 0 (js "unknown") None InvalidFormat.
Proof.
  intro H. unfold quickCheck_result, quickCheck. now rewrite H.
Qed.

Lemma quickCheck_result_valid (u : jsstring) :
  qc_valid (quickCheck_result u) = isValidUrl u.
Proof.
  destruct (quickCheck_total u) as (q & Hq & _ & Hv & _).
  rewrite quickCheck_result_eq in Hq. injection Hq as <-. exact Hv.
Qed.

Lemma mapM_quickCheck (urls : list jsstring) :
  mapM quickCheck urls = Normal (map quickCheck_result urls).
Proof.
  induction urls as [ | u urls IH]; simpl; [reflexivity | ].
  now rewrite quickCheck_result_eq, IH.
Qed.

(** The level of a result is one of the three levels exactly when the URL
    is valid; the level of an invalid one is unknown. *)
Lemma quickCheck_result_level (u : jsstring) :
  (isValidUrl u = true /\
   exists l, qc_riskLevel (quickCheck_result u) = Spec.level_name l) \/
  (isValidUrl u = false /\ qc_riskLevel (quickCheck_result u) = js "unknown").
Proof.
  destruct (isValidUrl u) eqn:Hvalid.
  - left. split; [reflexivity | ].
    destruct (quickCheck_total u) as (q & Hq & _ & _ & _ & Hok).
    rewrite quickCheck_result_eq in Hq. injection Hq as <-.
    destruct (Hok Hvalid) as (d & _ & _ & -> & _).
    destruct (determineRiskLevel_cases (score d)) as [[_ E] | [[_ E] | [_ E]]];
      rewrite E;
      [exists Spec.Safe | exists Spec.Warning | exists Spec.Danger];
      reflexivity.
  - right. split; [reflexivity | ].
    now rewrite quickCheck_result_invalid.
Qed.

Lemma batchCheck_eq (urls : list jsstring) :
  batchCheck urls =
  Normal
    (mkBatchData (length urls) (map quickCheck_result urls)
       (tally (map quickCheck_result urls))).
Proof.
  unfold batchCheck. rewrite mapM_quickCheck. reflexivity.
Qed.

Lemma length_filter_cons {A} (p : A -> bool) (x : A) (l : list A) :
  length (filter p (x :: l)) = (if p x then 1 else 0) + length (filter p l).
Proof. simpl. destruct (p x); reflexivity. Qed.

(** Decides the comparisons of two string literals in the goal. *)
Ltac decide_str_eqb :=
  repeat match goal with
         | |- context [str_eqb ?a ?b] =>
             let v := eval vm_compute in (str_eqb a b) in
             change (str_eqb a b) with v
         end.

Lemma tally_partition (urls : list jsstring) :
  let t := tally (map quickCheck_result urls) in
  safe t + warning t + danger t + invalid t = length urls /\
  invalid t = length (filter (fun u => negb (isValidUrl u)) urls).
Proof.
  induction urls as [ | u urls [IH1 IH2]]; [split; reflexivity | ].
  unfold tally, count_level in *. cbn [map safe warning danger invalid] in *.
  rewrite !length_filter_cons, quickCheck_result_valid.
  destruct (quickCheck_result_level u) as [[Hv [l Hl]] | [Hv Hl]];
    rewrite Hv, Hl; cbn [negb].
  - destruct l; decide_str_eqb; cbn [length]; cbv iota; split; lia.
  - decide_str_eqb; cbn [length]; cbv iota; split; lia.
Qed.

Lemma tally_insert (before after : list QuickCheckResult)
    (q : QuickCheckResult) :
  qc_valid q = false ->
  qc_riskLevel q = js "unknown" ->
  tally (before ++ q :: after) =
  mkBatchSummary (safe (tally (before ++ after)))
    (warning (tally (before ++ after))) (danger (tally (before ++ after)))
    (S (invalid (tally (before ++ after)))).
Proof.
  intros Hv Hl. unfold tally, count_level.
  cbn [safe warning danger invalid].
  repeat rewrite filter_app. repeat rewrite length_app.
  rewrite !length_filter_cons, Hv, Hl. decide_str_eqb. cbn [negb].
  cbv iota. f_equal; lia.
Qed.

(** C7. Every URL of a batch gets exactly one result, at its own place;
    total is the number of URLs; the summary counts the results of each
    level and the URLs that are not valid, and the four counts add up to
    total; a URL that is not valid takes nothing from the others: with it
    the batch has the same results and the same three level counts as
    without it, plus its own result, counted as invalid. The route answers
    a request of at most ten URLs with these data. *)
Theorem C7_batch_check_tallies_every_url :
  (forall urls,
     exists d,
       batchCheck urls = Normal d /\
       total d = length urls /\
       length (results d) = length urls /\
       Forall2 (fun u q => quickCheck u = Normal q /\ qc_url q = u)
         urls (results d) /\
       safe (summary d) = count_level "safe" (results d) /\
       warning (summary d) = count_level "warning" (results d) /\
       danger (summary d) = count_level "danger" (results d) /\
       invalid (summary d) =
         length (filter (fun u => negb (isValidUrl u)) urls) /\
       safe (summary d) + warning (summary d) + danger (summary d) +
       invalid (summary d) = total d) /\
  (forall before bad after d,
     isValidUrl bad = false ->
     batchCheck (before ++ after) = Normal d ->
     batchCheck (before ++ bad :: after) =
     Normal
       (mkBatchData (S (total d))
          (firstn (length before) (results d) ++
           mkQuickCheckResult bad false 0 (js "unknown") None InvalidFormat ::
           skipn (length before) (results d))
          (mkBatchSummary (safe (summary d)) (warning (summary d))
             (danger (summary d)) (S (invalid (summary d)))))) /\
  (forall urls,
     length urls <= 10 ->
     exists d,
       batchCheck urls = Normal d /\
       post_batch_check (Some urls) = Success d).
Proof.
  split; [ | split].
  - intro urls. eexists. split; [apply batchCheck_eq | ].
    cbn [total results summary].
    destruct (tally_partition urls) as [Hsum Hinv].
    repeat split; auto.
    + apply length_map.
    + clear Hsum Hinv. induction urls as [ | u urls IH]; constructor.
      * split; [apply quickCheck_result_eq | ].
        destruct (quickCheck_total u) as (q & Hq & Hu & _).
        rewrite quickCheck_result_eq in Hq. injection Hq as <-. exact Hu.
      * apply IH.
  - intros before bad after d Hbad Hd.
    rewrite batchCheck_eq in Hd. injection Hd as <-.
    rewrite batchCheck_eq. cbn [total results summary].
    rewrite !map_app. cbn [map].
    rewrite quickCheck_result_invalid by exact Hbad.
    rewrite tally_insert by reflexivity.
    rewrite !length_app. cbn [length].
    rewrite <- (length_map quickCheck_result before) at 3 4.
    rewrite firstn_app, skipn_app, Nat.sub_diag, firstn_all, skipn_all.
    cbn [firstn skipn app]. rewrite app_nil_r.
    do 2 f_equal. lia.
  - intros urls Hlen. eexists. split; [apply batchCheck_eq | ].
    unfold post_batch_check. rewrite batchCheck_eq.
    destruct (Nat.ltb_spec 10 (length urls)); [lia | reflexivity].
Qed.

(* ---------------------------------------------------------------- *)
(** ** The Network Analyzer *)

Lemma visit_unparsable (c : Collected) (req : Request) :
  new_URL (req_url req) = None -> visit c req = c.
Proof. intro H. unfold visit. now rewrite H. Qed.

(** C10. A request record whose url does not parse never makes the
    Network Analyzer throw: it is skipped, and gives nothing to the set of
    host names, to the suspicious scripts, to the issues or to the score;
    it is counted in requestCount all the same. *)
Theorem C10_unparsable_request_is_skipped :
  forall before req after,
    new_URL (req_url req) = None ->
    let with_it := analyzeNetworkRequests (before ++ req :: after) in
    let without := analyzeNetworkRequests (before ++ after) in
    fold_left visit (before ++ req :: after) (mkCollected [] []) =
      fold_left visit (before ++ after) (mkCollected [] []) /\
    externalDomains with_it = externalDomains without /\
    net_issues with_it = net_issues without /\
    net_score with_it = net_score without /\
    requestCount with_it = S (requestCount without).
Proof.
  intros before req after Hreq.
  assert (Hfold :
    fold_left visit (before ++ req :: after) (mkCollected [] []) =
    fold_left visit (before ++ after) (mkCollected [] [])).
  { rewrite !fold_left_app. cbn [fold_left].
    now rewrite visit_unparsable. }
  cbv zeta. unfold analyzeNetworkRequests.
  cbn [externalDomains net_issues net_score requestCount].
  rewrite Hfold. repeat split.
  rewrite !length_app. cbn [length]. lia.
Qed.

End Heuristics.

(* ================================================================== *)
(** * The AI fusion engine *)

Section Fusion.

Context {runtime : Runtime}.

Open Scope Z_scope.

Lemma score_range_spec (n : Z) : 0 <= n <= 100 -> In n score_range.
Proof.
  intro H. unfold score_range. apply in_map_iff.
  exists (Z.to_nat n). split; [lia | ]. apply in_seq. lia.
Qed.

Lemma blend_table : blend_table_agrees = true.
Proof. vm_compute. reflexivity. Qed.

(** On integer scores between 0 and 100 the binary64 computation of the
    code gives the integer nearest to the exact blend. *)
Lemma blend_exact (h a : Z) :
  0 <= h <= 100 -> 0 <= a <= 100 ->
  blend h a = num_of_Z (nearest_blend h a).
Proof.
  intros Hh Ha. pose proof blend_table as T. unfold blend_table_agrees in T.
  rewrite forallb_forall in T. specialize (T h (score_range_spec Hh)).
  rewrite forallb_forall in T. specialize (T a (score_range_spec Ha)).
  now apply FloatAxioms.Leibniz.eqb_spec.
Qed.

Lemma nearest_blend_spec (h a : Z) :
  10 * nearest_blend h a - 5 <= 4 * h + 6 * a < 10 * nearest_blend h a + 5.
Proof.
  unfold nearest_blend.
  pose proof (Z.div_mod (4 * h + 6 * a + 5) 10 ltac:(lia)).
  pose proof (Z.mod_pos_bound (4 * h + 6 * a + 5) 10 ltac:(lia)).
  lia.
Qed.

(** The fields of a result that took the AI verdict in. *)
Lemma merge_participating (h : AnalysisResult) (r : AiResult) (ai : Analysis) :
  enabled r = true ->
  analysis r = Some (Verdict ai) ->
  mergeAnalysisResults h r =
  with_fusion h
    (Math_round (riskScore h * 0.4 + ai_riskScore ai * 0.6)%float)
    (find
       (fun key =>
          strict_equals (get riskLevels key)
            (Math_max
               (ToNumber (or_zero (get riskLevels (property_key (riskLevel h)))))
               (ToNumber
                  (or_zero (get riskLevels (property_key (ai_riskLevel ai)))))))
       (Object_keys riskLevels))
    (Merged
       (mkAiSummary true (model r) (ai_riskScore ai) (ai_riskLevel ai)
          (ai_summary ai) (ai_findings ai) (ai_recommendations ai)
          (ai_confidence ai))).
Proof.
  intros He Ha. unfold mergeAnalysisResults, truthy_analysis.
  now rewrite He, Ha.
Qed.

(** C1. When the AI verdict takes part, the fused riskScore is
    round(heuristicScore * 0.4 + aiScore * 0.6), which on integer scores
    between 0 and 100 is the integer nearest to the exact blend, and the
    fused riskLevel is the more severe of the two levels under
    safe < warning < danger, whatever the fused score; a heuristic 20 (safe)
    with an AI 90 (danger) gives 62 and danger, where the threshold of 62
    alone would say warning. *)
Theorem C1_fusion_is_weighted_round_and_max_level :
  forall (h : AnalysisResult) (r : AiResult) (ai : Analysis),
    enabled r = true ->
    analysis r = Some (Verdict ai) ->
    let fused := mergeAnalysisResults h r in
    riskScore fused =
      Math_round (riskScore h * 0.4 + ai_riskScore ai * 0.6)%float /\
    (forall hs as_ : Z,
       0 <= hs <= 100 -> 0 <= as_ <= 100 ->
       riskScore h = num_of_Z hs -> ai_riskScore ai = num_of_Z as_ ->
       exists n,
         riskScore fused = num_of_Z n /\
         10 * n - 5 <= 4 * hs + 6 * as_ < 10 * n + 5) /\
    (forall hl al : Spec.Level,
       riskLevel h = Some (Spec.level_name hl) ->
       ai_riskLevel ai = Some (Spec.level_name al) ->
       riskLevel fused = Some (Spec.level_name (Spec.more_severe hl al))) /\
    (riskScore h = num_of_Z 20 -> riskLevel h = Some (js "safe") ->
     ai_riskScore ai = num_of_Z 90 -> ai_riskLevel ai = Some (js "danger") ->
     riskScore fused = num_of_Z 62 /\
     riskLevel fused = Some (js "danger") /\
     determineRiskLevel 62 = js "warning").
Proof.
  intros h r ai He Ha fused. subst fused.
  rewrite (@merge_participating h r ai He Ha). cbn [riskScore riskLevel with_fusion].
  split; [reflexivity | ]. split; [ | split].
  - intros hs as_ Hhs Has Eh Ea. exists (nearest_blend hs as_).
    split; [ | apply nearest_blend_spec].
    rewrite Eh, Ea. now apply blend_exact.
  - intros hl al Eh Ea. rewrite Eh, Ea.
    destruct hl, al; vm_compute; reflexivity.
  - intros Es El Eas Eal. rewrite Es, El, Eas, Eal.
    repeat split; vm_compute; reflexivity.
Qed.

(** The result analyzeWithAI returns says why, whenever it is not enabled;
    when it is enabled it carries the parsed verdict. *)
Lemma analyzeWithAI_cases (service : AiService) :
  (enabled (analyzeWithAI service) = false /\
   analysis (analyzeWithAI service) = None /\
   (reason (analyzeWithAI service) <> None \/
    error (analyzeWithAI service) <> None)) \/
  (exists content usage,
     answer service = Body (Some content) usage /\
     analyzeWithAI service =
     mkAiResult true (Some MODEL_NAME) (Some (parseAIResponse content))
       usage None None).
Proof.
  unfold analyzeWithAI, not_enabled.
  destruct (apiKey service) as [key | ];
    [ | left; simpl; repeat split; left; discriminate].
  destruct (nonempty key); cbn [negb];
    [ | left; simpl; repeat split; left; discriminate].
  destruct (answer service) as [m | st t | [content | ] usage];
    try (left; simpl; repeat split; right; discriminate).
  destruct (nonempty content); cbn [negb];
    [ | left; simpl; repeat split; right; discriminate].
  right. eauto.
Qed.

(** The fields of a result whose AI result did not take part in the
    fusion. *)
Lemma merge_not_participating (h : AnalysisResult) (r : AiResult) :
  enabled r = false \/ truthy_analysis r = None ->
  mergeAnalysisResults h r =
  with_fusion h (riskScore h) (riskLevel h) (NotMerged r).
Proof.
  intro Hr. unfold mergeAnalysisResults.
  assert (E : (if enabled r then truthy_analysis r else None) = None).
  { destruct Hr as [-> | Ha]; [reflexivity | ].
    rewrite Ha. now destruct (enabled r). }
  now rewrite E.
Qed.

(** C2, as the code has it. When the AI did not take part (it is switched
    off by the useAI option, its result is not enabled, or the analysis of
    an enabled result is falsy because the answer parsed to null, false, 0
    or the empty string), the final result has the riskScore and the
    riskLevel of the heuristic result. mergeAnalysisResults, given an AI
    result that is not enabled or has no truthy analysis, changes nothing
    else and attaches that AI result as aiAnalysis. analyzeUrl calls it
    only for an enabled result: with the AI switched off or with a result
    that is not enabled, whose reason or error says why, it returns the
    heuristic result itself, which has no aiAnalysis field; with an enabled
    result whose analysis is falsy the aiAnalysis field is that result,
    which holds neither reason nor error. *)
Theorem C2_without_ai_the_heuristic_verdict_stands :
  (forall h r,
     enabled r = false \/ truthy_analysis r = None ->
     let final := mergeAnalysisResults h r in
     riskScore final = riskScore h /\
     riskLevel final = riskLevel h /\
     aiAnalysis final = Some (NotMerged r) /\
     url final = url h /\ screenshot final = screenshot h /\
     details final = details h /\ analysisTime final = analysisTime h /\
     analyzedAt final = analyzedAt h) /\
  (forall service,
     (enabled (analyzeWithAI service) = false ->
      analysis (analyzeWithAI service) = None /\
      (reason (analyzeWithAI service) <> None \/
       error (analyzeWithAI service) <> None)) /\
     (enabled (analyzeWithAI service) = true ->
      reason (analyzeWithAI service) = None /\
      error (analyzeWithAI service) = None)) /\
  (forall w page options h,
     (not_false (useAI options) = false \/
      enabled (analyzeWithAI (service w)) = false ->
      withAI w page options h = h) /\
     (not_false (useAI options) = true ->
      enabled (analyzeWithAI (service w)) = true ->
      truthy_analysis (analyzeWithAI (service w)) = None ->
      withAI w page options h =
      with_fusion h (riskScore h) (riskLevel h)
        (NotMerged (analyzeWithAI (service w))))) /\
  (forall w u options r,
     analyzeUrl w u options = Normal r ->
     not_false (useAI options) = false \/
     enabled (analyzeWithAI (service w)) = false \/
     truthy_analysis (analyzeWithAI (service w)) = None ->
     exists page h,
       launched w = Normal page /\
       heuristicResult w page u options = Normal h /\
       aiAnalysis h = None /\
       riskScore r = riskScore h /\
       riskLevel r = riskLevel h /\
       url r = url h /\ screenshot r = screenshot h /\
       details r = details h /\
       aiAnalysis r =
         (if not_false (useAI options) &&
             enabled (analyzeWithAI (service w))
          then Some (NotMerged (analyzeWithAI (service w)))
          else None)).
Proof.
  assert (Hstep : forall w page options h,
     (not_false (useAI options) = false \/
      enabled (analyzeWithAI (service w)) = false ->
      withAI w page options h = h) /\
     (not_false (useAI options) = true ->
      enabled (analyzeWithAI (service w)) = true ->
      truthy_analysis (analyzeWithAI (service w)) = None ->
      withAI w page options h =
      with_fusion h (riskScore h) (riskLevel h)
        (NotMerged (analyzeWithAI (service w))))).
  { intros w page options h. unfold withAI. split.
    - intros [-> | ->]; [reflexivity | ].
      now destruct (not_false (useAI options)).
    - intros -> -> Ha. apply merge_not_participating. now right. }
  split; [ | split; [ | split; [exact Hstep | ]]].
  - intros h r Hr. cbn zeta. rewrite (@merge_not_participating h r Hr).
    cbn. repeat split.
  - intro service.
    destruct (analyzeWithAI_cases service)
      as [(He & Ha & H) | (c & u & _ & E)].
    + split; [auto | ]. rewrite He. discriminate.
    + rewrite E. cbn. split; [discriminate | auto].
  - intros w u options r Hr Hno.
    apply analyzeUrl_inv in Hr as (_ & _ & page & h & Hpage & Hh & ->).
    exists page, h. split; [exact Hpage | ]. split; [exact Hh | ].
    assert (Hnone : aiAnalysis h = None).
    { now apply heuristicResult_inv in Hh
        as (_ & _ & _ & _ & _ & _ & _ & H). }
    split; [exact Hnone | ].
    destruct (Hstep w page options h) as (Hsame & Hfalsy).
    destruct (not_false (useAI options)) eqn:Hu; cbn [andb].
    + destruct (enabled (analyzeWithAI (service w))) eqn:He.
      * destruct Hno as [Hno | [Hno | Hno]]; try discriminate.
        rewrite (Hfalsy eq_refl eq_refl Hno). cbn. repeat split.
      * rewrite Hsame by (now right). rewrite Hnone. repeat split.
    + rewrite Hsame by (now left). rewrite Hnone. repeat split.
Qed.

(** The AI step on a service that answers with a content. *)
Lemma analyzeWithAI_body (key content : jsstring) (usage : option jsstring) :
  nonempty key = true ->
  nonempty content = true ->
  analyzeWithAI (mkAiService (Some key) (Body (Some content) usage)) =
  mkAiResult true (Some MODEL_NAME) (Some (parseAIResponse content)) usage
    None None.
Proof.
  intros Hkey Hcontent. unfold analyzeWithAI. cbn [apiKey answer].
  now rewrite Hkey, Hcontent.
Qed.

(** analyzeUrl returns whenever the URL is valid, the page opens and the
    browser closes. *)
Lemma analyzeUrl_returns (w : Sandbox) (page : Page) (u : jsstring)
    (options : Options) :
  isValidUrl u = true ->
  launched w = Normal page ->
  closing w = None ->
  exists h,
    heuristicResult w page u options = Normal h /\
    analyzeUrl w u options = Normal (withAI w page options h).
Proof.
  intros Hv Hpage Hclose.
  destruct (isValidUrl_parsed u Hv) as (parsed & Hurl & _).
  destruct (analyzeDomain_score u Hurl) as (d & Hd & _).
  assert (Hh : exists h, heuristicResult w page u options = Normal h).
  { unfold heuristicResult. rewrite Hurl. cbn [bind]. rewrite Hd.
    cbn [bind]. eauto. }
  destruct Hh as (h & Hh). exists h. split; [exact Hh | ].
  unfold analyzeUrl, finally. rewrite Hv, Hclose, Hpage. cbn [negb bind].
  now rewrite Hh.
Qed.

(** C8, as the code has it. A response text on which JSON.parse throws
    does not make the parser throw: it returns the fallback verdict, with
    riskScore 50, riskLevel warning, confidence 30 and one finding, of
    category suspicious and severity medium, and the analysis goes on with
    it: analyzeUrl returns a result whose riskScore is the blend of the
    heuristic score with 50 and whose aiAnalysis carries the confidence 30
    and the one finding. A text that JSON.parse accepts is returned as it
    was parsed, whatever its shape: there is no fallback then. *)
Theorem C8_unparsable_response_gives_the_fallback_verdict :
  forall content,
    (JSON_parse (jsonStr content) = None ->
     parseAIResponse content = Verdict (fallback content)) /\
    (forall v,
       JSON_parse (jsonStr content) = Some v -> parseAIResponse content = v) /\
    (ai_riskScore (fallback content) = 50%float /\
     ai_riskLevel (fallback content) = Some (js "warning") /\
     ai_confidence (fallback content) = 30%float /\
     ai_findings (fallback content) =
       [ mkFinding (js "suspicious") (js "medium") unparsable_description ] /\
     ai_rawResponse (fallback content) = Some content) /\
    (forall key usage,
       nonempty key = true -> nonempty content = true ->
       analyzeWithAI (mkAiService (Some key) (Body (Some content) usage)) =
       mkAiResult true (Some MODEL_NAME) (Some (parseAIResponse content))
         usage None None) /\
    (forall w page u options key usage,
       JSON_parse (jsonStr content) = None ->
       service w = mkAiService (Some key) (Body (Some content) usage) ->
       nonempty key = true -> nonempty content = true ->
       not_false (useAI options) = true ->
       isValidUrl u = true ->
       launched w = Normal page ->
       closing w = None ->
       exists h final,
         heuristicResult w page u options = Normal h /\
         analyzeUrl w u options = Normal final /\
         riskScore final = Math_round (riskScore h * 0.4 + 50 * 0.6)%float /\
         url final = u /\ details final = details h /\
         exists s,
           aiAnalysis final = Some (Merged s) /\
           sum_score s = 50%float /\
           sum_level s = Some (js "warning") /\
           sum_confidence s = 30%float /\
           sum_findings s =
             [ mkFinding (js "suspicious") (js "medium")
                 unparsable_description ]).
Proof.
  intro content.
  assert (Hthrow : JSON_parse (jsonStr content) = None ->
                   parseAIResponse content = Verdict (fallback content)).
  { intro H. unfold parseAIResponse. now rewrite H. }
  split; [exact Hthrow | ]. split; [ | split; [ | split]].
  - intros v H. unfold parseAIResponse. now rewrite H.
  - repeat split.
  - intros key usage. apply analyzeWithAI_body.
  - intros w page u options key usage Hparse Hservice Hkey Hcontent Huse
      Hv Hpage Hclose.
    destruct (@analyzeUrl_returns w page u options Hv Hpage Hclose)
      as (h & Hh & Hrun).
    exists h, (withAI w page options h).
    split; [exact Hh | ]. split; [exact Hrun | ].
    assert (Hu : url h = u).
    { now apply heuristicResult_inv in Hh
        as (_ & _ & _ & _ & _ & _ & H & _). }
    unfold withAI. rewrite Huse, Hservice.
    rewrite (@analyzeWithAI_body key content usage Hkey Hcontent). cbn [enabled].
    rewrite (Hthrow Hparse).
    rewrite (@merge_participating h
               (mkAiResult true (Some MODEL_NAME)
                  (Some (Verdict (fallback content))) usage None None)
               (fallback content) eq_refl eq_refl).
    cbn [riskScore url details aiAnalysis with_fusion fallback ai_riskScore].
    split; [reflexivity | ]. split; [exact Hu | ]. split; [reflexivity | ].
    eexists. split; [reflexivity | ]. repeat split.
Qed.

(** A key that is an own property of [riskLevels] or is nowhere on its
    prototype chain gets the severity of its level, 0 when it names none. *)
Lemma or_zero_get_riskLevels (level : option jsstring) :
  str_in (property_key level) Object_prototype = false ->
  or_zero (get riskLevels (property_key level)) =
  VNumber (num_of_Z (Z.of_nat (Spec.rank (Spec.severity level)))).
Proof.
  intro Hproto. unfold get, riskLevels, own_property. rewrite Hproto.
  unfold Spec.severity.
  destruct level as [s | ]; cbn [property_key]; [ | vm_compute; reflexivity].
  destruct (str_eqb (js "safe") s) eqn:Es.
  - apply HostFacts.str_eqb_eq in Es. subst s. vm_compute. reflexivity.
  - destruct (str_eqb (js "warning") s) eqn:Ew.
    + apply HostFacts.str_eqb_eq in Ew. subst s. vm_compute. reflexivity.
    + destruct (str_eqb (js "danger") s) eqn:Ed.
      * apply HostFacts.str_eqb_eq in Ed. subst s. vm_compute. reflexivity.
      * assert (Hw : str_eqb s (js "warning") = false).
        { apply HostFacts.str_eqb_neq. apply HostFacts.str_eqb_neq in Ew.
          congruence. }
        assert (Hd : str_eqb s (js "danger") = false).
        { apply HostFacts.str_eqb_neq. apply HostFacts.str_eqb_neq in Ed.
          congruence. }
        rewrite Hw, Hd. vm_compute. reflexivity.
Qed.

(** Away from the names of [Object.prototype] the fusion of the levels is
    total: any other string, and an absent level, count as safe, and the
    fused level is the more severe of the two. *)
Lemma fusion_level_off_prototype (h : AnalysisResult) (r : AiResult)
    (ai : Analysis) :
  enabled r = true ->
  analysis r = Some (Verdict ai) ->
  str_in (property_key (riskLevel h)) Object_prototype = false ->
  str_in (property_key (ai_riskLevel ai)) Object_prototype = false ->
  riskLevel (mergeAnalysisResults h r) =
  Some
    (Spec.level_name
       (Spec.more_severe (Spec.severity (riskLevel h))
          (Spec.severity (ai_riskLevel ai)))).
Proof.
  intros He Ha Hh Hai.
  rewrite (@merge_participating h r ai He Ha). cbn [riskLevel with_fusion].
  rewrite (or_zero_get_riskLevels _ Hh), (or_zero_get_riskLevels _ Hai).
  destruct (Spec.severity (riskLevel h)), (Spec.severity (ai_riskLevel ai));
    vm_compute; reflexivity.
Qed.

(** C9, at the inputs where the code departs from it. A level string that
    names a member of Object.prototype ("constructor", "toString", ...) is
    not a key of riskLevels, but the object inherits the member, so the
    lookup gives it; it is truthy and is not replaced by 0, its numeric
    value is NaN, no key has that severity, and the fused riskLevel is
    undefined: outside the three levels, whatever the heuristic level was. *)
Theorem C9_inherited_key_leaves_the_level_undefined :
  forall (h : AnalysisResult) (r : AiResult) (ai : Analysis)
         (hl : Spec.Level) (name : jsstring),
    enabled r = true ->
    analysis r = Some (Verdict ai) ->
    riskLevel h = Some (Spec.level_name hl) ->
    ai_riskLevel ai = Some name ->
    In name Object_prototype ->
    or_zero (get riskLevels name) = VInherited name /\
    is_nan
      (Math_max (ToNumber (or_zero (get riskLevels (Spec.level_name hl))))
         (ToNumber (or_zero (get riskLevels name)))) = true /\
    riskLevel (mergeAnalysisResults h r) = None.
Proof.
  intros h r ai hl name He Ha Hh Hai Hin.
  rewrite (@merge_participating h r ai He Ha). cbn [riskLevel with_fusion].
  rewrite Hh, Hai. cbn [property_key].
  unfold Object_prototype in Hin. cbn [In] in Hin.
  repeat (destruct Hin as [<- | Hin];
          [destruct hl; repeat split; vm_compute; reflexivity | ]).
  contradiction.
Qed.

End Fusion.

(* ================================================================== *)
(** * The theorems at the sample inputs *)

Lemma C1_fusion_example :
  riskScore (mergeAnalysisResults Sample.heuristic Sample.ai_result) = 62%float /\
  riskLevel (mergeAnalysisResults Sample.heuristic Sample.ai_result) =
    Some (js "danger") /\
  determineRiskLevel 62 = js "warning".
Proof.
  destruct (@C1_fusion_is_weighted_round_and_max_level
              Sample.heuristic Sample.ai_result Sample.verdict
              eq_refl eq_refl) as (_ & _ & _ & H).
  apply H; reflexivity.
Defined.

Lemma C2_no_key_example :
  @withAI Sample.runtime Sample.sandbox Sample.page Sample.options
    Sample.heuristic = Sample.heuristic /\
  exists final h,
    @analyzeUrl Sample.runtime (Sample.sandbox_answering (js "null"))
      Sample.address Sample.options = Normal final /\
    @heuristicResult Sample.runtime (Sample.sandbox_answering (js "null"))
      Sample.page Sample.address Sample.options = Normal h /\
    riskScore final = riskScore h /\
    riskLevel final = riskLevel h.
Proof.
  destruct (@C2_without_ai_the_heuristic_verdict_stands Sample.runtime)
    as (_ & _ & Hstep & Hrun).
  split.
  - apply (Hstep Sample.sandbox Sample.page Sample.options Sample.heuristic).
    right. reflexivity.
  - assert (E : @analyzeUrl Sample.runtime
                  (Sample.sandbox_answering (js "null")) Sample.address
                  Sample.options =
                Normal
                  (@withAI Sample.runtime
                     (Sample.sandbox_answering (js "null")) Sample.page
                     Sample.options Sample.heuristic_of_address))
      by (vm_compute; reflexivity).
    destruct (Hrun _ _ _ _ E) as (page & h & Hpage & Hh & _ & Hs & Hl & _).
    + right. right. reflexivity.
    + injection Hpage as <-. eauto 10.
Defined.

(** The claim C2 as it is stated fails here. With no API key the AI result
    is not enabled and says why, and the result of analyzeUrl has no
    aiAnalysis field at all. With an answer that parses to null the result
    has an aiAnalysis field, the enabled AI result without analysis, which
    records no reason and no error. *)
Lemma C2_no_aiAnalysis_field_without_key :
  enabled (@analyzeWithAI Sample.runtime (service Sample.sandbox)) = false /\
  reason (@analyzeWithAI Sample.runtime (service Sample.sandbox)) =
    Some KeyNotSet /\
  @analyzeUrl Sample.runtime Sample.sandbox Sample.address Sample.options =
    Normal Sample.heuristic_of_address /\
  aiAnalysis Sample.heuristic_of_address = None /\
  exists final,
    @analyzeUrl Sample.runtime (Sample.sandbox_answering (js "null"))
      Sample.address Sample.options = Normal final /\
    riskScore final = riskScore Sample.heuristic_of_address /\
    riskLevel final = riskLevel Sample.heuristic_of_address /\
    aiAnalysis final =
      Some
        (NotMerged
           (mkAiResult true (Some MODEL_NAME) (Some (FalsyValue JsonNull))
              None None None)).
Proof.
  split; [reflexivity | ]. split; [reflexivity | ].
  split; [reflexivity | ]. split; [reflexivity | ].
  eexists. split; [vm_compute; reflexivity | ]. repeat split.
Qed.


Lemma C4_ip_literal_example :
  exists s,
    @analyzeDomain Sample.runtime (js "https://192.0.2.10/login") = Normal s /\
    score s = 25%Z /\
    issues s = [IpDirectAccess] /\
    determineRiskLevel (score s) = js "safe".
Proof.
  destruct (@C4_domain_score_is_capped_sum_of_rules Sample.runtime)
    as (_ & H).
  apply H. reflexivity.
Defined.

Lemma C5_caps_example :
  score (domain (details Sample.busy_result)) = 40%Z /\
  score (content (details Sample.busy_result)) = 50%Z /\
  net_score (network (details Sample.busy_result)) = 10%Z /\
  nav_score (navigation (details Sample.busy_result)) = 10%Z /\
  riskScore Sample.busy_result = num_of_Z 100.
Proof.
  destruct (@C5_analyzer_caps_and_aggregate Sample.runtime)
    as (_ & _ & _ & _ & H & _).
  destruct (H Sample.busy_sandbox Sample.busy_page Sample.address
              Sample.options Sample.busy_result)
    as (parsed & d & Hurl & Hd & Hdom & Hcon & Hnet & Hnav & Hs & _);
    [vm_compute; reflexivity | ].
  vm_compute in Hurl, Hd.
  injection Hurl as <-. injection Hd as <-.
  rewrite Hdom, Hcon, Hnet, Hnav.
  split; [reflexivity | ]. split; [reflexivity | ].
  split; [reflexivity | ]. split; [reflexivity | exact Hs].
Defined.

Lemma C6_quick_check_example :
  exists q d,
    @quickCheck Sample.runtime Sample.address = Normal q /\
    @analyzeDomain Sample.runtime Sample.address = Normal d /\
    qc_riskScore q = score d /\
    qc_riskLevel q = determineRiskLevel (score d).
Proof.
  destruct (@C6_quick_check_agrees_with_full_path Sample.runtime
              Sample.address eq_refl)
    as (q & d & Hq & Hd & _ & Hs & Hl & _).
  exists q, d. auto.
Defined.

Lemma C7_batch_example :
  exists d,
    @batchCheck Sample.runtime Sample.batch = Normal d /\
    @post_batch_check Sample.runtime (Some Sample.batch) = Success d /\
    total d = 3 /\ invalid (summary d) = 1.
Proof.
  destruct (@C7_batch_check_tallies_every_url Sample.runtime)
    as (Hall & _ & Hroute).
  destruct (Hroute Sample.batch) as (d & Hd & Hpost);
    [vm_compute; lia | ].
  destruct (Hall Sample.batch)
    as (d' & Hd' & Htotal & _ & _ & _ & _ & _ & Hinvalid & _).
  rewrite Hd in Hd'. injection Hd' as <-.
  exists d. repeat split; auto.
Defined.

Lemma C8_truncated_answer_example :
  @parseAIResponse Sample.runtime Sample.truncated_answer =
    Verdict (fallback Sample.truncated_answer) /\
  exists h final,
    @heuristicResult Sample.runtime
      (Sample.sandbox_answering Sample.truncated_answer) Sample.page
      Sample.address Sample.options = Normal h /\
    @analyzeUrl Sample.runtime
      (Sample.sandbox_answering Sample.truncated_answer) Sample.address
      Sample.options = Normal final /\
    riskScore final = Math_round (riskScore h * 0.4 + 50 * 0.6)%float /\
    exists s,
      aiAnalysis final = Some (Merged s) /\ sum_confidence s = 30%float.
Proof.
  destruct (@C8_unparsable_response_gives_the_fallback_verdict
              Sample.runtime Sample.truncated_answer)
    as (Hthrow & _ & _ & _ & Hrun).
  split; [apply Hthrow; reflexivity | ].
  destruct (Hrun (Sample.sandbox_answering Sample.truncated_answer)
              Sample.page Sample.address Sample.options (js "sk-key") None)
    as (h & final & Hh & Hfinal & Hs & _ & _ & s & Ha & _ & _ & Hc & _);
    try reflexivity.
  exists h, final. split; [exact Hh | ]. split; [exact Hfinal | ].
  split; [exact Hs | ]. exists s. split; [exact Ha | exact Hc].
Defined.

(** The claim C8 as it is stated fails here: the answers null and {} are
    not the structured output that was asked for, yet JSON.parse accepts
    them and the parser returns them as they are, with no fallback. With
    null the final result is the heuristic verdict with an AI result that
    has no analysis; with {} the fused riskScore is NaN and the aiAnalysis
    has no confidence and no finding. *)
Lemma C8_parsed_answer_gets_no_fallback :
  @parseAIResponse Sample.runtime (js "null") = FalsyValue JsonNull /\
  @parseAIResponse Sample.runtime (js "{}") = Verdict Sample.no_properties /\
  (exists final,
     @analyzeUrl Sample.runtime (Sample.sandbox_answering (js "null"))
       Sample.address Sample.options = Normal final /\
     riskScore final = num_of_Z 40 /\
     aiAnalysis final =
       Some
         (NotMerged
            (mkAiResult true (Some MODEL_NAME) (Some (FalsyValue JsonNull))
               None None None))) /\
  (exists final s,
     @analyzeUrl Sample.runtime (Sample.sandbox_answering (js "{}"))
       Sample.address Sample.options = Normal final /\
     is_nan (riskScore final) = true /\
     aiAnalysis final = Some (Merged s) /\
     is_nan (sum_confidence s) = true /\
     sum_findings s = []).
Proof.
  split; [reflexivity | ]. split; [reflexivity | ]. split.
  - eexists. split; [vm_compute; reflexivity | ]. split; reflexivity.
  - eexists. eexists. split; [vm_compute; reflexivity | ].
    repeat split.
Qed.

Lemma C9_constructor_example :
  riskLevel (mergeAnalysisResults Sample.alarming Sample.odd_ai_result) = None.
Proof.
  destruct (@C9_inherited_key_leaves_the_level_undefined
              Sample.alarming Sample.odd_ai_result Sample.odd_verdict
              Spec.Danger (js "constructor")
              eq_refl eq_refl eq_refl eq_refl (or_introl eq_refl))
    as (_ & _ & H).
  exact H.
Defined.

Lemma C10_broken_request_example :
  requestCount
    (@analyzeNetworkRequests Sample.runtime
       [Sample.script_request; Sample.broken_request]) = 2 /\
  externalDomains
    (@analyzeNetworkRequests Sample.runtime
       [Sample.script_request; Sample.broken_request]) =
    [js "cdn.example.net"] /\
  net_score
    (@analyzeNetworkRequests Sample.runtime
       [Sample.script_request; Sample.broken_request]) = 10%Z.
Proof.
  destruct (@C10_unparsable_request_is_skipped Sample.runtime
              [Sample.script_request] Sample.broken_request [] eq_refl)
    as (_ & Hdomains & _ & Hscore & Hcount).
  cbn [app] in Hdomains, Hscore, Hcount.
  rewrite Hdomains, Hscore, Hcount. repeat split.
Defined.

(* ================================================================== *)
(** * Further examples *)

(** Two suspicious patterns in one host count once; with http and an
    explicit port the sum is exactly the cap. *)
Example domain_patterns_do_not_stack :
  @analyzeDomain Sample.runtime (js "http://paypal--secure1234.tk:8080/") =
  Normal
    (mkSignal 40
       [SuspiciousDomainPattern; NoHttps; NonStandardPort (js "8080")]).
Proof. reflexivity. Qed.

(** A bare IPv4 host with http and a port: 25 + 15 + 10 is capped at 40. *)
Example domain_score_is_capped :
  @analyzeDomain Sample.runtime (js "http://192.0.2.10:8080/") =
  Normal (mkSignal 40 [IpDirectAccess; NoHttps; NonStandardPort (js "8080")]).
Proof. reflexivity. Qed.

(** A password field and a form sent elsewhere, and nothing else, give
    10 + 25 = 35 from the Content Analyzer. *)
Example content_password_and_external_form :
  analyzeContent
    (mkPage (Normal (js "Sign in")) (Normal (mkFormInfo 1 true 0 true))
       (Normal []) ([], [])) =
  mkSignal 35 [PasswordField; ExternalFormAction].
Proof. reflexivity. Qed.

(** When the form summary cannot be read, the points of the text are kept. *)
Example content_error_keeps_points :
  analyzeContent
    (mkPage (Normal (js "Urgent: action required"))
       (Throw (Rejection (js "detached"))) (Normal []) ([], [])) =
  mkSignal 20 [PhishingPhrase; ContentError (Rejection (js "detached"))].
Proof. reflexivity. Qed.

(** The phrase patterns ignore case and do not cross a line break. *)
Example phishing_phrase_on_one_line :
  test (phrase "login" "verify") (js "Please LOGIN to Verify now") = true /\
  test (phrase "login" "verify") (js "login" ++ [10%N] ++ js "verify") = false.
Proof. split; reflexivity. Qed.

(** The text handed to JSON.parse: the inside of a fenced block, else the
    text from the first opening brace to the last closing brace, else the
    whole answer. *)
Example jsonStr_examples :
  jsonStr (json_fence ++ [10%N] ++ js "{x}" ++ [10%N] ++ fence ++ js " bye") =
    js "{x}" /\
  jsonStr (js "Sure: {x} and {y}, done") = js "{x} and {y}" /\
  jsonStr Sample.refusal = Sample.refusal.
Proof. repeat split; reflexivity. Qed.

(** The navigation outcome. *)
Example navigation_examples :
  nav_score
    (classifyNavigation (Some (js "Navigation timeout of 30000 ms exceeded")))
    = 10%Z /\
  nav_score (classifyNavigation (Some (js "net::ERR_NAME_NOT_RESOLVED"))) = 5%Z /\
  nav_score (classifyNavigation None) = 0%Z.
Proof. repeat split; reflexivity. Qed.

(** An unknown level string that is no member of [Object.prototype], and an
    absent level, count as safe. *)
Example unknown_level_counts_as_safe :
  or_zero (get riskLevels (js "critical")) = VNumber 0 /\
  or_zero (get riskLevels (property_key None)) = VNumber 0.
Proof. split; reflexivity. Qed.

(** [Math.round] on halves and on a negative fraction. *)
Example Math_round_examples :
  Math_round 2.5 = 3%float /\ Math_round (-2.5) = (-2)%float /\
  Math_round 62 = 62%float /\ Math_round 61.5 = 62%float /\
  Math_round 61.25 = 61%float.
Proof. repeat split; reflexivity. Qed.

(** An answer with a fenced JSON object is parsed; an object cut short is
    not, and gives the fallback. *)
Example parseAIResponse_examples :
  @parseAIResponse Sample.runtime Sample.fenced_answer =
    Verdict (mkAnalysis 90 (Some (js "danger")) [] [] [] nan None) /\
  @parseAIResponse Sample.runtime Sample.truncated_answer =
    Verdict (fallback Sample.truncated_answer).
Proof. split; reflexivity. Qed.

(** A whole analysis with the AI taking part: the address scores 40
    (warning) on the heuristics, the AI says 90 (danger), and the final
    result is round(40 * 0.4 + 90 * 0.6) = 70 with the level danger. *)
Example analyzeUrl_with_ai :
  exists r,
    @analyzeUrl Sample.runtime Sample.sandbox_with_ai Sample.address
      Sample.options = Normal r /\
    riskScore r = 70%float /\
    riskLevel r = Some (js "danger") /\
    details r = details Sample.heuristic_of_address.
Proof. eexists. repeat split. Qed.

(* ================================================================== *)
(** * Further properties of the code *)

(** ** Strings *)

Module StringFacts.

Lemma startsWith_spec (p : jsstring) :
  forall s, startsWith p s = true <-> exists rest, s = p ++ rest.
Proof.
  induction p as [ | x p IH]; intros s; simpl.
  - split; [intros _; now exists s | reflexivity].
  - destruct s as [ | y s].
    + split; [discriminate | intros (rest & H); discriminate].
    + rewrite andb_true_iff, N.eqb_eq, IH. split.
      * intros (-> & rest & ->). now exists rest.
      * intros (rest & H). injection H as -> ->. split; [reflexivity | ].
        now exists rest.
Qed.

Lemma includes_spec (p : jsstring) :
  forall s, includes p s = true <-> Infix p s.
Proof.
  unfold Infix. induction s as [ | c s IH].
  - simpl. rewrite orb_false_r, startsWith_spec. split.
    + intros (rest & ->). now exists [], rest.
    + intros (pre & post & H). symmetry in H.
      apply app_eq_nil in H as (-> & H). exists post. now rewrite H.
  - cbn [includes]. rewrite orb_true_iff, IH, startsWith_spec. split.
    + intros [(rest & ->) | (pre & post & ->)].
      * now exists [], rest.
      * now exists (c :: pre), post.
    + intros (pre & post & H). destruct pre as [ | x pre].
      * left. exists post. exact H.
      * right. injection H as -> ->. now exists pre, post.
Qed.

Lemma nonempty_spec (s : jsstring) : nonempty s = true <-> s <> [].
Proof. destruct s; simpl; split; congruence. Qed.

End StringFacts.

(** ** The heuristic analyzers, read from the source *)

Section MoreHeuristics.

Context {runtime : Runtime}.

Import HostFacts StringFacts.

Open Scope Z_scope.

(** The issues of analyzeDomain, one per triggered rule, in the order of
    the rules. *)
Lemma analyzeDomain_explicit (u : jsstring) (parsed : URL) :
  new_URL u = Some parsed ->
  analyzeDomain u =
  Normal
    (mkSignal
       (Z.min (pts (ip_rule parsed) 25 + pts (pattern_rule parsed) 15 +
               pts (depth_rule parsed) 10 + pts (scheme_rule parsed) 15 +
               pts (port_rule parsed) 10) 40)
       ((if ip_rule parsed then [IpDirectAccess] else []) ++
        (if pattern_rule parsed then [SuspiciousDomainPattern] else []) ++
        (if depth_rule parsed
         then [ExcessSubdomains
                 (Z.of_nat (length (split 46 (hostname parsed))) - 2)]
         else []) ++
        (if scheme_rule parsed then [NoHttps] else []) ++
        (if port_rule parsed then [NonStandardPort (port parsed)] else []))).
Proof.
  intro Hurl. unfold analyzeDomain. rewrite Hurl. rewrite scan_once.
  fold (ip_rule parsed) (pattern_rule parsed) (depth_rule parsed)
    (scheme_rule parsed) (port_rule parsed).
  destruct (ip_rule parsed), (pattern_rule parsed), (depth_rule parsed),
    (scheme_rule parsed), (port_rule parsed); reflexivity.
Qed.

(** X1. For a valid URL the quick check has no issue exactly when the score is
    0, and says that the check passed exactly then; an issue is worth at
    least 10 points, and there are at most five of them. *)
Theorem quickCheck_score_zero_iff_no_issue :
  forall u q,
    quickCheck u = Normal q ->
    qc_valid q = true ->
    exists found,
      qc_issues q = Some found /\
      (qc_riskScore q = 0 <-> found = []) /\
      (qc_message q = Passed <-> qc_riskScore q = 0) /\
      (found <> [] -> 10 <= qc_riskScore q <= 40) /\
      (length found <= 5)%nat.
Proof.
  intros u q Hq Hvalid.
  unfold quickCheck in Hq.
  destruct (isValidUrl u) eqn:Hv; cbn [negb] in Hq;
    [ | injection Hq as <-; discriminate].
  destruct (isValidUrl_parsed u Hv) as (parsed & Hurl & _).
  rewrite (analyzeDomain_explicit u Hurl) in Hq. cbn [bind] in Hq.
  injection Hq as <-. cbn [qc_issues qc_riskScore qc_message score issues].
  eexists. split; [reflexivity | ].
  destruct (ip_rule parsed), (pattern_rule parsed), (depth_rule parsed),
    (scheme_rule parsed), (port_rule parsed); cbn;
    repeat split; intros; try discriminate; try lia; try congruence.
Qed.

(** X2. quickCheck never throws; its result names the URL; a string that is
    not a valid URL gets valid = false, the score 0, the level unknown and
    no issue list, and a valid one never gets the level unknown. *)
Theorem quickCheck_never_throws :
  forall u,
    exists q,
      quickCheck u = Normal q /\
      qc_url q = u /\
      qc_valid q = isValidUrl u /\
      (qc_valid q = false <->
       q = mkQuickCheckResult u false 0 (js "unknown") None InvalidFormat) /\
      (qc_valid q = true <-> qc_riskLevel q <> js "unknown").
Proof.
  intro u. exists (quickCheck_result u).
  split; [apply quickCheck_result_eq | ].
  destruct (quickCheck_total u) as (q & Hq & Hu & Hv & Hbad & Hok).
  rewrite quickCheck_result_eq in Hq. injection Hq as <-.
  split; [exact Hu | ]. split; [exact Hv | ]. rewrite Hv.
  destruct (quickCheck_result_level u) as [[Hvalid [l Hl]] | [Hvalid Hl]];
    rewrite Hvalid.
  - split; split; try discriminate; try reflexivity.
    + intro E. rewrite E in Hv. rewrite Hvalid in Hv. discriminate.
    + intros _. rewrite Hl. destruct l; discriminate.
  - split; split; try discriminate; try reflexivity.
    + intros _. now apply Hbad.
    + intro H. now rewrite Hl in H.
Qed.

(** X3. The Domain Analyzer alone never reaches danger: the level of a quick
    check is safe, warning or unknown, and the danger count of a batch is
    always 0. *)
Theorem quickCheck_is_never_danger :
  (forall u q, quickCheck u = Normal q -> qc_riskLevel q <> js "danger") /\
  (forall urls d, batchCheck urls = Normal d -> danger (summary d) = 0%nat).
Proof.
  assert (Hone : forall u, qc_riskLevel (quickCheck_result u) <> js "danger").
  { intro u.
    destruct (quickCheck_total u) as (q & Hq & _ & _ & Hbad & Hok).
    rewrite quickCheck_result_eq in Hq. injection Hq as <-.
    destruct (isValidUrl u) eqn:Hv.
    - destruct (Hok eq_refl) as (d & Hd & _ & -> & _).
      pose proof (analyzeDomain_bounds u Hd) as Hb.
      destruct (determineRiskLevel_cases (score d))
        as [[_ E] | [[_ E] | [H _]]]; try (rewrite E; discriminate). lia.
    - rewrite (Hbad eq_refl). discriminate. }
  split.
  - intros u q Hq. rewrite quickCheck_result_eq in Hq. injection Hq as <-.
    apply Hone.
  - intros urls d Hd. rewrite batchCheck_eq in Hd. injection Hd as <-.
    cbn [summary danger tally]. unfold count_level.
    induction urls as [ | u urls IH]; [reflexivity | ].
    cbn [map]. rewrite length_filter_cons, IH.
    destruct (str_eqb (qc_riskLevel (quickCheck_result u)) (js "danger"))
      eqn:E; [ | reflexivity].
    apply str_eqb_eq in E. now apply Hone in E.
Qed.

(** X4. analyzeUrl throws in three cases only: on a URL that is not valid,
    before anything else is looked at; when the browser cannot be launched
    or the page cannot be set up; and when the closing of the browser
    rejects, whatever the analysis had come to. With a valid URL, a page
    and a browser that closes, it returns a result for that URL whatever
    the page, the navigation, the requests and the AI service do. *)
Theorem analyzeUrl_throws_only_on_bad_url_or_browser :
  forall w u options,
    (isValidUrl u = false /\ analyzeUrl w u options = Throw InvalidUrlFormat) \/
    (isValidUrl u = true /\
     exists e, closing w = Some e /\ analyzeUrl w u options = Throw e) \/
    (isValidUrl u = true /\ closing w = None /\
     exists e, launched w = Throw e /\ analyzeUrl w u options = Throw e) \/
    (isValidUrl u = true /\ closing w = None /\
     exists page h,
       launched w = Normal page /\
       heuristicResult w page u options = Normal h /\
       analyzeUrl w u options = Normal (withAI w page options h) /\
       url (withAI w page options h) = u /\
       details (withAI w page options h) = details h).
Proof.
  intros w u options.
  destruct (isValidUrl u) eqn:Hv.
  2: { left. split; [reflexivity | ]. unfold analyzeUrl. now rewrite Hv. }
  right. destruct (closing w) as [e | ] eqn:Hclose.
  { left. split; [reflexivity | ]. exists e. split; [reflexivity | ].
    unfold analyzeUrl, finally. now rewrite Hv, Hclose. }
  right. destruct (launched w) as [page | e] eqn:Hpage.
  - right. split; [reflexivity | ]. split; [reflexivity | ].
    destruct (@analyzeUrl_returns runtime w page u options Hv Hpage Hclose)
      as (h & Hh & Hrun).
    exists page, h. split; [reflexivity | ]. split; [exact Hh | ].
    split; [exact Hrun | ].
    destruct (withAI_url_details w page options h) as (Hu & Hd & _).
    rewrite Hu, Hd. split; [ | reflexivity].
    now apply heuristicResult_inv in Hh as (_ & _ & _ & _ & _ & _ & H & _).
  - left. split; [reflexivity | ]. split; [reflexivity | ].
    exists e. split; [reflexivity | ].
    unfold analyzeUrl, finally. now rewrite Hv, Hclose, Hpage.
Qed.

(** X5. The heuristics rate a page danger only with points from its content:
    domain, network and navigation together give at most 70. In
    particular a page whose text cannot be read is never rated danger. *)
Theorem heuristic_danger_needs_content_points :
  forall w page u options h,
    heuristicResult w page u options = Normal h ->
    (riskLevel h = Some (js "danger") -> 0 < score (content (details h))) /\
    ((exists e, innerText page = Throw e) ->
     riskLevel h <> Some (js "danger")).
Proof.
  intros w page u options h Hh.
  apply heuristicResult_inv in Hh
    as (d & requests & Hd & Hdetails & _ & Hl & _).
  pose proof (analyzeDomain_bounds u Hd) as Hb1.
  pose proof (analyzeNetworkRequests_bounds requests) as Hb2.
  pose proof (classifyNavigation_bounds (navigationError w)) as Hb3.
  pose proof (analyzeContent_bounds page) as Hb4.
  rewrite Hdetails, Hl. cbn [content].
  set (total := Z.min _ 100) in *.
  assert (Hdanger : Some (determineRiskLevel total) = Some (js "danger") ->
                    71 <= total).
  { intro E. injection E as E.
    destruct (determineRiskLevel_cases total)
      as [[_ E'] | [[_ E'] | [H _]]]; try (rewrite E' in E; discriminate).
    exact H. }
  split.
  - intro E. apply Hdanger in E. subst total. lia.
  - intros (e & He) E. apply Hdanger in E.
    assert (score (analyzeContent page) = 0).
    { unfold analyzeContent. rewrite He. reflexivity. }
    subst total. lia.
Qed.

Lemma nav_score_cases (m : jsstring) :
  classifyNavigation (Some m) =
  if includes (js "timeout") m
  then mkNavigationSignal 10 [LoadTimeout] (Some m)
  else if includes (js "net::ERR_") m
  then mkNavigationSignal 5 [NetworkError] (Some m)
  else mkNavigationSignal 0 [] (Some m).
Proof.
  unfold classifyNavigation. destruct m as [ | c m]; [reflexivity | ].
  reflexivity.
Qed.

(** X6. The navigation error is a timeout when its message holds "timeout"
    (in lower case), whatever else it holds; it is a network error when it
    holds "net::ERR_" and not "timeout"; any other message, the empty one
    too, gives no points and no issue. *)
Theorem navigation_classes :
  forall m,
    (classifyNavigation (Some m) =
       mkNavigationSignal 10 [LoadTimeout] (Some m) <->
     Infix (js "timeout") m) /\
    (classifyNavigation (Some m) =
       mkNavigationSignal 5 [NetworkError] (Some m) <->
     ~ Infix (js "timeout") m /\ Infix (js "net::ERR_") m) /\
    (classifyNavigation (Some m) = mkNavigationSignal 0 [] (Some m) <->
     ~ Infix (js "timeout") m /\ ~ Infix (js "net::ERR_") m).
Proof.
  intro m. rewrite nav_score_cases.
  rewrite <- !includes_spec.
  destruct (includes (js "timeout") m), (includes (js "net::ERR_") m);
    repeat split; intros; try discriminate; try reflexivity;
    try (intuition discriminate); try congruence.
Qed.

End MoreHeuristics.

(** ** The Content Analyzer *)

Section MoreContent.

Import RegexFacts PatternFacts HostFacts StringFacts.

Open Scope Z_scope.

(** [/a.*b/i] finds the word [a] and, after it on the same line, the word
    [b], in any case. *)
Lemma phrase_spec (a b : string) (text : jsstring) :
  map Spec.to_lower (js a) = js a ->
  map Spec.to_lower (js b) = js b ->
  (test (phrase a b) text = true <-> HasPhrase a b text).
Proof.
  intros Ha Hb. rewrite test_spec. unfold HasPhrase, phrase.
  cbn [body anchored_start anchored_end]. split.
  - intros (pre & m & post & -> & Hm & _ & _).
    apply Matches_Seq in Hm as (x & rest & -> & Hx & Hm).
    apply Matches_Seq in Hm as (mid & y & -> & Hmid & Hy).
    apply (Matches_lit_i_lower a x Ha) in Hx.
    apply (Matches_lit_i_lower b y Hb) in Hy.
    apply Matches_star_class in Hmid.
    exists pre, x, mid, y, post. rewrite <- !app_assoc. auto.
  - intros (pre & x & mid & y & post & -> & Hx & Hy & Hmid).
    exists pre, (x ++ mid ++ y), post. rewrite <- !app_assoc.
    repeat split; try discriminate.
    apply MSeq; [now apply (Matches_lit_i_lower a x Ha) | ].
    apply MSeq; [now apply Matches_star_class | ].
    now apply (Matches_lit_i_lower b y Hb).
Qed.

(** X7. The phishing rule of analyzeContent is triggered exactly by a text that
    holds one of the eight pairs of words of PHISHING_PATTERNS, the first
    word before the second on one line, in any case. *)
Theorem phishing_rule_reads_word_pairs :
  forall text,
    phishing_rule text = true <->
    exists a b, In (a, b) PHISHING_PHRASES /\ HasPhrase a b text.
Proof.
  intro text. unfold phishing_rule, PHISHING_PATTERNS, PHISHING_PHRASES.
  cbn [existsb]. rewrite !orb_true_iff.
  rewrite !phrase_spec by reflexivity. split.
  - intros [H | [H | [H | [H | [H | [H | [H | [H | H]]]]]]]];
      try discriminate;
      (eexists; eexists; split; [ | exact H]); cbn [In]; tauto.
  - intros (a & b & Hin & H). cbn [In] in Hin.
    repeat (destruct Hin as [E | Hin];
            [injection E as <- <-; tauto | ]).
    contradiction.
Qed.

(** X8. When the three readings of the page succeed, the Content Analyzer
    gives the sum of the points of its five rules, capped at 50, and one
    issue per triggered rule in the order of the rules: the two pattern
    rules count once however many patterns match, and the number of forms
    plays no part. *)
Theorem analyzeContent_is_capped_sum_of_rules :
  forall text info script info_of_page,
    analyzeContent
      (mkPage (Normal text) (Normal info) (Normal script) info_of_page) =
    mkSignal
      (Z.min
         (pts (phishing_rule text) 20 + pts (hasPasswordField info) 10 +
          pts (hasExternalAction info) 25 +
          pts (5 <? hiddenFieldCount info) 10 + pts (script_rule script) 15)
         50)
      ((if phishing_rule text then [PhishingPhrase] else []) ++
       (if hasPasswordField info then [PasswordField] else []) ++
       (if hasExternalAction info then [ExternalFormAction] else []) ++
       (if 5 <? hiddenFieldCount info
        then [ManyHiddenFields (hiddenFieldCount info)] else []) ++
       (if script_rule script then [SuspiciousScript] else [])).
Proof.
  intros text info script info_of_page.
  unfold analyzeContent.
  cbn [innerText formInfo scripts]. rewrite !scan_once.
  fold (phishing_rule text) (script_rule script).
  destruct (phishing_rule text), (hasPasswordField info),
    (hasExternalAction info), (5 <? hiddenFieldCount info),
    (script_rule script); reflexivity.
Qed.

(** Unfolds the Content Analyzer on a page whose readings are known, and
    compares the scores rule by rule. *)
Ltac content_crush :=
  unfold analyzeContent, capped, content_error, push;
  cbn [innerText formInfo scripts score no_signal];
  repeat match goal with
         | |- context [if ?b then _ else _] => destruct b
         end;
  cbn [score]; repeat rewrite score_scan; cbn [score no_signal];
  unfold pts;
  repeat match goal with
         | |- context [if ?b then _ else _] => destruct b
         end;
  lia.

(** X9. A reading of the page that rejects never adds points: the points
    collected before it are kept, the rules after it are not applied, and
    one issue records the error; so the score is at most the score of the
    page when the reading succeeds. *)
Theorem content_failure_never_adds_points :
  forall q p,
    fails_earlier q p ->
    score (analyzeContent q) <= score (analyzeContent p) /\
    ((exists e, innerText q = Throw e) -> score (analyzeContent q) = 0).
Proof.
  intros q p H. split.
  - destruct q as [qt qf qs qi], p as [pt pf ps pi].
    unfold fails_earlier in H. cbn [innerText formInfo scripts] in H.
    destruct H as [(e & ->) | (-> & [(e & ->) | (-> & [(e & ->) | ->])])].
    + pose proof (analyzeContent_bounds (mkPage pt pf ps pi)) as Hb.
      change (score (analyzeContent (mkPage (Throw e) qf qs qi))) with 0.
      lia.
    + destruct pt as [text | e0]; [ | apply Z.le_refl].
      destruct pf as [info | e1], ps as [script | e2]; content_crush.
    + destruct pt as [text | e0]; [ | apply Z.le_refl].
      destruct pf as [info | e1]; [ | apply Z.le_refl].
      destruct ps as [script | e2]; content_crush.
    + destruct pt as [text | e0]; [ | apply Z.le_refl].
      destruct pf as [info | e1]; [ | apply Z.le_refl].
      destruct ps as [script | e2]; apply Z.le_refl.
  - intros (e & He). unfold analyzeContent. rewrite He. reflexivity.
Qed.

End MoreContent.

(** ** The Network Analyzer *)

Section MoreNetwork.

Context {runtime : Runtime}.

Import HostFacts StringFacts.

(** The set of host names after a run of [set.add]. *)
Lemma set_add_In (x y : jsstring) (set : list jsstring) :
  In y (set_add x set) <-> In y set \/ y = x.
Proof.
  unfold set_add. destruct (str_in x set) eqn:E.
  - apply str_in_In in E. split; [auto | ]. intros [H | ->]; auto.
  - rewrite in_app_iff. simpl. intuition.
Qed.

Lemma set_add_NoDup (x : jsstring) (set : list jsstring) :
  NoDup set -> NoDup (set_add x set).
Proof.
  intro H. unfold set_add. destruct (str_in x set) eqn:E; [exact H | ].
  apply NoDup_app; [exact H | repeat constructor; auto | ].
  intros y Hy [<- | []].
  apply str_in_In in Hy. congruence.
Qed.

(** What the loop of analyzeNetworkRequests has collected at its end. *)
Lemma fold_visit (requests : list Request) :
  forall c,
    let c' := fold_left visit requests c in
    (forall h, In h (hostnames c') <->
               In h (hostnames c) \/ In h (parsed_hosts requests)) /\
    (NoDup (hostnames c) -> NoDup (hostnames c')) /\
    length (suspiciousRequests c') =
      length (suspiciousRequests c) +
      length (filter external_script requests).
Proof.
  induction requests as [ | req requests IH]; intro c; cbn zeta.
  - simpl. split; [ | split]; [intro h; tauto | auto | lia].
  - cbn [fold_left]. destruct (IH (visit c req)) as (Hin & Hnd & Hlen).
    cbn zeta in Hin, Hnd, Hlen.
    unfold visit, parsed_hosts, external_script in *. cbn [flat_map filter].
    fold parsed_hosts in *.
    destruct (new_URL (req_url req)) as [u | ].
    + destruct (str_eqb (resourceType req) (js "script") &&
                negb (str_eqb (hostname u) (originalDomain req)));
        cbn [hostnames suspiciousRequests] in *.
      * split; [ | split].
        -- intro h. rewrite Hin, set_add_In. cbn [app In]. intuition.
        -- intro H. apply Hnd. now apply set_add_NoDup.
        -- rewrite Hlen, length_app. cbn [length]. lia.
      * split; [ | split].
        -- intro h. rewrite Hin, set_add_In. cbn [app In]. intuition.
        -- intro H. apply Hnd. now apply set_add_NoDup.
        -- rewrite Hlen. cbn [length]. lia.
    + split; [ | split]; auto.
Qed.

(** X10. The Network Analyzer reports each host name of a request that parses
    exactly once, the page's own host among them; it counts every request,
    and its score is 10 for more than ten distinct hosts plus 10 for at
    least one script from a host other than the page's. *)
Theorem network_reports_distinct_hosts :
  forall requests,
    let r := analyzeNetworkRequests requests in
    NoDup (externalDomains r) /\
    (forall h, In h (externalDomains r) <-> In h (parsed_hosts requests)) /\
    requestCount r = length requests /\
    net_score r =
      (pts (10 <? length (externalDomains r))%nat 10 +
       pts (existsb external_script requests) 10)%Z /\
    (net_issues r = [] <-> net_score r = 0%Z).
Proof.
  intro requests. cbn zeta.
  destruct (fold_visit requests (mkCollected [] [])) as (Hin & Hnd & Hlen).
  cbn zeta in Hin, Hnd, Hlen. cbn [hostnames suspiciousRequests length] in *.
  unfold analyzeNetworkRequests.
  cbn [externalDomains requestCount net_score net_issues].
  split; [apply Hnd; constructor | ].
  split; [intro h; rewrite Hin; simpl; tauto | ].
  split; [reflexivity | ].
  assert (Hs : (0 <? length (suspiciousRequests
                               (fold_left visit requests (mkCollected [] []))))%nat
               = existsb external_script requests).
  { rewrite Hlen. cbn [Nat.add].
    clear. induction requests as [ | req requests IH]; [reflexivity | ].
    cbn [filter existsb]. destruct (external_script req); [reflexivity | ].
    exact IH. }
  rewrite Hs.
  destruct (10 <? length _)%nat, (existsb external_script requests);
    cbn; repeat split; intros; try discriminate; try lia.
Qed.

Lemma parsed_hosts_permutation (l l' : list Request) :
  Permutation l l' -> Permutation (parsed_hosts l) (parsed_hosts l').
Proof.
  intro H. unfold parsed_hosts.
  induction H; cbn [flat_map].
  - constructor.
  - now apply Permutation_app_head.
  - rewrite !app_assoc. apply Permutation_app_tail, Permutation_app_comm.
  - eapply Permutation_trans; eauto.
Qed.

Lemma filter_length_permutation {A} (f : A -> bool) (l l' : list A) :
  Permutation l l' -> length (filter f l) = length (filter f l').
Proof.
  intro H. induction H; cbn [filter].
  - reflexivity.
  - destruct (f x); cbn [length]; congruence.
  - destruct (f x), (f y); reflexivity.
  - congruence.
Qed.

(** X11. The order of the requests plays no part in the verdict of the Network
    Analyzer: a reordered list gives the same score, the same issues and
    the same count, and the same host names up to their order. *)
Theorem network_verdict_ignores_order :
  forall requests requests',
    Permutation requests requests' ->
    let r := analyzeNetworkRequests requests in
    let r' := analyzeNetworkRequests requests' in
    net_score r = net_score r' /\
    net_issues r = net_issues r' /\
    requestCount r = requestCount r' /\
    Permutation (externalDomains r) (externalDomains r').
Proof.
  intros requests requests' HP. cbn zeta.
  destruct (fold_visit requests (mkCollected [] [])) as (Hin & Hnd & Hlen).
  destruct (fold_visit requests' (mkCollected [] [])) as (Hin' & Hnd' & Hlen').
  cbn zeta in *. cbn [hostnames suspiciousRequests length Nat.add] in *.
  assert (Hhosts :
    Permutation
      (hostnames (fold_left visit requests (mkCollected [] [])))
      (hostnames (fold_left visit requests' (mkCollected [] [])))).
  { apply NoDup_Permutation; [apply Hnd; constructor | apply Hnd'; constructor | ].
    intro h. rewrite Hin, Hin'. simpl.
    pose proof (parsed_hosts_permutation HP) as P.
    split; intros [[] | H]; right.
    - eapply Permutation_in; eauto.
    - eapply Permutation_in; [apply Permutation_sym | ]; eauto. }
  unfold analyzeNetworkRequests.
  cbn [externalDomains requestCount net_score net_issues].
  rewrite Hlen, Hlen', (filter_length_permutation external_script HP).
  rewrite (Permutation_length Hhosts), (Permutation_length HP).
  repeat split. exact Hhosts.
Qed.

End MoreNetwork.

(** ** The fusion engine and the AI client *)

Section MoreFusion.

Context {runtime : Runtime}.

Import HostFacts StringFacts.

Open Scope Z_scope.

Lemma nearest_blend_between (h a : Z) :
  Z.min h a <= nearest_blend h a <= Z.max h a.
Proof.
  pose proof (nearest_blend_spec h a). lia.
Qed.

Lemma fused_score_lies_between_the_two_aux
    (h : AnalysisResult) (r : AiResult) (ai : Analysis) (hs as_ : Z) :
  enabled r = true ->
  analysis r = Some (Verdict ai) ->
  0 <= hs <= 100 -> 0 <= as_ <= 100 ->
  riskScore h = num_of_Z hs ->
  ai_riskScore ai = num_of_Z as_ ->
  exists n,
    riskScore (mergeAnalysisResults h r) = num_of_Z n /\
    (Z.min hs as_ <= n <= Z.max hs as_ /\ 0 <= n <= 100 /\ (hs = as_ -> n = hs)).
Proof.
  intros He Ha Hhs Has Eh Ea.
  exists (nearest_blend hs as_).
  pose proof (nearest_blend_between hs as_) as Hb.
  split; [ | repeat split; lia].
  rewrite (@merge_participating h r ai He Ha). cbn [riskScore with_fusion].
  rewrite Eh, Ea. now apply blend_exact.
Qed.

(** X12. On integer scores between 0 and 100 the fused score lies between the
    heuristic score and the AI score, so it is between 0 and 100 too, and
    when the two scores agree it is that score. *)
Theorem fused_score_lies_between_the_two :
  forall (h : AnalysisResult) (r : AiResult) (ai : Analysis) (hs as_ : Z),
    enabled r = true ->
    analysis r = Some (Verdict ai) ->
    0 <= hs <= 100 -> 0 <= as_ <= 100 ->
    riskScore h = num_of_Z hs ->
    ai_riskScore ai = num_of_Z as_ ->
    exists n,
      riskScore (mergeAnalysisResults h r) = num_of_Z n /\
      Z.min hs as_ <= n <= Z.max hs as_ /\
      0 <= n <= 100 /\
      (hs = as_ -> n = hs).
Proof.
  intros h r ai hs as_ He Ha Hhs Has Eh Ea.
  destruct (@fused_score_lies_between_the_two_aux h r ai hs as_
              He Ha Hhs Has Eh Ea) as (n & En & H1 & H2 & H3).
  exists n. auto.
Qed.

(** X13. An AI level that is absent, or is a string other than "warning" and
    "danger" that names no member of Object.prototype, leaves the level of
    the heuristic result as it is: "safe", "critical" or "high" alike. *)
Theorem unknown_ai_level_keeps_heuristic_level :
  forall (h : AnalysisResult) (r : AiResult) (ai : Analysis) (hl : Spec.Level),
    enabled r = true ->
    analysis r = Some (Verdict ai) ->
    riskLevel h = Some (Spec.level_name hl) ->
    ai_riskLevel ai <> Some (js "warning") ->
    ai_riskLevel ai <> Some (js "danger") ->
    str_in (property_key (ai_riskLevel ai)) Object_prototype = false ->
    riskLevel (mergeAnalysisResults h r) = Some (Spec.level_name hl).
Proof.
  intros h r ai hl He Ha Hh Hw Hd Hproto.
  rewrite (@fusion_level_off_prototype h r ai He Ha); [ | | exact Hproto].
  - assert (Es : Spec.severity (ai_riskLevel ai) = Spec.Safe).
    { unfold Spec.severity. destruct (ai_riskLevel ai) as [s | ]; [ | reflexivity].
      destruct (str_eqb s (js "warning")) eqn:E1.
      - apply str_eqb_eq in E1. subst s. congruence.
      - destruct (str_eqb s (js "danger")) eqn:E2; [ | reflexivity].
        apply str_eqb_eq in E2. subst s. congruence. }
    rewrite Es, Hh. destruct hl; reflexivity.
  - rewrite Hh. destruct hl; reflexivity.
Qed.

(** X14. analyzeWithAI is enabled exactly when an API key is set and the
    service answers with a non-empty content; then it carries the model
    name, no reason and no error, and as analysis whatever parseAIResponse
    returned for that content, a falsy value included: the fusion takes
    such a result for one that did not take part. Otherwise it carries no
    analysis and exactly one of reason and error: the reason when the key
    is missing or empty, whatever the service would answer, the error in
    every other case. *)
Theorem analyzeWithAI_enabled_iff :
  forall service,
    let r := analyzeWithAI service in
    (enabled r = true <->
     exists key content u,
       apiKey service = Some key /\ key <> [] /\
       answer service = Body (Some content) u /\ content <> []) /\
    (forall content u,
       enabled r = true ->
       answer service = Body (Some content) u ->
       model r = Some MODEL_NAME /\
       analysis r = Some (parseAIResponse content) /\
       usage r = u /\ reason r = None /\ error r = None /\
       (forall v h,
          parseAIResponse content = FalsyValue v ->
          mergeAnalysisResults h r =
          with_fusion h (riskScore h) (riskLevel h) (NotMerged r))) /\
    (enabled r = false ->
     model r = None /\ analysis r = None /\
     (reason r = None <-> error r <> None)) /\
    (reason r = Some KeyNotSet <->
     apiKey service = None \/ apiKey service = Some []).
Proof.
  intro service. cbn zeta.
  split; [ | split; [ | split]].
  - unfold analyzeWithAI, not_enabled.
    destruct (apiKey service) as [[ | k key] | ]; cbn [nonempty negb];
      [ | destruct (answer service) as [m | st t | [[ | c content] | ] u];
          cbn [nonempty negb] | ];
      cbn [enabled]; split; intro H; try discriminate;
      try (destruct H as (? & ? & ? & E1 & Hk & E2 & Hc);
           try discriminate; try congruence;
           try (injection E1 as <-; congruence);
           try (injection E2 as <- <-; congruence));
      try reflexivity.
    do 3 eexists. repeat split; try reflexivity; discriminate.
  - intros content u He Hbody.
    destruct (analyzeWithAI_cases service)
      as [(He' & _) | (content' & u' & Hbody' & E)]; [congruence | ].
    rewrite Hbody in Hbody'. injection Hbody' as <- <-.
    rewrite E. cbn [model analysis usage reason error].
    repeat split.
    intros v h Hv. apply merge_not_participating. right.
    unfold truthy_analysis. cbn [analysis]. now rewrite Hv.
  - unfold analyzeWithAI, not_enabled.
    destruct (apiKey service) as [[ | k key] | ]; cbn [nonempty negb];
      [ | destruct (answer service) as [m | st t | [[ | c content] | ] u];
          cbn [nonempty negb] | ];
      cbn; intro H; try discriminate; repeat split; intros;
      try discriminate; try congruence.
  - unfold analyzeWithAI, not_enabled.
    destruct (apiKey service) as [[ | k key] | ]; cbn [nonempty negb];
      [ | destruct (answer service) as [m | st t | [[ | c content] | ] u];
          cbn [nonempty negb] | ];
      cbn; split; intro H; try discriminate; auto;
      try (destruct H; discriminate).
Qed.

(** X15. When the AI's verdict, if the AI gives one, has as riskScore an
    integer between 0 and 100, so is the riskScore of every result of
    analyzeUrl, with or without the AI taking part. *)
Theorem analyzeUrl_score_is_in_range :
  forall w u options r,
    analyzeUrl w u options = Normal r ->
    (forall content u' ai,
       answer (service w) = Body (Some content) u' ->
       parseAIResponse content = Verdict ai ->
       exists a, 0 <= a <= 100 /\ ai_riskScore ai = num_of_Z a) ->
    exists n, 0 <= n <= 100 /\ riskScore r = num_of_Z n.
Proof.
  intros w u options r Hr Hai.
  apply analyzeUrl_inv in Hr as (_ & _ & page & h & _ & Hh & ->).
  pose proof Hh as Hinv.
  apply heuristicResult_inv in Hinv
    as (d & requests & Hd & _ & Hs & _).
  pose proof (analyzeDomain_bounds u Hd) as Hb1.
  pose proof (analyzeNetworkRequests_bounds requests) as Hb2.
  pose proof (classifyNavigation_bounds (navigationError w)) as Hb3.
  pose proof (analyzeContent_bounds page) as Hb4.
  set (total := Z.min _ 100) in Hs.
  assert (Ht : 0 <= total <= 100) by (subst total; lia).
  unfold withAI.
  destruct (not_false (useAI options)); [ | eauto].
  destruct (analyzeWithAI_cases (service w))
    as [(He & _) | (content & u' & Hbody & E)].
  - rewrite He. eauto.
  - rewrite E. cbn [enabled].
    destruct (parseAIResponse content) as [v | ai] eqn:Hparsed.
    + rewrite merge_not_participating by (right; reflexivity).
      cbn [riskScore with_fusion]. eauto.
    + destruct (Hai content u' ai Hbody Hparsed) as (a & Ha & Ea).
      destruct (@fused_score_lies_between_the_two_aux h
                  (mkAiResult true (Some MODEL_NAME) (Some (Verdict ai)) u'
                     None None)
                  ai total a eq_refl eq_refl Ht Ha Hs Ea) as (n & En & Hn).
      exists n. split; [lia | exact En].
Qed.

End MoreFusion.

(** ** The text that parseAIResponse hands to JSON.parse *)

Module ExtractionFacts.

Import StringFacts.

Lemma Infix_refl (s : jsstring) : Infix s s.
Proof. exists [], []. now rewrite app_nil_r. Qed.

Lemma Infix_trans (a b c : jsstring) : Infix a b -> Infix b c -> Infix a c.
Proof.
  intros (p1 & q1 & ->) (p2 & q2 & ->).
  exists (p2 ++ p1), (q1 ++ q2). now rewrite <- !app_assoc.
Qed.

Lemma lazy_group_spec (s : jsstring) :
  forall group closing,
    lazy_group s = Some (group, closing) ->
    exists rest, s = group ++ closing ++ rest.
Proof.
  induction s as [ | c s IH]; intros group closing; cbn [lazy_group].
  - destruct (startsWith (10%N :: fence) []) eqn:E1; [discriminate | ].
    destruct (startsWith fence []) eqn:E2; discriminate.
  - destruct (startsWith (10%N :: fence) (c :: s)) eqn:E1.
    + intro H. injection H as <- <-.
      apply startsWith_spec in E1 as (rest & E1). now exists rest.
    + destruct (startsWith fence (c :: s)) eqn:E2.
      * intro H. injection H as <- <-.
        apply startsWith_spec in E2 as (rest & E2). now exists rest.
      * destruct (lazy_group s) as [[g cl] | ] eqn:E; [ | discriminate].
        intro H. injection H as <- <-.
        destruct (IH g cl eq_refl) as (rest & ->). now exists rest.
Qed.

(** A match of the fenced pattern that starts after [nl], the optional
    newline, in the text [json_fence ++ nl ++ after]. *)
Lemma fenced_match (nl after g cl : jsstring) :
  lazy_group after = Some (g, cl) ->
  json_fence ++ nl ++ g ++ cl <> [] /\
  (exists rest,
     json_fence ++ nl ++ after = (json_fence ++ nl ++ g ++ cl) ++ rest) /\
  Infix g (json_fence ++ nl ++ g ++ cl).
Proof.
  intro H. apply lazy_group_spec in H as (rest & ->).
  split; [discriminate | ]. split.
  - exists rest. now rewrite <- !app_assoc.
  - exists (json_fence ++ nl), cl. now rewrite <- !app_assoc.
Qed.

Lemma fenced_at_spec (s whole group : jsstring) :
  fenced_at s = Some (whole, group) ->
  whole <> [] /\ (exists rest, s = whole ++ rest) /\ Infix group whole.
Proof.
  unfold fenced_at.
  destruct (startsWith json_fence s) eqn:Es; [ | discriminate].
  apply startsWith_spec in Es as (after & ->).
  rewrite skipn_app, skipn_all, Nat.sub_diag. cbn [skipn app].
  assert (Hwithout :
    match lazy_group after with
    | Some (g, cl) => Some (json_fence ++ g ++ cl, g)
    | None => None
    end = Some (whole, group) ->
    whole <> [] /\
    (exists rest, json_fence ++ after = whole ++ rest) /\ Infix group whole).
  { destruct (lazy_group after) as [[g cl] | ] eqn:E; [ | discriminate].
    intro H. injection H as <- <-. exact (fenced_match [] after E). }
  destruct after as [ | c after']; [exact Hwithout | ].
  destruct c as [ | p]; [exact Hwithout | ].
  do 4 (destruct p as [p | p | ]; try exact Hwithout).
  destruct (lazy_group after') as [[g cl] | ] eqn:E; [ | exact Hwithout].
  intro H. injection H as <- <-. exact (fenced_match [10%N] after' E).
Qed.

Lemma match_fenced_spec (s : jsstring) :
  forall whole group,
    match_fenced s = Some (whole, group) ->
    whole <> [] /\ Infix whole s /\ Infix group whole.
Proof.
  induction s as [ | c s IH]; intros whole group; cbn [match_fenced].
  - destruct (fenced_at []) as [[w g] | ] eqn:E; [ | discriminate].
    intro H. injection H as <- <-.
    apply fenced_at_spec in E as (Hne & (rest & E) & Hg).
    split; [exact Hne | ]. split; [ | exact Hg]. exists [], rest. exact E.
  - destruct (fenced_at (c :: s)) as [[w g] | ] eqn:E.
    + intro H. injection H as <- <-.
      apply fenced_at_spec in E as (Hne & (rest & E) & Hg).
      split; [exact Hne | ]. split; [ | exact Hg]. exists [], rest. exact E.
    + intro H. apply IH in H as (Hne & (pre & post & ->) & Hg).
      split; [exact Hne | ]. split; [ | exact Hg].
      now exists (c :: pre), post.
Qed.

Lemma upto_last_spec (c : N) (s : jsstring) :
  forall p, upto_last c s = Some p -> exists rest, s = p ++ rest.
Proof.
  induction s as [ | x s IH]; intros p; cbn [upto_last]; [discriminate | ].
  destruct (upto_last c s) as [q | ] eqn:E.
  - intro H. injection H as <-.
    destruct (IH q eq_refl) as (rest & ->). now exists rest.
  - destruct (N.eqb x c); [ | discriminate].
    intro H. injection H as <-. now exists s.
Qed.

Lemma match_braces_spec (s : jsstring) :
  forall whole,
    match_braces s = Some whole -> whole <> [] /\ Infix whole s.
Proof.
  induction s as [ | x s IH]; intros whole; cbn [match_braces];
    [discriminate | ].
  assert (Hskip : match_braces s = Some whole ->
                  whole <> [] /\ Infix whole (x :: s)).
  { intro H. apply IH in H as (Hne & pre & post & ->).
    split; [exact Hne | ]. now exists (x :: pre), post. }
  destruct (N.eqb x 123); [ | exact Hskip].
  destruct (upto_last 125 s) as [p | ] eqn:E; [ | exact Hskip].
  intro H. injection H as <-.
  apply upto_last_spec in E as (rest & ->).
  split; [discriminate | ]. now exists [], rest.
Qed.

(** X16. The text handed to JSON.parse is always a contiguous part of the
    answer of the AI, and is empty only when the answer is. *)
Theorem jsonStr_is_part_of_the_answer :
  forall content,
    Infix (jsonStr content) content /\
    (jsonStr content = [] -> content = []).
Proof.
  intro content. unfold jsonStr.
  destruct (match_fenced content) as [[whole group] | ] eqn:Ef.
  - apply match_fenced_spec in Ef as (Hne & Hw & Hg).
    destruct group as [ | c group]; cbn [nonempty].
    + split; [exact Hw | ]. intro E. contradiction.
    + split; [eapply Infix_trans; eauto | discriminate].
  - destruct (match_braces content) as [whole | ] eqn:Eb.
    + apply match_braces_spec in Eb as (Hne & Hw).
      split; [exact Hw | ]. intro E. contradiction.
    + split; [apply Infix_refl | auto].
Qed.

Lemma startsWith_other (p s : jsstring) (x c : N) :
  x <> c -> startsWith (x :: p) (c :: s) = false.
Proof.
  intro H. cbn [startsWith]. apply N.eqb_neq in H. now rewrite H.
Qed.

Lemma fenced_at_none (c : N) (s : jsstring) :
  c <> 96%N -> fenced_at (c :: s) = None.
Proof.
  intro H. unfold fenced_at, json_fence, fence. cbn [app].
  rewrite startsWith_other by congruence. reflexivity.
Qed.

Lemma match_fenced_skip (pre s : jsstring) :
  ~ In 96%N pre -> match_fenced (pre ++ s) = match_fenced s.
Proof.
  induction pre as [ | c pre IH]; intro H; [reflexivity | ].
  cbn [app match_fenced]. rewrite fenced_at_none.
  - apply IH. intro Hin. apply H. now right.
  - intro E. apply H. now left.
Qed.

Lemma match_fenced_none (s : jsstring) :
  ~ In 96%N s -> match_fenced s = None.
Proof.
  intro H. rewrite <- (app_nil_r s), match_fenced_skip by exact H.
  reflexivity.
Qed.

(** The lazy group runs over a text without backticks up to the newline
    and the closing fence. *)
Lemma lazy_group_clean (t rest : jsstring) :
  ~ In 96%N t ->
  lazy_group (t ++ 10%N :: fence ++ rest) = Some (t, 10%N :: fence).
Proof.
  induction t as [ | c t IH]; intro H.
  - reflexivity.
  - assert (Hc : c <> 96%N) by (intro E; apply H; now left).
    assert (Ht : ~ In 96%N t) by (intro E; apply H; now right).
    cbn [app lazy_group].
    assert (E1 : startsWith (10%N :: fence) (c :: t ++ 10%N :: fence ++ rest)
                 = false).
    { cbn [startsWith]. destruct (N.eqb 10 c); [ | reflexivity].
      cbn [andb]. unfold fence.
      destruct t as [ | x t]; cbn [app].
      - apply startsWith_other. discriminate.
      - apply startsWith_other. intro E. apply Ht. now left. }
    rewrite E1. unfold fence at 1. rewrite startsWith_other by congruence.
    rewrite (IH Ht). reflexivity.
Qed.

Lemma match_fenced_found (s : jsstring) (m : jsstring * jsstring) :
  fenced_at s = Some m -> match_fenced s = Some m.
Proof.
  intro H. destruct s; cbn [match_fenced]; now rewrite H.
Qed.

Lemma fenced_at_block (block post : jsstring) :
  ~ In 96%N block ->
  fenced_at (json_fence ++ 10%N :: block ++ 10%N :: fence ++ post) =
  Some (json_fence ++ [10%N] ++ block ++ 10%N :: fence, block).
Proof.
  intro H. unfold fenced_at.
  assert (Es : startsWith json_fence
                 (json_fence ++ 10%N :: block ++ 10%N :: fence ++ post) = true).
  { apply startsWith_spec. eauto. }
  rewrite Es, skipn_app, skipn_all, Nat.sub_diag. cbn [skipn app].
  now rewrite (@lazy_group_clean block post H).
Qed.

(** X17. A fenced block is taken out exactly: when the answer opens a block
    with the json fence and a newline and closes it with a newline and the
    fence, the text handed to JSON.parse is what stands between them, given
    that it is not empty and that neither it nor what precedes the block
    holds a backtick. What follows the block plays no part. *)
Theorem jsonStr_takes_the_fenced_block :
  forall pre block post,
    ~ In 96%N pre ->
    ~ In 96%N block ->
    block <> [] ->
    jsonStr (pre ++ json_fence ++ [10%N] ++ block ++ [10%N] ++ fence ++ post)
    = block.
Proof.
  intros pre block post Hpre Hblock Hne. unfold jsonStr.
  rewrite match_fenced_skip by exact Hpre. cbn [app].
  rewrite (match_fenced_found _ (@fenced_at_block block post Hblock)).
  destruct block; [congruence | reflexivity].
Qed.

Lemma upto_last_none (c : N) (s : jsstring) :
  ~ In c s -> upto_last c s = None.
Proof.
  induction s as [ | x s IH]; intro H; [reflexivity | ].
  cbn [upto_last]. rewrite IH by (intro E; apply H; now right).
  destruct (N.eqb_spec x c) as [-> | _]; [ | reflexivity].
  exfalso. apply H. now left.
Qed.

Lemma upto_last_found (c : N) (mid post : jsstring) :
  ~ In c post -> upto_last c (mid ++ c :: post) = Some (mid ++ [c]).
Proof.
  intro H. induction mid as [ | x mid IH]; cbn [app upto_last].
  - now rewrite (@upto_last_none c post H), N.eqb_refl.
  - now rewrite IH.
Qed.

Lemma match_braces_none (s : jsstring) :
  ~ In 125%N s -> match_braces s = None.
Proof.
  induction s as [ | x s IH]; intro H; [reflexivity | ].
  assert (Hs : ~ In 125%N s) by (intro E; apply H; now right).
  cbn [match_braces]. rewrite (@upto_last_none 125%N s Hs), (IH Hs).
  now destruct (N.eqb x 123).
Qed.

(** X18. Without a fenced block, the text handed to JSON.parse runs from the
    first opening brace to the last closing brace of the answer, whatever
    stands around them; an answer with no closing brace is handed over
    whole. *)
Theorem jsonStr_takes_first_to_last_brace :
  (forall pre mid post,
     ~ In 96%N (pre ++ mid ++ post) ->
     ~ In 123%N pre ->
     ~ In 125%N post ->
     jsonStr (pre ++ [123%N] ++ mid ++ [125%N] ++ post) =
     [123%N] ++ mid ++ [125%N]) /\
  (forall content,
     ~ In 96%N content -> ~ In 125%N content -> jsonStr content = content).
Proof.
  split.
  - intros pre mid post Htick Hpre Hpost. unfold jsonStr.
    rewrite match_fenced_none.
    + assert (E : match_braces (pre ++ [123%N] ++ mid ++ [125%N] ++ post) =
                  Some ([123%N] ++ mid ++ [125%N])).
      { clear Htick. induction pre as [ | x pre IH]; cbn [app match_braces].
        - cbn [N.eqb Pos.eqb].
          change (mid ++ 125%N :: post) with (mid ++ 125%N :: post).
          now rewrite (@upto_last_found 125%N mid post Hpost).
        - destruct (N.eqb_spec x 123) as [-> | _].
          + exfalso. apply Hpre. now left.
          + apply IH. intro E. apply Hpre. now right. }
      now rewrite E.
    + intro H. apply Htick.
      rewrite !in_app_iff in *. cbn [In] in H.
      destruct H as [H | [[H | []] | [H | [[H | []] | H]]]];
        try discriminate; auto.
  - intros content Htick Hclose. unfold jsonStr.
    now rewrite match_fenced_none, match_braces_none.
Qed.

End ExtractionFacts.

(** ** The routes of server.js *)

Module FloatFacts.




End FloatFacts.

Section MoreRoutes.

Context {runtime : Runtime} {conversions : Conversions}.

Import HostFacts StringFacts.

Open Scope Z_scope.

Lemma marker_in_message :
  includes invalid_url_marker invalid_url_message = true.
Proof. vm_compute. reflexivity. Qed.

(** The options that the analyze route reads: those of the body, or an
    empty object when the body has none. *)
Lemma post_analyze_string (w : Sandbox) (body : Json) (s : jsstring) :
  property "url" body = Some (JString s) ->
  s <> [] ->
  (length s <= 2048)%nat ->
  post_analyze w (Some body) =
  match property "options" body with
  | Some JNull => Escapes
  | Some options =>
      match analyzeUrl w s (forwarded options) with
      | Normal result => Sends (Replied result)
      | Throw e => Sends (analyze_error e)
      end
  | None =>
      match analyzeUrl w s (forwarded (JObject [])) with
      | Normal result => Sends (Replied result)
      | Throw e => Sends (analyze_error e)
      end
  end.
Proof.
  intros Hurl Hne Hlen. unfold post_analyze.
  destruct body as [ | b | x | t | items | members];
    try (cbn in Hurl; discriminate).
  rewrite Hurl. cbn [ToBoolean]. apply nonempty_spec in Hne. rewrite Hne.
  cbn [negb].
  destruct (Nat.ltb_spec 2048 (length s)) as [Hlong | _]; [lia | ].
  destruct (property "options" (JObject members)) as [[ | | | | | ] | ];
    reflexivity.
Qed.

(** What the handler of the analyze route comes to: an exception leaves
    it, or it refuses the request with 400 before the analysis, or it
    answers with what analyzeUrl returns or throws. *)
Lemma post_analyze_inv (w : Sandbox) (body : option Json) :
  post_analyze w body = Escapes \/
  (exists code,
     post_analyze w body = Sends (Refused 400 code) /\
     (code = js "MISSING_URL" \/ code = js "INVALID_URL_TYPE" \/
      code = js "URL_TOO_LONG")) \/
  (exists b s options,
     body = Some b /\
     property "url" b = Some (JString s) /\
     s <> [] /\ (length s <= 2048)%nat /\
     options <> JNull /\
     (property "options" b = Some options \/
      (property "options" b = None /\ options = JObject [])) /\
     post_analyze w body =
     match analyzeUrl w s (forwarded options) with
     | Normal r => Sends (Replied r)
     | Throw e => Sends (analyze_error e)
     end).
Proof.
  destruct body as [b | ]; [ | left; reflexivity].
  destruct b as [ | b | x | t | items | members];
    try (left; reflexivity);
    try (right; left; exists (js "MISSING_URL"); split; [reflexivity | auto]).
  destruct (property "url" (JObject members)) as [v | ] eqn:Hv.
  2: { right. left. exists (js "MISSING_URL"). split; [ | auto].
       unfold post_analyze. now rewrite Hv. }
  destruct (ToBoolean v) eqn:Ht.
  2: { right. left. exists (js "MISSING_URL"). split; [ | auto].
       unfold post_analyze. now rewrite Hv, Ht. }
  assert (Hother : (forall s, v <> JString s) ->
                   post_analyze w (Some (JObject members)) =
                   Sends (Refused 400 (js "INVALID_URL_TYPE"))).
  { intro Hnot. unfold post_analyze. rewrite Hv, Ht. cbn [negb].
    destruct v; try reflexivity. exfalso. now apply (Hnot s). }
  destruct v as [ | b | x | s | items | ms];
    try (right; left; exists (js "INVALID_URL_TYPE");
         split; [apply Hother; discriminate | auto]).
  clear Hother.
  destruct (Nat.ltb_spec 2048 (length s)) as [Hlong | Hlen].
  { right. left. exists (js "URL_TOO_LONG"). split; [ | auto].
    unfold post_analyze. rewrite Hv, Ht. cbn [negb].
    destruct (Nat.ltb_spec 2048 (length s)); [reflexivity | lia]. }
  assert (Hne : s <> []) by (destruct s; [discriminate | discriminate]).
  rewrite (@post_analyze_string w (JObject members) s Hv Hne Hlen).
  destruct (property "options" (JObject members)) as [o | ] eqn:Ho.
  - assert (Hcase : o = JNull \/ o <> JNull)
      by (destruct o; [left; reflexivity | right; discriminate ..]).
    destruct Hcase as [-> | Hnn]; [left; reflexivity | ].
    right. right. exists (JObject members), s, o.
    split; [reflexivity | ]. split; [exact Hv | ]. split; [exact Hne | ].
    split; [exact Hlen | ]. split; [exact Hnn | ].
    split; [left; exact Ho | ].
    destruct o; [contradiction | reflexivity ..].
  - right. right. exists (JObject members), s, (JObject []).
    split; [reflexivity | ]. split; [exact Hv | ]. split; [exact Hne | ].
    split; [exact Hlen | ]. split; [discriminate | ].
    split; [right; split; [exact Ho | reflexivity] | reflexivity].
Qed.





(** What analyzeUrl throws on a valid URL is what the browser threw: the
    error of the closing, or else that of the launch or of the page
    set-up. *)
Lemma analyzeUrl_throw_inv (w : Sandbox) (s : jsstring) (o : Options)
    (e : Error) :
  analyzeUrl w s o = Throw e ->
  (isValidUrl s = false /\ e = InvalidUrlFormat) \/
  (isValidUrl s = true /\
   (closing w = Some e \/ (closing w = None /\ launched w = Throw e))).
Proof.
  unfold analyzeUrl, finally.
  destruct (isValidUrl s) eqn:Hv; cbn [negb].
  - intro H. right. split; [reflexivity | ].
    destruct (closing w) as [e' | ]; [left; congruence | ].
    right. split; [reflexivity | ].
    destruct (launched w) as [page | e'] eqn:Hpage; cbn [bind] in H;
      [ | congruence].
    destruct (isValidUrl_parsed s Hv) as (parsed & Hurl & _).
    destruct (analyzeDomain_score s Hurl) as (d & Hd & _).
    unfold heuristicResult in H. rewrite Hurl in H. cbn [bind] in H.
    rewrite Hd in H. cbn [bind] in H. discriminate.
  - intro H. left. split; [reflexivity | congruence].
Qed.

(** X22. The error statuses of the analyze route. A 500 with the code
    INTERNAL_SERVER_ERROR is the answer to a body that express.json()
    rejects, and a 429 that of the limiter. Any other status that is not
    400 comes from the catch of the handler, only when the URL is valid
    and the browser could not be started or did not close: 504 when the
    message of that error holds timeout or Timeout, 500 otherwise. *)
Theorem analyze_route_error_statuses :
  forall w arrival status code,
    serve_analyze w arrival = Sends (Refused status code) ->
    status <> 400 ->
    (arrival = BodyRejected /\ status = 500 /\
     code = js "INTERNAL_SERVER_ERROR") \/
    (arrival = OverLimit /\ status = 429 /\
     code = js "RATE_LIMIT_EXCEEDED") \/
    (exists body s e,
       arrival = Reaches (Some body) /\
       property "url" body = Some (JString s) /\
       isValidUrl s = true /\
       (closing w = Some e \/ (closing w = None /\ launched w = Throw e)) /\
       ~ Infix invalid_url_marker (message e) /\
       ((status = 504 /\ code = js "ANALYSIS_TIMEOUT" /\
         (Infix (js "timeout") (message e) \/
          Infix (js "Timeout") (message e))) \/
        (status = 500 /\ code = js "ANALYSIS_ERROR" /\
         ~ Infix (js "timeout") (message e) /\
         ~ Infix (js "Timeout") (message e)))).
Proof.
  intros w arrival status code Hr Hst.
  destruct arrival as [ | | body]; cbn in Hr.
  - injection Hr as <- <-. auto.
  - injection Hr as <- <-. auto.
  - right. right.
    destruct (post_analyze_inv w body)
      as [E | [(c & E & _) | (b & s & o & -> & Hs & _ & _ & _ & _ & E)]];
      rewrite E in Hr; try discriminate.
    + injection Hr as <- <-. congruence.
    + destruct (analyzeUrl w s (forwarded o)) as [r | e] eqn:Hrun;
        [discriminate | ].
      injection Hr as Hr.
      apply analyzeUrl_throw_inv in Hrun as [(_ & ->) | (Hv & Hwhy)].
      * unfold analyze_error in Hr. cbn [message] in Hr.
        rewrite marker_in_message in Hr. injection Hr as <- <-. congruence.
      * exists b, s, e. split; [reflexivity | ]. split; [exact Hs | ].
        split; [exact Hv | ]. split; [exact Hwhy | ].
        unfold analyze_error in Hr.
        destruct (includes invalid_url_marker (message e)) eqn:Hm;
          [injection Hr as <- <-; congruence | ].
        split.
        { intro H. apply includes_spec in H. congruence. }
        destruct (includes (js "timeout") (message e)) eqn:Ha;
          destruct (includes (js "Timeout") (message e)) eqn:Hb;
          cbn [orb] in Hr; injection Hr as <- <-.
        -- left. repeat split. left. now apply includes_spec.
        -- left. repeat split. left. now apply includes_spec.
        -- left. repeat split. right. now apply includes_spec.
        -- right. repeat split.
           ++ intro H. apply includes_spec in H. congruence.
           ++ intro H. apply includes_spec in H. congruence.
Qed.


(** X24. The quick-check route always answers, and never with CHECK_ERROR: the
    catch of its handler is unreachable. It answers 500, with the code
    INTERNAL_SERVER_ERROR, exactly when express.json() rejects the body or
    the body is missing, 429 exactly when the limiter stops the request,
    and 400 to a url that is missing, falsy or no string; every non-empty
    string, of any length, gets the result of quickCheck. *)
Theorem quick_check_route_never_sends_CHECK_ERROR :
  forall arrival,
    (exists reply, serve_quick_check arrival = Sends reply) /\
    (forall status code,
       serve_quick_check arrival = Sends (Refused status code) ->
       code <> js "CHECK_ERROR" /\
       (status = 500 \/ status = 429 \/ status = 400) /\
       (status = 500 <->
        arrival = BodyRejected \/ arrival = Reaches None \/
        arrival = Reaches (Some JNull)) /\
       (status = 429 <-> arrival = OverLimit)) /\
    (forall body s,
       arrival = Reaches (Some body) ->
       property "url" body = Some (JString s) ->
       s <> [] ->
       exists q,
         quickCheck s = Normal q /\
         serve_quick_check arrival = Sends (Replied q)).
Proof.
  intro arrival.
  assert (Hhandler : forall body,
            post_quick_check body = Escapes /\
            (body = None \/ body = Some JNull) \/
            (exists code,
               post_quick_check body = Sends (Refused 400 code) /\
               code <> js "CHECK_ERROR" /\ body <> None /\
               body <> Some JNull) \/
            (exists b s,
               body = Some b /\ property "url" b = Some (JString s) /\
               s <> [] /\ b <> JNull /\
               post_quick_check body =
               Sends (Replied (quickCheck_result s)))).
  { intros [b | ]; [ | left; auto].
    destruct b as [ | b | x | t | items | members];
      try (left; auto; fail);
      try (right; left; exists (js "MISSING_URL");
           repeat split; discriminate).
    destruct (property "url" (JObject members)) as [v | ] eqn:Hv.
    2: { right. left. exists (js "MISSING_URL").
         unfold post_quick_check. rewrite Hv.
         repeat split; discriminate. }
    destruct (ToBoolean v) eqn:Ht.
    2: { right. left. exists (js "MISSING_URL").
         unfold post_quick_check. rewrite Hv, Ht.
         repeat split; discriminate. }
    destruct v as [ | b | x | s | items | ms];
      try (right; left; exists (js "INVALID_URL_TYPE");
           unfold post_quick_check; rewrite Hv, Ht;
           repeat split; discriminate).
    right. right. exists (JObject members), s.
    split; [reflexivity | ]. split; [exact Hv | ].
    split; [destruct s; discriminate | ]. split; [discriminate | ].
    unfold post_quick_check. rewrite Hv, Ht. cbn [negb].
    now rewrite quickCheck_result_eq. }
  split; [ | split].
  - destruct arrival as [ | | body]; cbn; eauto.
    destruct (post_quick_check body); eauto.
  - intros status code Hr.
    destruct arrival as [ | | body]; cbn in Hr.
    + injection Hr as <- <-.
      split; [discriminate | ]. split; [auto | ].
      split; split; auto; intro H; try discriminate.
    + injection Hr as <- <-.
      split; [discriminate | ]. split; [auto | ].
      split; split; auto; intro H; try discriminate.
      destruct H as [H | [H | H]]; discriminate.
    + destruct (Hhandler body)
        as [(E & Hb) | [(c & E & Hc & Hn1 & Hn2) | (b & s & _ & _ & _ & _ & E)]];
        rewrite E in Hr; try discriminate; injection Hr as <- <-.
      * split; [discriminate | ]. split; [auto | ].
        split; split; auto; try discriminate.
        intros _. destruct Hb as [-> | ->]; auto.
      * split; [exact Hc | ]. split; [auto | ].
        split; split; try discriminate.
        intros [H | [H | H]]; try discriminate; injection H as H;
          contradiction.
  - intros body s -> Hs Hne.
    exists (quickCheck_result s). split; [apply quickCheck_result_eq | ].
    destruct (Hhandler (Some body))
      as [(E & [Hb | Hb]) | [(c & E & _) | (b & s' & Hb & Hs' & _ & _ & E)]].
    + discriminate.
    + injection Hb as ->. discriminate.
    + exfalso. unfold post_quick_check in E.
      destruct body; try discriminate; rewrite Hs in E;
        cbn [ToBoolean] in E; apply nonempty_spec in Hne; rewrite Hne in E;
        cbn [negb] in E; rewrite quickCheck_result_eq in E; discriminate.
    + injection Hb as <-. rewrite Hs in Hs'. injection Hs' as <-.
      unfold serve_quick_check, serve. now rewrite E.
Qed.

Lemma mapM_quickCheck_entry (urls : list Json) :
  mapM quickCheck_entry urls = Normal (map entry_result urls).
Proof.
  induction urls as [ | v urls IH]; [reflexivity | ].
  cbn [mapM map]. unfold quickCheck_entry at 1.
  rewrite quickCheck_result_eq. cbn [bind]. now rewrite IH.
Qed.

Lemma post_batch_array (body : Json) (urls : list Json) :
  property "urls" body = Some (JArray urls) ->
  post_batch (Some body) =
  if (10 <? length urls)%nat
  then Sends (Refused 400 (js "TOO_MANY_URLS"))
  else
    Sends
      (Replied
         (mkBatchReport (length urls) (map entry_result urls)
            (tally (map outcome (map entry_result urls))))).
Proof.
  intro H. unfold post_batch.
  destruct body; try (cbn in H; discriminate).
  rewrite H. now rewrite mapM_quickCheck_entry.
Qed.

Lemma post_batch_no_array (body : Json) :
  body <> JNull ->
  (forall urls, property "urls" body <> Some (JArray urls)) ->
  post_batch (Some body) = Sends (Refused 400 (js "MISSING_URLS")).
Proof.
  intros Hb H. unfold post_batch.
  destruct body; try contradiction; try reflexivity.
  destruct (property "urls" (JObject members)) as [[ | | | | urls | ] | ];
    try reflexivity.
  exfalso. now apply (H urls).
Qed.

(** X25. The batch route never sends BATCH_CHECK_ERROR: the catch of its
    handler is unreachable, whatever the entries are. Its refusals are the
    500 of a body that express.json() rejects, the 429 of the limiter, and
    the two 400s, for a body without an array of urls and for more than
    ten entries. An array of at most ten entries of any type gets one
    result per entry, in order: the result of quickCheck on the entry read
    as a string, echoing the entry as it came. A non-empty string gets the
    result that the quick-check route replies for it; an entry that is no
    string, or the empty string, is checked all the same, where the
    quick-check route refuses it with 400. *)
Theorem batch_route_checks_every_entry :
  forall arrival,
    (forall status code,
       serve_batch arrival = Sends (Refused status code) ->
       code <> js "BATCH_CHECK_ERROR" /\
       ((status = 500 /\ arrival = BodyRejected) \/
        (status = 429 /\ arrival = OverLimit) \/
        (status = 400 /\ code = js "MISSING_URLS" /\
         exists body,
           arrival = Reaches (Some body) /\
           forall urls, property "urls" body <> Some (JArray urls)) \/
        (status = 400 /\ code = js "TOO_MANY_URLS" /\
         exists body urls,
           arrival = Reaches (Some body) /\
           property "urls" body = Some (JArray urls) /\
           (10 < length urls)%nat))) /\
    (forall body urls,
       arrival = Reaches (Some body) ->
       property "urls" body = Some (JArray urls) ->
       (length urls <= 10)%nat ->
       exists report,
         serve_batch arrival = Sends (Replied report) /\
         report_total report = length urls /\
         Forall2
           (fun v r =>
              entry r = v /\ quickCheck (ToString v) = Normal (outcome r))
           urls (report_results report) /\
         report_summary report = tally (map outcome (report_results report)) /\
         (forall i s r,
            nth_error urls i = Some (JString s) ->
            nth_error (report_results report) i = Some r ->
            s <> [] ->
            post_quick_check (Some (url_body s)) =
            Sends (Replied (outcome r))) /\
         (forall i v,
            nth_error urls i = Some v ->
            (v = JString [] \/ forall s, v <> JString s) ->
            (exists r,
               nth_error (report_results report) i = Some r /\
               entry r = v /\
               quickCheck (ToString v) = Normal (outcome r)) /\
            exists code,
              post_quick_check (Some (JObject [ (js "url", v) ])) =
              Sends (Refused 400 code))).
Proof.
  intro arrival. split.
  - intros status code Hr.
    destruct arrival as [ | | body]; cbn in Hr.
    + injection Hr as <- <-. split; [discriminate | auto].
    + injection Hr as <- <-. split; [discriminate | auto].
    + destruct body as [body | ]; [ | discriminate].
      assert (Hnn : body <> JNull) by (intros ->; discriminate).
      assert (Hcase : (exists urls, property "urls" body = Some (JArray urls))
                      \/ forall urls, property "urls" body <> Some (JArray urls)).
      { destruct (property "urls" body) as [[ | | | | urls | ] | ];
          try (right; intros urls; discriminate).
        left. now exists urls. }
      destruct Hcase as [(urls & Hu) | Hno].
      * rewrite (post_batch_array body Hu) in Hr.
        destruct (Nat.ltb_spec 10 (length urls)) as [Hlong | _];
          [ | discriminate].
        injection Hr as <- <-. split; [discriminate | ].
        right. right. right. split; [reflexivity | ].
        split; [reflexivity | ]. exists body, urls. auto.
      * rewrite (post_batch_no_array Hnn Hno) in Hr.
        injection Hr as <- <-. split; [discriminate | ].
        right. right. left. split; [reflexivity | ].
        split; [reflexivity | ]. exists body. auto.
  - intros body urls -> Hu Hlen.
    exists (mkBatchReport (length urls) (map entry_result urls)
              (tally (map outcome (map entry_result urls)))).
    cbn [report_total report_results report_summary].
    split.
    { unfold serve_batch, serve. rewrite (post_batch_array body Hu).
      destruct (Nat.ltb_spec 10 (length urls)); [lia | reflexivity]. }
    split; [reflexivity | ]. split.
    { clear. induction urls as [ | v urls IH]; constructor; [ | exact IH].
      split; [reflexivity | apply quickCheck_result_eq]. }
    split; [reflexivity | ]. split.
    + intros i s r Hi Hr Hne.
      rewrite (map_nth_error entry_result i urls Hi) in Hr.
      injection Hr as <-. cbn [entry_result outcome ToString].
      unfold post_quick_check, url_body.
      cbn [property own_member].
      change (str_eqb (js "url") (js "url")) with true. cbv iota.
      cbn [ToBoolean]. apply nonempty_spec in Hne. rewrite Hne. cbn [negb].
      now rewrite quickCheck_result_eq.
    + intros i v Hi Hv. split.
      * exists (entry_result v).
        split; [now apply map_nth_error | ].
        split; [reflexivity | apply quickCheck_result_eq].
      * unfold post_quick_check. cbn [property own_member].
        change (str_eqb (js "url") (js "url")) with true. cbv iota.
        destruct Hv as [-> | Hv]; [eexists; reflexivity | ].
        destruct (ToBoolean v); cbn [negb]; [ | eexists; reflexivity].
        destruct v; try (eexists; reflexivity).
        exfalso. now apply (Hv s).
Qed.

(** X27. On a body whose urls are strings the batch route of the server is
    post_batch_check on the list of these strings: the same refusal, or
    the same total, the same results in the same order and the same
    summary; and a body without an array of urls is refused as
    post_batch_check refuses a missing list. *)
Theorem batch_route_on_strings :
  (forall urls : list jsstring,
     match post_batch_check (Some urls),
           serve_batch (Reaches (Some (urls_body urls))) with
     | Success data, Sends (Replied report) =>
         report_total report = total data /\
         map outcome (report_results report) = results data /\
         map entry (report_results report) = map JString urls /\
         report_summary report = summary data
     | ErrorResponse status code, Sends (Refused status' code') =>
         status' = status /\ code' = code
     | _, _ => False
     end) /\
  (forall body,
     body <> JNull ->
     (forall urls, property "urls" body <> Some (JArray urls)) ->
     post_batch_check None = ErrorResponse 400 (js "MISSING_URLS") /\
     serve_batch (Reaches (Some body)) =
     Sends (Refused 400 (js "MISSING_URLS"))).
Proof.
  split.
  - intro urls. unfold serve_batch, serve.
    assert (Hu : property "urls" (urls_body urls) =
                 Some (JArray (map JString urls))) by reflexivity.
    rewrite (post_batch_array (urls_body urls) Hu).
    cbn [post_batch_check]. rewrite length_map.
    destruct (10 <? length urls)%nat; [split; reflexivity | ].
    rewrite batchCheck_eq.
    cbn [report_total report_results report_summary total results summary].
    assert (Hmap : map outcome (map entry_result (map JString urls)) =
                   map quickCheck_result urls).
    { rewrite !map_map. apply map_ext. intro s. reflexivity. }
    rewrite Hmap. split; [reflexivity | ]. split; [reflexivity | ].
    split; [ | reflexivity].
    rewrite !map_map. apply map_ext. intro s. reflexivity.
  - intros body Hnn Hno. split; [reflexivity | ].
    unfold serve_batch, serve. now rewrite (post_batch_no_array Hnn Hno).
Qed.

End MoreRoutes.

(** ** Hosts that are IPv4 literals *)

Section MoreHosts.

Context {runtime : Runtime}.

Import HostFacts StringFacts.

Open Scope Z_scope.

Lemma digits_quad_units (s : jsstring) :
  forallb is_digit s = true -> forallb quad_unit s = true.
Proof.
  intro H. rewrite forallb_forall in *. intros c Hc. unfold quad_unit.
  now rewrite (H c Hc).
Qed.

Lemma digits_no_dot (s : jsstring) :
  forallb is_digit s = true -> filter (N.eqb 46) s = [].
Proof.
  induction s as [ | c s IH]; [reflexivity | ].
  cbn [forallb filter]. rewrite andb_true_iff. intros [Hc Hs].
  rewrite (IH Hs).
  destruct (N.eqb_spec 46 c) as [<- | _]; [discriminate | reflexivity].
Qed.

Lemma DottedQuad_units (host : jsstring) :
  Spec.DottedQuad host -> forallb quad_unit host = true.
Proof.
  intros (a & b & c & d & [_ Ha] & [_ Hb] & [_ Hc] & [_ Hd] & ->).
  rewrite !forallb_app.
  rewrite (digits_quad_units a Ha), (digits_quad_units b Hb),
    (digits_quad_units c Hc), (digits_quad_units d Hd).
  reflexivity.
Qed.

Lemma DottedQuad_labels (host : jsstring) :
  Spec.DottedQuad host -> Spec.labels host = 4.
Proof.
  intros (a & b & c & d & [_ Ha] & [_ Hb] & [_ Hc] & [_ Hd] & ->).
  unfold Spec.labels.
  rewrite !filter_app.
  rewrite (digits_no_dot a Ha), (digits_no_dot b Hb), (digits_no_dot c Hc),
    (digits_no_dot d Hd).
  reflexivity.
Qed.

Lemma quad_unit_cases (c : N) :
  quad_unit c = true -> (48 <= c <= 57)%N \/ c = 46%N.
Proof.
  unfold quad_unit, is_digit, in_range.
  rewrite orb_true_iff, andb_true_iff, !N.leb_le, N.eqb_eq. tauto.
Qed.

Lemma DottedQuad_suspicious (host : jsstring) :
  Spec.DottedQuad host ->
  (Spec.SuspiciousHost host <-> Spec.HasRun is_digit 4 host).
Proof.
  intro Hq. apply DottedQuad_units in Hq. rewrite forallb_forall in Hq.
  unfold Spec.SuspiciousHost. split; [ | tauto].
  intros [H | [H | [H | H]]]; [exact H | exfalso .. ].
  - destruct H as (pre & run & post & -> & Hlen & Hrun).
    destruct run as [ | c run]; [cbn [length] in Hlen; lia | ].
    cbn [forallb] in Hrun. apply andb_true_iff in Hrun as [Hc _].
    unfold Spec.is_hyphen in Hc. apply N.eqb_eq in Hc. subst c.
    assert (Hin : In 45%N (pre ++ (45%N :: run) ++ post)).
    { apply in_or_app. right. now left. }
    apply Hq, quad_unit_cases in Hin. lia.
  - destruct H as (pre & tld & -> & Htld).
    destruct tld as [ | c tld].
    + cbn in Htld. intuition discriminate.
    + assert (Hin : In c (pre ++ js "." ++ c :: tld)).
      { apply in_or_app. right. apply in_or_app. right. now left. }
      apply Hq, quad_unit_cases in Hin.
      assert (Hlow : Spec.to_lower c = c).
      { unfold Spec.to_lower, in_range.
        destruct (N.leb_spec 65 c); [ | reflexivity].
        exfalso. lia. }
      cbn [map] in Htld. rewrite Hlow in Htld.
      unfold Spec.FREE_TLDS in Htld. cbn [In] in Htld.
      assert (Hc : c = 116%N \/ c = 109%N \/ c = 103%N \/ c = 99%N).
      { destruct Htld as [E | [E | [E | [E | [E | []]]]]];
          injection E as E _; vm_compute in E; subst c; tauto. }
      lia.
  - destruct H as (c & Hin & Hc). apply Hq, quad_unit_cases in Hin. lia.
Qed.

(** X26. When the host is an IPv4 literal the rules of analyzeDomain cannot all
    apply: the depth rule never does (the host has four labels), and of
    the suspicious patterns only the run of four digits can. The score is
    therefore 25, 35 or 40, it is the cap of 40 and the level warning over
    any scheme but https, and the level is safe exactly over https with no
    run of four digits and no non-standard port. *)
Theorem ip_literal_host_scores :
  forall u parsed d,
    new_URL u = Some parsed ->
    Spec.DottedQuad (hostname parsed) ->
    analyzeDomain u = Normal d ->
    depth_rule parsed = false /\
    (pattern_rule parsed = true <-> Spec.HasRun is_digit 4 (hostname parsed)) /\
    (score d = 25 \/ score d = 35 \/ score d = 40) /\
    (protocol parsed <> js "https:" ->
     score d = 40 /\ determineRiskLevel (score d) = js "warning") /\
    (determineRiskLevel (score d) = js "safe" <->
     protocol parsed = js "https:" /\
     ~ Spec.HasRun is_digit 4 (hostname parsed) /\
     port_rule parsed = false).
Proof.
  intros u parsed d Hurl Hq Hd.
  destruct (analyzeDomain_score u Hurl) as (d' & Hd' & Hscore).
  rewrite Hd in Hd'. injection Hd' as <-.
  assert (Hip : ip_rule parsed = true) by now apply ipv4_literal_spec.
  assert (Hdepth : depth_rule parsed = false).
  { unfold depth_rule. rewrite split_length, (DottedQuad_labels Hq).
    reflexivity. }
  assert (Hpat : pattern_rule parsed = true <->
                 Spec.HasRun is_digit 4 (hostname parsed)).
  { unfold pattern_rule. rewrite suspicious_spec.
    now apply DottedQuad_suspicious. }
  assert (Hscheme : scheme_rule parsed = true <->
                    protocol parsed <> js "https:").
  { unfold scheme_rule. rewrite negb_true_iff. apply str_eqb_neq. }
  assert (Hhttps : scheme_rule parsed = false <->
                   protocol parsed = js "https:").
  { unfold scheme_rule. rewrite negb_false_iff. apply str_eqb_eq. }
  assert (Hsafe : forall s, determineRiskLevel s = js "safe" <-> s <= 30).
  { intro s. destruct (determineRiskLevel_cases s)
      as [[H E] | [[H E] | [H E]]]; rewrite E;
      (split; [intro; try discriminate; lia | intro; try reflexivity; lia]). }
  rewrite Hip, Hdepth in Hscore. cbn [pts] in Hscore.
  split; [exact Hdepth | ]. split; [exact Hpat | ]. split; [ | split].
  - rewrite Hscore.
    destruct (pattern_rule parsed), (scheme_rule parsed), (port_rule parsed);
      cbn [pts]; lia.
  - intro Hs. apply Hscheme in Hs. rewrite Hs in Hscore. cbn [pts] in Hscore.
    assert (E : score d = 40).
    { rewrite Hscore.
      destruct (pattern_rule parsed), (port_rule parsed); cbn [pts]; lia. }
    rewrite E. split; reflexivity.
  - rewrite <- Hhttps, <- Hpat, not_true_iff_false, Hsafe, Hscore.
    destruct (pattern_rule parsed), (scheme_rule parsed), (port_rule parsed);
      cbn [pts];
      (split; [intro; try lia; auto | intros (? & ? & ?); try discriminate; lia]).
Qed.

End MoreHosts.

(* ================================================================== *)
(** * The further properties at the examples *)

Lemma not_In_forallb (x : N) (l : jsstring) :
  forallb (fun c => negb (N.eqb c x)) l = true -> ~ In x l.
Proof.
  rewrite forallb_forall. intros H Hin. apply H in Hin.
  now rewrite N.eqb_refl in Hin.
Qed.

Lemma quickCheck_issue_example :
  exists found,
    qc_issues (@quickCheck_result Sample.runtime Sample.address) = Some found /\
    (qc_message (@quickCheck_result Sample.runtime Sample.address) = Passed <->
     qc_riskScore (@quickCheck_result Sample.runtime Sample.address) = 0%Z) /\
    (length found <= 5)%nat.
Proof.
  destruct (@quickCheck_score_zero_iff_no_issue Sample.runtime Sample.address
              (@quickCheck_result Sample.runtime Sample.address)
              eq_refl eq_refl)
    as (found & Hf & _ & Hm & _ & Hlen).
  exists found. auto.
Defined.

Lemma busy_page_example :
  riskLevel Sample.busy_result = Some (js "danger") /\
  (0 < score (content (details Sample.busy_result)))%Z.
Proof.
  destruct (@heuristic_danger_needs_content_points Sample.runtime
              Sample.busy_sandbox Sample.busy_page Sample.address
              Sample.options Sample.busy_result)
    as (H & _); [vm_compute; reflexivity | ].
  assert (E : riskLevel Sample.busy_result = Some (js "danger"))
    by (vm_compute; reflexivity).
  split; [exact E | exact (H E)].
Defined.

Lemma formless_page_example :
  (score (analyzeContent Cases.formless_page) <=
   score (analyzeContent Sample.busy_page))%Z /\
  score (analyzeContent Cases.formless_page) = 20%Z.
Proof.
  destruct (@content_failure_never_adds_points Cases.formless_page
              Sample.busy_page) as (H & _).
  - right. split; [reflexivity | ]. left.
    exists (Rejection (js "Execution context was destroyed")). reflexivity.
  - split; [exact H | vm_compute; reflexivity].
Defined.

Lemma reordered_requests_example :
  net_score (@analyzeNetworkRequests Sample.runtime Cases.requests) =
    net_score (@analyzeNetworkRequests Sample.runtime Cases.reordered) /\
  net_issues (@analyzeNetworkRequests Sample.runtime Cases.requests) =
    net_issues (@analyzeNetworkRequests Sample.runtime Cases.reordered) /\
  Permutation
    (externalDomains (@analyzeNetworkRequests Sample.runtime Cases.requests))
    (externalDomains (@analyzeNetworkRequests Sample.runtime Cases.reordered)).
Proof.
  destruct (@network_verdict_ignores_order Sample.runtime Cases.requests
              Cases.reordered) as (Hs & Hi & _ & Hd).
  - unfold Cases.requests, Cases.reordered.
    eapply perm_trans; [apply perm_swap | ].
    apply perm_skip. apply perm_swap.
  - auto.
Defined.

Lemma fused_score_example :
  exists n,
    riskScore (mergeAnalysisResults Sample.heuristic Sample.ai_result) =
      num_of_Z n /\
    (20 <= n <= 90)%Z.
Proof.
  destruct (@fused_score_lies_between_the_two Sample.heuristic
              Sample.ai_result Sample.verdict 20%Z 90%Z eq_refl eq_refl)
    as (n & Hn & Hb & _); try lia; try (vm_compute; reflexivity).
  exists n. split; [exact Hn | lia].
Defined.

Lemma critical_level_example :
  riskLevel (mergeAnalysisResults Sample.alarming Cases.critical_result) =
  Some (js "danger").
Proof.
  apply (@unknown_ai_level_keeps_heuristic_level Sample.alarming
           Cases.critical_result Cases.critical_verdict Spec.Danger);
    try reflexivity; intro H; vm_compute in H; discriminate H.
Defined.

Lemma fused_result_in_range_example :
  exists n, (0 <= n <= 100)%Z /\ riskScore Cases.fused_result = num_of_Z n.
Proof.
  apply (@analyzeUrl_score_is_in_range Sample.runtime Sample.sandbox_with_ai
           (js "https://example.com/") Sample.options Cases.fused_result).
  - vm_compute. reflexivity.
  - intros content u ai E Hp. injection E as <- <-.
    vm_compute in Hp. injection Hp as <-. exists 90%Z.
    split; [lia | vm_compute; reflexivity].
Defined.

Lemma fenced_answer_example :
  jsonStr Sample.fenced_answer = Cases.verdict_text.
Proof.
  apply (@ExtractionFacts.jsonStr_takes_the_fenced_block
           (js "Here is my analysis:" ++ [10%N]) Cases.verdict_text []).
  - apply not_In_forallb. reflexivity.
  - apply not_In_forallb. reflexivity.
  - discriminate.
Defined.

Lemma wrapped_answer_example :
  jsonStr (js "Verdict: " ++ Cases.verdict_text ++ js " as requested.") =
    Cases.verdict_text /\
  jsonStr Sample.truncated_answer = Sample.truncated_answer.
Proof.
  destruct ExtractionFacts.jsonStr_takes_first_to_last_brace as (H1 & H2).
  split.
  - apply (H1 (js "Verdict: ") Cases.inner_text (js " as requested."));
      apply not_In_forallb; reflexivity.
  - apply H2; apply not_In_forallb; reflexivity.
Defined.




Lemma analyze_route_no_browser_example :
  @serve_analyze Sample.runtime Cases.conversions Cases.no_browser
    (Reaches (Some (url_body Sample.address))) =
    Sends (Refused 500 (js "ANALYSIS_ERROR")) /\
  exists e,
    launched Cases.no_browser = Throw e /\
    ~ Infix (js "timeout") (message e) /\
    ~ Infix (js "Timeout") (message e).
Proof.
  assert (E : @serve_analyze Sample.runtime Cases.conversions
                Cases.no_browser (Reaches (Some (url_body Sample.address))) =
              Sends (Refused 500 (js "ANALYSIS_ERROR")))
    by (vm_compute; reflexivity).
  split; [exact E | ].
  destruct (@analyze_route_error_statuses Sample.runtime Cases.conversions
              Cases.no_browser (Reaches (Some (url_body Sample.address)))
              500%Z (js "ANALYSIS_ERROR") E)
    as [(H & _) | [(H & _) | (body & s & e & _ & _ & _ & Hwhy & _ & Hcode)]];
    [lia | discriminate H | discriminate H | ].
  destruct Hwhy as [Hc | (_ & Hl)]; [discriminate Hc | ].
  destruct Hcode as [(H & _) | (_ & _ & H1 & H2)]; [discriminate H | ].
  exists e. auto.
Defined.

Lemma stuck_browser_example :
  @serve_analyze Sample.runtime Cases.conversions Cases.stuck_browser
    (Reaches (Some (url_body Sample.address))) =
    Sends (Refused 500 (js "ANALYSIS_ERROR")) /\
  @analyzeUrl Sample.runtime Cases.stuck_browser Sample.address
    Sample.options = Throw (Rejection (js "Protocol error: Target closed")).
Proof.
  destruct (@analyzeUrl_throws_only_on_bad_url_or_browser Sample.runtime
              Cases.stuck_browser Sample.address Sample.options)
    as [(H & _) | [(_ & e & He & Hrun) | [(_ & H & _) | (_ & H & _)]]];
    try discriminate H.
  injection He as <-. split; [vm_compute; reflexivity | exact Hrun].
Defined.


Lemma quick_check_route_example :
  (exists q,
     @quickCheck Sample.runtime Sample.address = Normal q /\
     @serve_quick_check Sample.runtime
       (Reaches (Some (url_body Sample.address))) = Sends (Replied q)) /\
  @serve_quick_check Sample.runtime (Reaches None) =
    Sends (Refused 500 (js "INTERNAL_SERVER_ERROR")) /\
  @serve_quick_check Sample.runtime BodyRejected =
    Sends (Refused 500 (js "INTERNAL_SERVER_ERROR")).
Proof.
  destruct (@quick_check_route_never_sends_CHECK_ERROR Sample.runtime
              (Reaches (Some (url_body Sample.address)))) as (_ & _ & H).
  split; [ | split; reflexivity].
  apply (H (url_body Sample.address) Sample.address);
    [reflexivity | reflexivity | discriminate].
Defined.

Lemma ip_literal_example :
  exists d,
    @analyzeDomain Sample.runtime Sample.address = Normal d /\
    score d = 40%Z /\
    determineRiskLevel (score d) = js "warning".
Proof.
  exists (mkSignal 40 [IpDirectAccess; NoHttps]).
  split; [reflexivity | ].
  apply (@ip_literal_host_scores Sample.runtime Sample.address
           (mkURL (js "http:") (js "192.0.2.10") [])
           (mkSignal 40 [IpDirectAccess; NoHttps])).
  - reflexivity.
  - exists (js "192"), (js "0"), (js "2"), (js "10").
    repeat split; try discriminate; reflexivity.
  - reflexivity.
  - discriminate.
Defined.

Lemma mixed_batch_example :
  exists report,
    @serve_batch Sample.runtime Cases.conversions
      (Reaches (Some Cases.mixed_batch)) = Sends (Replied report) /\
    report_total report = 4%nat /\
    map (fun r => qc_valid (outcome r)) (report_results report) =
      [true; false; true; false] /\
    report_summary report = mkBatchSummary 0 2 0 2 /\
    (exists code,
       @post_quick_check Sample.runtime
         (Some (JObject [ (js "url", JArray [JString Sample.address]) ])) =
       Sends (Refused 400 code)).
Proof.
  destruct (@batch_route_checks_every_entry Sample.runtime Cases.conversions
              (Reaches (Some Cases.mixed_batch))) as (_ & H).
  destruct (H Cases.mixed_batch
              [ JString Sample.address; JNumber 123;
                JArray [JString Sample.address]; JNull ])
    as (report & Hr & Ht & _ & Hsum & _ & Hother);
    [reflexivity | reflexivity | vm_compute; lia | ].
  exists report. split; [exact Hr | ]. split; [exact Ht | ].
  assert (E : @serve_batch Sample.runtime Cases.conversions
                (Reaches (Some Cases.mixed_batch)) =
              Sends
                (Replied
                   (mkBatchReport 4
                      (map (@entry_result Sample.runtime Cases.conversions)
                         [ JString Sample.address; JNumber 123;
                           JArray [JString Sample.address]; JNull ])
                      (mkBatchSummary 0 2 0 2))))
    by (vm_compute; reflexivity).
  rewrite Hr in E. injection E as ->.
  split; [vm_compute; reflexivity | ]. split; [reflexivity | ].
  destruct (Hother 2%nat (JArray [JString Sample.address])) as (_ & Hq);
    [reflexivity | right; discriminate | exact Hq].
Defined.

Lemma batch_of_strings_example :
  exists data report,
    @post_batch_check Sample.runtime (Some Sample.batch) = Success data /\
    @serve_batch Sample.runtime Cases.conversions
      (Reaches (Some (urls_body Sample.batch))) = Sends (Replied report) /\
    map outcome (report_results report) = results data /\
    report_summary report = summary data.
Proof.
  destruct (@batch_route_on_strings Sample.runtime Cases.conversions)
    as (H & _).
  specialize (H Sample.batch).
  destruct (@post_batch_check Sample.runtime (Some Sample.batch))
    as [data | status code] eqn:E1;
    [ | vm_compute in E1; discriminate E1].
  destruct (@serve_batch Sample.runtime Cases.conversions
              (Reaches (Some (urls_body Sample.batch))))
    as [[report | status code] | ] eqn:E2; try contradiction.
  destruct H as (_ & Hres & _ & Hsum).
  exists data, report. auto.
Defined.
